(** * CaptainManager: a shallow embedding of src/user/system/CaptainManager.ts

  The control-plane singleton of the manager node.  Every method that the
  properties below talk about is transcribed as a Rocq function on an
  explicit state; the collaborators the class only calls (the Docker API,
  the data store, certbot, the load balancer, the [request] and [ssh2]
  libraries, [uuid]) appear as the outcomes they hand back to the code. *)

From Stdlib Require Import ZArith Lia Bool.
From stdpp Require Import base option list strings gmap.

Local Open Scope string_scope.
Local Open Scope Z_scope.

(** ** JavaScript values shared by several methods *)

Module Js.

(** Error objects the class creates or passes along.
    [ApiStatusCodes.createError code msg] is [ApiError code msg];
    [new Error msg] is [PlainError msg]; an error handed over by a
    collaborator or a library, which the class never inspects, is
    [ForeignError] with whatever identifies it. *)
Inductive StatusCode :=
| STATUS_ERROR_GENERIC
| STATUS_ERROR_NOT_AUTHORIZED
| VERIFICATION_FAILED.

Inductive Error :=
| ApiError (code : StatusCode) (message : string)
| PlainError (message : string)
| ForeignError (what : string).

Definition message_of (e : Error) : string :=
  match e with
  | ApiError _ m => m
  | PlainError m => m
  | ForeignError w => w
  end.

(** A promise settles at most once: [resolve] and [reject] on a settled
    promise are ignored. *)
Inductive Promise (A : Type) :=
| Pending
| Resolved (v : A)
| Rejected (e : Error).
Arguments Pending {A}.
Arguments Resolved {A} v.
Arguments Rejected {A} e.

Definition resolve {A} (v : A) (p : Promise A) : Promise A :=
  match p with Pending => Resolved v | _ => p end.

Definition reject {A} (e : Error) (p : Promise A) : Promise A :=
  match p with Pending => Rejected e | _ => p end.

Definition settled {A} (p : Promise A) : bool :=
  match p with Pending => false | _ => true end.

(** [!s] for a string, and for a string that may be [undefined]. *)
Definition falsy_string (s : string) : bool := bool_decide (s = "").

Definition falsy_opt_string (s : option string) : bool :=
  match s with None => true | Some s => falsy_string s end.

Definition string_eqb (a b : string) : bool := bool_decide (a = b).

(** [body !== token] where [body] may be [undefined]. *)
Definition strict_neq (body : option string) (token : string) : bool :=
  match body with None => true | Some b => negb (string_eqb b token) end.

End Js.

(** ** The health monitor: [performHealthCheck] *)

Module HealthMonitor.
Import Js.

Definition MAX_FAIL_ALLOWED : Z := 4.
Definition HEALTH_CHECK_INTERVAL : Z := 20000.
Definition TIMEOUT_HEALTH_CHECK : Z := 15000.

Inductive LogEntry :=
| CaptainHealthFailed (count : Z) (domain : string)
    (* 'Captain health check failed: #' + count + ' at ' + domain *)
| NginxHealthFailed (count : Z).
    (* 'NGINX health check failed: #' + count *)

(** The part of the process the monitor reads and writes.  [uuidSource]
    and [uuidCalls] stand for the [uuid()] generator: the n-th call returns
    [uuidSource n].  [nextCheckTimers] collects the delays handed to
    [setTimeout] for the next [performHealthCheck]; [exitCode] is set by
    [process.exit]. *)
Record Proc := mkProc {
  consecutiveHealthCheckFailCount : Z;
  healthCheckUuid : string;
  uuidSource : nat -> string;
  uuidCalls : nat;
  nextCheckTimers : list Z;
  warnings : list LogEntry;
  exitCode : option Z
}.

(** The closure state of one call of [performHealthCheck]: the two
    [callbackCalled] flags and the [checksPerformed] object. *)
Record Cycle := mkCycle {
  captainCallbackCalled : bool;
  nginxCallbackCalled : bool;
  captainHealth : option bool;
  nginxHealth : option bool
}.

Definition newCycle : Cycle := mkCycle false false None None.

(** What can happen to the two probes of a cycle. *)
Inductive ProbeEvent :=
| CaptainTimeout
| CaptainResponse (error : bool) (body : option string)
| NginxTimeout
| NginxVerified      (* verifyCaptainOwnsDomainOrThrow resolved *)
| NginxVerifyFailed. (* verifyCaptainOwnsDomainOrThrow rejected *)

Definition scheduleNextHealthCheck (p : Proc) : Proc :=
  mkProc (consecutiveHealthCheckFailCount p)
         (uuidSource p (uuidCalls p))
         (uuidSource p)
         (S (uuidCalls p))
         (nextCheckTimers p ++ [HEALTH_CHECK_INTERVAL])
         (warnings p)
         (exitCode p).

Definition warn (e : LogEntry) (p : Proc) : Proc :=
  mkProc (consecutiveHealthCheckFailCount p) (healthCheckUuid p)
         (uuidSource p) (uuidCalls p) (nextCheckTimers p)
         (warnings p ++ [e]) (exitCode p).

Definition setFailCount (n : Z) (p : Proc) : Proc :=
  mkProc n (healthCheckUuid p) (uuidSource p) (uuidCalls p)
         (nextCheckTimers p) (warnings p) (exitCode p).

Definition process_exit (code : Z) (p : Proc) : Proc :=
  mkProc (consecutiveHealthCheckFailCount p) (healthCheckUuid p)
         (uuidSource p) (uuidCalls p) (nextCheckTimers p)
         (warnings p) (Some code).

Definition scheduleIfNecessary (captainPublicDomain : string)
    (c : Cycle) (p : Proc) : Proc :=
  match captainHealth c, nginxHealth c with
  | Some captainOk, Some nginxOk =>
      let p1 :=
        if negb captainOk
        then warn (CaptainHealthFailed (consecutiveHealthCheckFailCount p)
                                       captainPublicDomain) p
        else p in
      let p2 :=
        if negb nginxOk
        then warn (NginxHealthFailed (consecutiveHealthCheckFailCount p1)) p1
        else p1 in
      let hasFailedCheck := negb captainOk || negb nginxOk in
      let p3 :=
        if hasFailedCheck
        then setFailCount (consecutiveHealthCheckFailCount p2 + 1) p2
        else setFailCount 0 p2 in
      let p4 := scheduleNextHealthCheck p3 in
      if (MAX_FAIL_ALLOWED <? consecutiveHealthCheckFailCount p4)%Z
      then process_exit 1 p4
      else p4
  | _, _ => p
  end.

(** The callbacks passed to [checkCaptainHealth] and [checkNginxHealth]. *)
Definition onCaptainHealth (dom : string) (success : bool)
    (st : Proc * Cycle) : Proc * Cycle :=
  let c := mkCycle true (nginxCallbackCalled st.2)
                   (Some success) (nginxHealth st.2) in
  (scheduleIfNecessary dom c st.1, c).

Definition onNginxHealth (dom : string) (success : bool)
    (st : Proc * Cycle) : Proc * Cycle :=
  let c := mkCycle (captainCallbackCalled st.2) true
                   (captainHealth st.2) (Some success) in
  (scheduleIfNecessary dom c st.1, c).

(** One event of a running cycle.  A terminated process runs nothing. *)
Definition handle (dom : string) (ev : ProbeEvent)
    (st : Proc * Cycle) : Proc * Cycle :=
  match exitCode st.1 with
  | Some _ => st
  | None =>
    match ev with
    | CaptainTimeout =>
        if captainCallbackCalled st.2 then st
        else onCaptainHealth dom false st
    | CaptainResponse error body =>
        if captainCallbackCalled st.2 then st
        else if error || falsy_opt_string body
                || strict_neq body (healthCheckUuid st.1)
             then onCaptainHealth dom false st
             else onCaptainHealth dom true st
    | NginxTimeout =>
        if nginxCallbackCalled st.2 then st
        else onNginxHealth dom false st
    | NginxVerified =>
        if nginxCallbackCalled st.2 then st
        else onNginxHealth dom true st
    | NginxVerifyFailed =>
        if nginxCallbackCalled st.2 then st
        else onNginxHealth dom false st
    end
  end.

(** What one call of [performHealthCheck] meets: the configuration, the
    data store's answers, and the probe events in their order of arrival. *)
Record CycleInput := mkCycleInput {
  isDebug : bool;
  hasCustomDomain : bool;
  captainSubDomain : string;
  rootDomain : string;
  events : list ProbeEvent
}.

Definition captainPublicDomain (ci : CycleInput) : string :=
  captainSubDomain ci ++ "." ++ rootDomain ci.

Definition run_events (dom : string) (evs : list ProbeEvent)
    (st : Proc * Cycle) : Proc * Cycle :=
  foldl (fun st ev => handle dom ev st) st evs.

(** [checkNginxHealth] calls [verifyCaptainOwnsDomainOrThrow], whose first
    statement draws a token from [uuid()] for its confirmation file: the
    generator advances, the health-check token stays. *)
Definition drawVerifierUuid (p : Proc) : Proc :=
  mkProc (consecutiveHealthCheckFailCount p) (healthCheckUuid p)
         (uuidSource p) (S (uuidCalls p)) (nextCheckTimers p)
         (warnings p) (exitCode p).

Definition performHealthCheck (ci : CycleInput) (p : Proc) : Proc * Cycle :=
  match exitCode p with
  | Some _ => (p, newCycle)
  | None =>
    if isDebug ci || negb (hasCustomDomain ci)
    then (scheduleNextHealthCheck p, newCycle)
    else run_events (captainPublicDomain ci) (events ci)
                    (drawVerifierUuid p, newCycle)
  end.

(** The recorded outcomes of a cycle, once both are known. *)
Definition decided (ci : CycleInput) (p : Proc) : option (bool * bool) :=
  let c := (performHealthCheck ci p).2 in
  match captainHealth c, nginxHealth c with
  | Some a, Some b => Some (a, b)
  | _, _ => None
  end.

Definition decided_failed (ci : CycleInput) (p : Proc) : bool :=
  match decided ci p with
  | Some (a, b) => negb (a && b)
  | None => false
  end.

Definition decided_healthy (ci : CycleInput) (p : Proc) : bool :=
  match decided ci p with
  | Some (a, b) => a && b
  | None => false
  end.

Fixpoint run_cycles (cis : list CycleInput) (p : Proc) : Proc :=
  match cis with
  | [] => p
  | ci :: rest => run_cycles rest (performHealthCheck ci p).1
  end.

(** Every cycle of the list, run in turn, is decided with a failed probe. *)
Fixpoint all_decided_failed (cis : list CycleInput) (p : Proc) : bool :=
  match cis with
  | [] => true
  | ci :: rest =>
      decided_failed ci p
      && all_decided_failed rest (performHealthCheck ci p).1
  end.

(** The process as the constructor leaves it. *)
Definition initial (src : nat -> string) : Proc :=
  mkProc 0 (src O) src 1%nat [] [] None.

(** The counter a decided cycle leaves, from the counter [n] before it. *)
Definition counted (a b : bool) (n : Z) : Z :=
  if a && b then 0 else n + 1.

Definition exitOf (n : Z) : option Z :=
  if (MAX_FAIL_ALLOWED <? n)%Z then Some 1 else None.

(** What holds of a cycle started on [p] after any number of its events. *)
Definition cycle_inv (p : Proc) (st : Proc * Cycle) : Prop :=
  captainCallbackCalled st.2 = bool_decide (is_Some (captainHealth st.2))
  ∧ nginxCallbackCalled st.2 = bool_decide (is_Some (nginxHealth st.2))
  ∧ match captainHealth st.2, nginxHealth st.2 with
    | Some a, Some b =>
        consecutiveHealthCheckFailCount st.1
          = counted a b (consecutiveHealthCheckFailCount p)
        ∧ exitCode st.1
          = exitOf (counted a b (consecutiveHealthCheckFailCount p))
    | _, _ => st.1 = p
    end.

End HealthMonitor.

(** ** The static members: [captainManagerInstance], [get],
     [authenticatorCache], [getAuthenticator] *)

Module Statics.
Import Js.

(** Objects have an address; two references are the same object exactly
    when the addresses agree. *)
Definition Addr := nat.

(** The fields the constructor sets (lines 43-63), leaving out the
    collaborator handles. *)
Record Manager := mkManager {
  hasForceSsl : bool;
  myNodeId : option string;
  inited : bool;
  waitUntilRestarted : bool;
  captainSalt : string;
  consecutiveHealthCheckFailCount : Z;
  healthCheckUuid : string
}.

(** [new Authenticator(captainSalt, namespace)]: the class lives outside
    this file, so an instance is its address and the two arguments. *)
Record Authenticator := mkAuthenticator {
  authAddr : Addr;
  authSalt : string;
  authNamespace : string
}.

(** The process as the static members see it.  [constructorThrows k] tells
    whether the k-th run of the constructor throws (its body calls
    [DockerApi.get], [DataStoreProvider.getDataStore] and three other
    constructors); [freshUuid k] is the token [uuid()] gives it. *)
Record World := mkWorld {
  heap : gmap Addr Manager;
  nextAddr : Addr;
  captainManagerInstance : option Addr;
  authenticatorCache : gmap string Authenticator;
  constructorThrows : nat -> option Error;
  freshUuid : nat -> string;
  constructorRuns : nat;
  managersConstructed : list Addr;
  authenticatorsConstructed : list Authenticator;
  errorLog : list string
}.

Inductive Result (A : Type) :=
| Returns (v : A)
| Throws (e : Error).
Arguments Returns {A} v.
Arguments Throws {A} e.

(** [new CaptainManager()] *)
Definition construct (w : World) : Result Addr * World :=
  match constructorThrows w (constructorRuns w) with
  | Some e =>
      (Throws e,
       mkWorld (heap w) (nextAddr w) (captainManagerInstance w)
               (authenticatorCache w) (constructorThrows w) (freshUuid w)
               (S (constructorRuns w)) (managersConstructed w)
               (authenticatorsConstructed w) (errorLog w))
  | None =>
      let a := nextAddr w in
      let m := mkManager false None false false "" 0
                         (freshUuid w (constructorRuns w)) in
      (Returns a,
       mkWorld (<[a := m]> (heap w)) (S a) (captainManagerInstance w)
               (authenticatorCache w) (constructorThrows w) (freshUuid w)
               (S (constructorRuns w)) (managersConstructed w ++ [a])
               (authenticatorsConstructed w) (errorLog w))
  end.

Definition setInstance (a : Addr) (w : World) : World :=
  mkWorld (heap w) (nextAddr w) (Some a) (authenticatorCache w)
          (constructorThrows w) (freshUuid w) (constructorRuns w)
          (managersConstructed w) (authenticatorsConstructed w)
          (errorLog w).

(** [static get()] *)
Definition get (w : World) : Result Addr * World :=
  match captainManagerInstance w with
  | Some a => (Returns a, w)
  | None =>
      match construct w with
      | (Returns a, w') => (Returns a, setInstance a w')
      | (Throws e, w') => (Throws e, w')
      end
  end.

Definition logError (msg : string) (w : World) : World :=
  mkWorld (heap w) (nextAddr w) (captainManagerInstance w)
          (authenticatorCache w) (constructorThrows w) (freshUuid w)
          (constructorRuns w) (managersConstructed w)
          (authenticatorsConstructed w) (errorLog w ++ [msg]).

(** [getCaptainSalt()] on the object at [a] *)
Definition getCaptainSalt (a : Addr) (w : World) : Result string * World :=
  let salt := default "" (captainSalt <$> heap w !! a) in
  if falsy_string salt
  then let msg := "Captain Salt is not set yet!!" in
       (Throws (PlainError msg), logError msg w)
  else (Returns salt, w).

(** [authenticatorCache] is the object literal [{}]: reading a key that is
    not an own property falls through to [Object.prototype], whose members
    are all truthy. *)
Definition objectPrototypeKeys : list string :=
  [ "constructor"; "hasOwnProperty"; "isPrototypeOf";
    "propertyIsEnumerable"; "toLocaleString"; "toString"; "valueOf";
    "__proto__"; "__defineGetter__"; "__defineSetter__";
    "__lookupGetter__"; "__lookupSetter__" ].

Inductive Slot :=
| Own (a : Authenticator)
| Inherited (key : string).

(** [authenticatorCache[namespace]]; [None] is [undefined]. *)
Definition cacheRead (namespace : string) (w : World) : option Slot :=
  match authenticatorCache w !! namespace with
  | Some a => Some (Own a)
  | None =>
      if bool_decide (namespace ∈ objectPrototypeKeys)
      then Some (Inherited namespace)
      else None
  end.

(** [authenticatorCache[namespace] = new Authenticator(salt, namespace)] *)
Definition cacheStoreNew (salt namespace : string) (w : World) : World :=
  let a := mkAuthenticator (nextAddr w) salt namespace in
  mkWorld (heap w) (S (nextAddr w)) (captainManagerInstance w)
          (<[namespace := a]> (authenticatorCache w))
          (constructorThrows w) (freshUuid w) (constructorRuns w)
          (managersConstructed w) (authenticatorsConstructed w ++ [a])
          (errorLog w).

(** [static getAuthenticator(namespace)] *)
Definition getAuthenticator (namespace : string) (w : World)
    : Result (option Slot) * World :=
  if falsy_string namespace
  then (Throws (ApiError STATUS_ERROR_NOT_AUTHORIZED "Empty namespace"), w)
  else
    match cacheRead namespace w with
    | Some slot => (Returns (Some slot), w)
    | None =>
        match get w with
        | (Throws e, w1) => (Throws e, w1)
        | (Returns a, w1) =>
            match getCaptainSalt a w1 with
            | (Throws e, w2) => (Throws e, w2)
            | (Returns salt, w2) =>
                let w3 := if falsy_string salt then w2
                          else cacheStoreNew salt namespace w2 in
                (Returns (cacheRead namespace w3), w3)
            end
        end
    end.

(** An assignment to a field of the object at [a]. *)
Definition updateManager (a : Addr) (f : Manager -> Manager) (w : World)
    : World :=
  mkWorld (alter f a (heap w))
          (nextAddr w) (captainManagerInstance w) (authenticatorCache w)
          (constructorThrows w) (freshUuid w) (constructorRuns w)
          (managersConstructed w) (authenticatorsConstructed w)
          (errorLog w).

Definition withCaptainSalt (salt : string) (m : Manager) : Manager :=
  mkManager (hasForceSsl m) (myNodeId m) (inited m) (waitUntilRestarted m)
            salt (consecutiveHealthCheckFailCount m) (healthCheckUuid m).

Definition withHasForceSsl (v : bool) (m : Manager) : Manager :=
  mkManager v (myNodeId m) (inited m) (waitUntilRestarted m)
            (captainSalt m) (consecutiveHealthCheckFailCount m)
            (healthCheckUuid m).

Definition withMyNodeId (nodeId : string) (m : Manager) : Manager :=
  mkManager (hasForceSsl m) (Some nodeId) (inited m) (waitUntilRestarted m)
            (captainSalt m) (consecutiveHealthCheckFailCount m)
            (healthCheckUuid m).

Definition withInited (v : bool) (m : Manager) : Manager :=
  mkManager (hasForceSsl m) (myNodeId m) v (waitUntilRestarted m)
            (captainSalt m) (consecutiveHealthCheckFailCount m)
            (healthCheckUuid m).

Definition withHealthCheckUuid (u : string) (m : Manager) : Manager :=
  mkManager (hasForceSsl m) (myNodeId m) (inited m) (waitUntilRestarted m)
            (captainSalt m) (consecutiveHealthCheckFailCount m) u.

(** A process in which no static member has run yet. *)
Definition boot (throws : nat -> option Error) (uuids : nat -> string)
    : World :=
  mkWorld ∅ 0%nat None ∅ throws uuids 0%nat [] [] [].

(** [n] calls of [get] in a row: what each returned. *)
Fixpoint get_many (n : nat) (w : World) : list (Result Addr) * World :=
  match n with
  | O => ([], w)
  | S k => let '(r, w1) := get w in
           let '(rs, w2) := get_many k w1 in
           (r :: rs, w2)
  end.

(** The salt of the singleton, when there is one. *)
Definition instanceSalt (w : World) : option string :=
  a ← captainManagerInstance w; captainSalt <$> heap w !! a.

(** The cache holds under each key an issuer bound to that key and to the
    salt of the singleton. *)
Definition cacheCoherent (w : World) : Prop :=
  ∀ namespace a,
    authenticatorCache w !! namespace = Some a →
    authNamespace a = namespace ∧ Some (authSalt a) = instanceSalt w.

End Statics.

(** ** Enrolling a remote node: [joinDockerNode] *)

Module JoinNode.
Import Js.

(** What the method takes from outside this file: the firewall command of
    [CaptainConstants] and [dockerApi.createJoinCommand]. *)
Record Deps := mkDeps {
  disableFirewallCommand : string;
  createJoinCommand : string -> string -> string
}.

Record ConnectConfig := mkConnectConfig {
  host : string;
  port : Z;
  username : string;
  privateKey : string
}.

Inductive LogLine :=
| LogE (text : string)
| LogD (text : string).

(** The handlers the code registers, by the event that runs them.  A stream
    is named by the order in which [conn.exec] handed it over. *)
Inductive Event :=
| ConnError (err : string)
| ConnReady
| ExecCallback (err : option string)
| StreamClose (stream : nat) (code signal : string)
| StreamData (stream : nat) (data : string)
| StderrData (stream : nat) (data : string).

(** [hasExisted] holds one flag per stream: the variable is declared inside
    the [exec] callback. *)
Record Session := mkSession {
  promise : Promise unit;
  connected : option ConnectConfig;
  execIssued : list string;
  hasExisted : list bool;
  connEnds : nat;
  logs : list LogLine
}.

Definition withPromise (p : Promise unit) (s : Session) : Session :=
  mkSession p (connected s) (execIssued s) (hasExisted s) (connEnds s)
            (logs s).

Definition withLog (l : LogLine) (s : Session) : Session :=
  mkSession (promise s) (connected s) (execIssued s) (hasExisted s)
            (connEnds s) (logs s ++ [l]).

Definition withExec (cmd : string) (s : Session) : Session :=
  mkSession (promise s) (connected s) (execIssued s ++ [cmd])
            (hasExisted s) (connEnds s) (logs s).

Definition withFlags (fl : list bool) (s : Session) : Session :=
  mkSession (promise s) (connected s) (execIssued s) fl (connEnds s)
            (logs s).

Definition connEnd (s : Session) : Session :=
  mkSession (promise s) (connected s) (execIssued s) (hasExisted s)
            (S (connEnds s)) (logs s).

(** The flag of stream [i], if [exec] ever handed over such a stream. *)
Definition streamFlag (i : nat) (s : Session) : option bool :=
  hasExisted s !! i.

Definition setupErrorMessage (data : string) : string :=
  "Error during setup: " ++ data.

Definition handle (d : Deps) (captainIpAddress token : string)
    (ev : Event) (s : Session) : Session :=
  match ev with
  | ConnError err =>
      withPromise
        (reject (ApiError STATUS_ERROR_GENERIC "SSH Connection error!!")
                (promise s))
        (withLog (LogE err) s)
  | ConnReady =>
      withExec (disableFirewallCommand d ++ " "
                ++ createJoinCommand d captainIpAddress token)
               (withLog (LogD "SSH Client :: ready") s)
  | ExecCallback (Some err) =>
      withPromise
        (reject (ApiError STATUS_ERROR_GENERIC
                          "SSH Running command failed!!")
                (promise s))
        (withLog (LogE err) s)
  | ExecCallback None =>
      withFlags (hasExisted s ++ [false]) s
  | StreamClose i code signal =>
      match streamFlag i s with
      | None => s (* no such stream: nothing listens *)
      | Some existed =>
          let s1 := connEnd
                      (withLog (LogD ("Stream :: close :: code: " ++ code
                                      ++ ", signal: " ++ signal)) s) in
          if existed then s1
          else withPromise (resolve tt (promise s1))
                           (withFlags (<[i := true]> (hasExisted s1)) s1)
      end
  | StreamData i data =>
      match streamFlag i s with
      | None => s
      | Some _ => withLog (LogD ("STDOUT: " ++ data)) s
      end
  | StderrData i data =>
      match streamFlag i s with
      | None => s
      | Some existed =>
          let s1 := withLog (LogE ("STDERR: " ++ data)) s in
          if existed then s1
          else withPromise
                 (reject (ApiError STATUS_ERROR_GENERIC
                                   (setupErrorMessage data))
                         (promise s1))
                 (withFlags (<[i := true]> (hasExisted s1)) s1)
      end
  end.

Definition run (d : Deps) (captainIpAddress token : string)
    (evs : list Event) (s : Session) : Session :=
  foldl (fun s ev => handle d captainIpAddress token ev s) s evs.

(** The session right after the executor ran: handlers registered,
    [connect] called as root on port 22. *)
Definition opened (remoteNodeIpAddress privateKey : string) : Session :=
  mkSession Pending
            (Some (mkConnectConfig remoteNodeIpAddress 22 "root" privateKey))
            [] [] 0%nat [].

(** [joinDockerNode]: [tokenReply] is what [dockerApi.getJoinToken]
    settled with, [evs] what the connection then emitted. *)
Definition joinDockerNode (d : Deps)
    (captainIpAddress : string) (isManager : bool)
    (remoteNodeIpAddress privateKey : string)
    (tokenReply : sum Error string) (evs : list Event) : Session :=
  match tokenReply with
  | inl e => mkSession (Rejected e) None [] [] 0%nat []
  | inr token =>
      run d captainIpAddress token evs
          (opened remoteNodeIpAddress privateKey)
  end.

(** The two signals the outcome is decided by, for one stream. *)
Inductive Signal :=
| Closed
| Stderr (data : string).

Fixpoint first_signal (i : nat) (evs : list Event) : option Signal :=
  match evs with
  | [] => None
  | StreamClose j _ _ :: rest =>
      if bool_decide (i = j) then Some Closed else first_signal i rest
  | StderrData j data :: rest =>
      if bool_decide (i = j) then Some (Stderr data)
      else first_signal i rest
  | _ :: rest => first_signal i rest
  end.

(** Events of the one stream a session has. *)
Definition stream_event (i : nat) (ev : Event) : bool :=
  match ev with
  | StreamClose j _ _ | StreamData j _ | StderrData j _ =>
      bool_decide (i = j)
  | _ => false
  end.

(** The outcome of a session whose one stream has signalled nothing yet. *)
Definition outcomeOf (sig : option Signal) : Promise unit :=
  match sig with
  | None => Pending
  | Some Closed => Resolved tt
  | Some (Stderr data) =>
      Rejected (ApiError STATUS_ERROR_GENERIC (setupErrorMessage data))
  end.

End JoinNode.

(** ** Promise chains over the collaborators *)

Module Chain.
Import Js.

(** How an awaited operation ends: it fulfils, it rejects (or throws inside
    a [then] callback), or it never settles. *)
Inductive Outcome (A : Type) :=
| Fulfilled (v : A)
| Failed (e : Error)
| Never.
Arguments Fulfilled {A} v.
Arguments Failed {A} e.
Arguments Never {A}.

(** The values of [CaptainConstants] the class reads.  Their definitions
    are in another file, so a run takes them as given; [nginxPortNumber] is
    the number as string concatenation renders it. *)
Record CaptainConstants := mkCaptainConstants {
  isDebug : bool;
  preCheckForWildCard : bool;
  publishedNameOnDockerHub : string;
  captainSubDomain : string;
  captainConfirmationPath : string;
  nginxPortNumber : string;
  nginxDomainSpecificHtmlDir : string;
  healthCheckEndPoint : string;
  captainRootDirectoryTemp : string;
  captainRootDirectoryGenerated : string;
  letsEncryptEtcPath : string;
  letsEncryptLibPath : string;
  captainStaticFilesDir : string;
  perAppNginxConfigPathBase : string;
  baseNginxConfigPath : string;
  registryPathOnHost : string;
  captainNetworkName : string;
  captainServiceName : string;
  captainSaltSecretKey : string
}.

(** [IRegistryInfo] of models/IRegistryInfo, as far as [initialize] reads
    it: whether an entry is the local registry, and its password. *)
Inductive IRegistryTypes :=
| LOCAL_REG
| REMOTE_REG.

Record IRegistryInfo := mkRegistryInfo {
  registryType : IRegistryTypes;
  registryPassword : string
}.

(** What [request] passes to its callback. *)
Record HttpReply := mkHttpReply {
  error : option Error;
  body : option string
}.

(** The calls the class makes on its collaborators, indexed by the type of
    what they give back (as the TypeScript signatures declare it). *)
Inductive Call : Type -> Type :=
(* dataStore *)
| DS_getForceSsl : Call bool
| DS_getHasRootSsl : Call bool
| DS_setHasRootSsl (v : bool) : Call unit
| DS_setUserEmailAddress (emailAddress : string) : Call unit
| DS_getRootDomain : Call string
| DS_hasCustomDomain : Call bool
| DS_setCustomDomain (domain : string) : Call unit
| DS_setEncryptionSalt (salt : string) : Call unit
| DS_getNameSpace : Call string
| DS_getAllRegistries : Call (list IRegistryInfo)
(* certbotManager *)
| Certbot_init (nodeId : string) : Call unit
| Certbot_ensureRegistered (emailAddress : string) : Call unit
| Certbot_enableSsl (domain : string) : Call unit
| Certbot_domainValidOrThrow (domain : string) : Call unit
(* loadBalancerManager *)
| LB_init (nodeId : string) : Call unit
| LB_rePopulateNginxConfigFile : Call unit
| LB_sendReloadSignal : Call unit
| LB_getCaptainPublicRandomKey : Call string
(* dockerApi *)
| Docker_getNodeIdByServiceName (service : string) (retry : Z)
    : Call string
| Docker_isNodeManager (nodeId : string) : Call bool
| Docker_ensureOverlayNetwork (network : string) : Call unit
| Docker_ensureServiceConnectedToNetwork (service network : string)
    : Call unit
| Docker_ensureSecret (key : string) (valueIfNotExist : string)
    : Call unit
| Docker_ensureSecretOnService (service key : string) : Call bool
(* fs-extra *)
| Fs_emptyDir (dir : string) : Call unit
| Fs_ensureDir (dir : string) : Call unit
| Fs_ensureFile (file : string) : Call unit
| Fs_outputFile (file content : string) : Call unit
| Fs_pathExistsSync (file : string) : Call bool
| Fs_readFileSync (file : string) : Call string
(* others *)
| Migrate_migrateIfNeeded : Call bool
| Registry_ensureDockerRegistryRunningOnThisNode (password : string)
    : Call unit
| Http_request (url : string) : Call HttpReply.

(** What a run leaves behind, in order. *)
Inductive Task :=
| NginxHealthProbe (domain : string).

Inductive Action :=
| Did {X : Type} (c : Call X)
| Waited (ms : Z)
| Spawned (t : Task).

Inductive LogLine :=
| LogD (text : string)
| LogE (text : string)
| LogError (e : Error)
| LogEError (label : string) (e : option Error)  (* label + error *)
| LogEBody (label : string) (b : option string). (* label + body *)

Inductive TimerAction :=
| ProcessExit (code : Z)
| ResetUpdateService
| NextHealthCheck
| CaptainProbeTimeout
| NginxProbeTimeout.

(** The surroundings answer the n-th action of a run.  For a call that
    returns at once ([getRootDomain], [pathExistsSync], ...) [Failed] is a
    throw; such a call never answers [Never], and nothing below needs
    that. *)
Definition Env := forall X : Type, nat -> Call X -> Outcome X.

Record Sys := mkSys {
  trace : list Action;
  logged : list LogLine;
  timers : list (Z * TimerAction);
  world : Statics.World
}.

Definition Chain (A : Type) := Sys -> Outcome A * Sys.

Definition ret {A} (v : A) : Chain A := fun s => (Fulfilled v, s).

Definition throw {A} (e : Error) : Chain A := fun s => (Failed e, s).

Definition never {A} : Chain A := fun s => (Never, s).

(** [p.then(k)] *)
Definition andThen {A B} (p : Chain A) (k : A -> Chain B) : Chain B :=
  fun s =>
    match p s with
    | (Fulfilled v, s') => k v s'
    | (Failed e, s') => (Failed e, s')
    | (Never, s') => (Never, s')
    end.

Definition record (a : Action) (s : Sys) : Sys :=
  mkSys (trace s ++ [a]) (logged s) (timers s) (world s).

Definition perform (env : Env) {X} (c : Call X) : Chain X :=
  fun s => (env X (length (trace s)) c, record (Did c) s).

(** [new Promise(resolve => setTimeout(resolve, ms))] *)
Definition wait (ms : Z) : Chain unit :=
  fun s => (Fulfilled tt, record (Waited ms) s).

Definition log (l : LogLine) : Chain unit :=
  fun s => (Fulfilled tt,
            mkSys (trace s) (logged s ++ [l]) (timers s) (world s)).

Definition setTimeout (ms : Z) (a : TimerAction) : Chain unit :=
  fun s => (Fulfilled tt,
            mkSys (trace s) (logged s) (timers s ++ [(ms, a)]) (world s)).

(** Code that runs inside a node-style callback: what it throws escapes to
    the event loop and never reaches the promise, which stays pending. *)
Definition inCallback {A} (p : Chain A) : Chain A :=
  fun s =>
    match p s with
    | (Failed _, s') => (Never, s')
    | r => r
    end.

(** A call whose answer arrives later through a callback: only a
    synchronous throw is seen at the place of the call. *)
Definition launch (env : Env) {X} (c : Call X) : Chain unit :=
  fun s =>
    match env X (length (trace s)) c with
    | Failed e => (Failed e, record (Did c) s)
    | _ => (Fulfilled tt, record (Did c) s)
    end.

Definition spawn (t : Task) : Chain unit :=
  fun s => (Fulfilled tt, record (Spawned t) s).

(** Static members and field assignments, run on the [world]. *)
Definition static {A} (f : Statics.World -> Statics.Result A * Statics.World)
    : Chain A :=
  fun s =>
    let '(r, w) := f (world s) in
    let s' := mkSys (trace s) (logged s) (timers s) w in
    match r with
    | Statics.Returns v => (Fulfilled v, s')
    | Statics.Throws e => (Failed e, s')
    end.

Definition assign (a : Statics.Addr)
    (f : Statics.Manager -> Statics.Manager) : Chain unit :=
  fun s => (Fulfilled tt,
            mkSys (trace s) (logged s) (timers s)
                  (Statics.updateManager a f (world s))).

Definition fresh (w : Statics.World) : Sys := mkSys [] [] [] w.

(** The requests a run issued, in order. *)
Fixpoint requests (tr : list Action) : list string :=
  match tr with
  | [] => []
  | Did (Http_request url) :: rest => url :: requests rest
  | _ :: rest => requests rest
  end.

(** The exit codes of the [process.exit] timers that have come due [ms]
    milliseconds after the run armed them. *)
Definition exitsDue (ms : Z) (s : Sys) : list Z :=
  omap (fun t : Z * TimerAction =>
          match t.2 with
          | ProcessExit code => if (t.1 <=? ms)%Z then Some code else None
          | _ => None
          end) (timers s).

(** The status the process has exited with by then, if it has. *)
Definition exitStatusAfter (ms : Z) (s : Sys) : option Z :=
  head (exitsDue ms s).

(** The error the surroundings answered action [a] with, when it was the
    [k]-th action of a run and they failed it. *)
Definition failedWith (env : Env) (k : nat) (a : Action) : option Error :=
  match a with
  | Did c => match env _ k c with Failed e => Some e | _ => None end
  | _ => None
  end.

(** A chain is orderly when, run on any state, it only appends to the
    trace, arms no [process.exit] timer, and an action the surroundings
    failed is the last one it made, the chain failing with that error. *)
Definition Orderly (env : Env) {A} (p : Chain A) : Prop :=
  ∀ s, ∃ new,
    trace (p s).2 = (trace s ++ new)%list
    ∧ (∀ ms, exitsDue ms (p s).2 = exitsDue ms s)
    ∧ (∀ k a e, new !! k = Some a →
         failedWith env (length (trace s) + k) a = Some e →
         length new = S k ∧ (p s).1 = Failed e).

Definition fulfilled {A} (o : Outcome A) : bool :=
  match o with Fulfilled _ => true | _ => false end.

(** A chain follows the scripts in [P] when, run on any state, what it
    appends to the trace is an initial part of one of them, and all of it
    when the chain fulfils. *)
Definition Scripted {A} (p : Chain A) (P : list Action → Prop) : Prop :=
  ∀ s, ∃ new script,
    trace (p s).2 = (trace s ++ new)%list
    ∧ P script
    ∧ new `prefix_of` script
    ∧ (fulfilled (p s).1 = true → new = script).

End Chain.

#[export] Instance chain_ret : MRet Chain.Chain := @Chain.ret.
#[export] Instance chain_bind : MBind Chain.Chain :=
fun A B k p => Chain.andThen p k.


(** ** Domain ownership: [verifyCaptainOwnsDomainOrThrow] *)

Module DomainVerifier.
Import Js Chain.

Definition verificationFailed : Error :=
  ApiError VERIFICATION_FAILED "Verification Failed.".

(** [identifierSuffix ? identifierSuffix : ''] *)
Definition suffixOrEmpty (identifierSuffix : option string) : string :=
  match identifierSuffix with
  | Some sfx => if falsy_string sfx then "" else sfx
  | None => ""
  end.

Definition confirmationPath (cc : CaptainConstants)
    (identifierSuffix : option string) : string :=
  captainConfirmationPath cc ++ suffixOrEmpty identifierSuffix.

Definition confirmationFile (cc : CaptainConstants) (domainName : string)
    (identifierSuffix : option string) : string :=
  captainStaticFilesDir cc ++ nginxDomainSpecificHtmlDir cc ++ "/"
  ++ domainName ++ confirmationPath cc identifierSuffix.

Definition confirmationUrl (cc : CaptainConstants) (domainName : string)
    (identifierSuffix : option string) : string :=
  "http://" ++ domainName ++ ":" ++ nginxPortNumber cc
  ++ confirmationPath cc identifierSuffix.

(** The test of the [request] callback:
    [error || !body || body !== randomUuid]. *)
Definition pollFails (randomUuid : string) (r : HttpReply) : bool :=
  bool_decide (is_Some (error r))
  || falsy_opt_string (body r)
  || strict_neq (body r) randomUuid.

(** [randomUuid] is what [uuid()] returned on entry. *)
Definition verifyCaptainOwnsDomainOrThrow (env : Env) (cc : CaptainConstants)
    (randomUuid domainName : string) (identifierSuffix : option string)
    : Chain unit :=
  _ ← perform env (Certbot_domainValidOrThrow domainName);
  _ ← perform env (Fs_outputFile
                     (confirmationFile cc domainName identifierSuffix)
                     randomUuid);
  _ ← wait 1000;
  r ← perform env (Http_request
                     (confirmationUrl cc domainName identifierSuffix));
  if pollFails randomUuid r
  then
    _ ← log (LogE ("Verification Failed for " ++ domainName));
    _ ← log (LogEError "Error        " (error r));
    _ ← log (LogEBody "body         " (body r));
    _ ← log (LogE ("randomUuid   " ++ randomUuid));
    throw verificationFailed
  else mret tt.

End DomainVerifier.

(** ** Certificates and the root domain: [enableSsl],
       [changeCaptainRootDomain] *)

Module Ssl.
Import Js Chain.

Definition captainPublicDomain (cc : CaptainConstants) (rootDomain : string)
    : string :=
  captainSubDomain cc ++ "." ++ rootDomain.



Definition reloadLoadBalancer (env : Env) : Chain unit :=
  _ ← perform env LB_rePopulateNginxConfigFile;
  _ ← log (LogD "sendReloadSignal...");
  perform env LB_sendReloadSignal.

Definition verifyDomainResolvesToDefaultServerOnHost (env : Env)
    (cc : CaptainConstants) (domainName : string) : Chain unit :=
  let url := "http://" ++ domainName ++ captainConfirmationPath cc in
  _ ← log (LogD ("Sending request to " ++ url));
  r ← perform env (Http_request url);
  failed ← inCallback
    (if bool_decide (is_Some (error r)) || falsy_opt_string (body r)
     then mret true
     else key ← perform env LB_getCaptainPublicRandomKey;
          mret (strict_neq (body r) key));
  if failed : bool
  then throw DomainVerifier.verificationFailed
  else mret tt.

Definition tooLate : Error :=
  ApiError STATUS_ERROR_GENERIC
           "SSL is enabled for root. Too late to change your mind!".

(** The host the default-server check is sent to; [randomUuid] is what
    [uuid()] returns when [preCheckForWildCard] is set. *)
Definition verificationHost (cc : CaptainConstants)
    (randomUuid requestedCustomDomain : string) : string :=
  (if preCheckForWildCard cc then randomUuid else captainSubDomain cc)
  ++ "." ++ requestedCustomDomain ++ ":" ++ nginxPortNumber cc.

Definition changeCaptainRootDomain (env : Env) (cc : CaptainConstants)
    (randomUuid requestedCustomDomain : string) : Chain unit :=
  _ ← verifyDomainResolvesToDefaultServerOnHost env cc
        (verificationHost cc randomUuid requestedCustomDomain);
  hasRootSsl ← perform env DS_getHasRootSsl;
  differs ← (if hasRootSsl : bool
             then rootDomain ← perform env DS_getRootDomain;
                  mret (negb (string_eqb rootDomain requestedCustomDomain))
             else mret false);
  _ ← (if differs : bool
       then throw tooLate
       else perform env (DS_setCustomDomain requestedCustomDomain));
  reloadLoadBalancer env.

(** The default-server check passes: the request calls back without error
    and with a body equal to the load balancer's public random key. *)
Definition defaultServerAnswers (env : Env) (url key : string) : Prop :=
  env _ 0%nat (Http_request url)
    = Fulfilled (mkHttpReply None (Some key))
  ∧ key ≠ ""
  ∧ env _ 1%nat LB_getCaptainPublicRandomKey = Fulfilled key.

End Ssl.

(** ** Self-reset: [resetSelf] *)

Module SelfReset.
Import Js Chain.

(** What can happen once [resetSelf] has returned its promise: the 2000 ms
    timer fires, and [updateService] either throws on the spot or hands back
    a promise; later that promise settles. *)
Inductive Event :=
| TimerFired (updateServiceThrows : option Error)
| UpdateServiceSettled (rejectedWith : option Error).

(** The promise [resetSelf] returned, the timer it armed, the
    [updateService] requests issued so far (service name and the image
    argument, which is [undefined]), and what escaped to the event loop. *)
Record Reset := mkReset {
  promise : Promise unit;
  armed : list (Z * TimerAction);
  updateRequests : list (string * option string);
  uncaught : list Error;
  debugLog : list string
}.

(** The body up to [return]: the executor runs at once and only arms the
    timer; it is handed [resolve] and [reject] and calls neither. *)
Definition resetSelf : Reset :=
  mkReset Pending [(2000, ResetUpdateService)] [] []
          ["Captain is resetting itself!"].

(** The timer callback calls [updateService(captainServiceName, undefined,
    ...)] and keeps the promise it gets in [promiseToIgnore]: no handler is
    attached to it, and the callback uses neither [resolve] nor [reject]. *)
Definition handle (cc : CaptainConstants) (ev : Event) (r : Reset) : Reset :=
  match ev with
  | TimerFired throws =>
      mkReset (promise r) (armed r)
              (updateRequests r ++ [(captainServiceName cc, None)])
              (match throws with
               | Some e => uncaught r ++ [e]
               | None => uncaught r
               end)
              (debugLog r)
  | UpdateServiceSettled (Some e) =>
      mkReset (promise r) (armed r) (updateRequests r)
              (uncaught r ++ [e])   (* an unhandled rejection *)
              (debugLog r)
  | UpdateServiceSettled None => r
  end.

Definition run (cc : CaptainConstants) (evs : list Event) (r : Reset)
    : Reset :=
  foldl (fun r ev => handle cc ev r) r evs.

(** [resetSelf] as a step of a chain. *)
Definition resetSelfChain : Chain unit :=
  _ ← log (LogD "Captain is resetting itself!");
  _ ← setTimeout 2000 ResetUpdateService;
  never.

End SelfReset.

(** ** Bootstrap: [initialize] *)

Module Bootstrap.
Import Js Chain.

Definition DEBUG_SALT : string := "THIS IS NOT A REAL CERTIFICATE".

Definition secretFileName (cc : CaptainConstants) : string :=
  "/run/secrets/" ++ captainSaltSecretKey cc.

(** The loop over [registries]: the last entry of type [LOCAL_REG]. *)
Fixpoint findLocalRegistry (registries : list IRegistryInfo)
    (localRegistry : option IRegistryInfo) : option IRegistryInfo :=
  match registries with
  | [] => localRegistry
  | element :: rest =>
      findLocalRegistry rest
        (match registryType element with
         | LOCAL_REG => Some element
         | REMOTE_REG => localRegistry
         end)
  end.

(** The part of [performHealthCheck] that runs before it returns. *)
Definition startHealthCheck (env : Env) (cc : CaptainConstants)
    (self : Statics.Addr) (nextUuid : string) : Chain unit :=
  rootDomain ← perform env DS_getRootDomain;
  let captainPublicDomain := captainSubDomain cc ++ "." ++ rootDomain in
  skip ← (if isDebug cc then mret true
          else custom ← perform env DS_hasCustomDomain;
               mret (negb custom));
  if skip : bool
  then
    _ ← assign self (Statics.withHealthCheckUuid nextUuid);
    setTimeout HealthMonitor.HEALTH_CHECK_INTERVAL NextHealthCheck
  else
    _ ← setTimeout HealthMonitor.TIMEOUT_HEALTH_CHECK CaptainProbeTimeout;
    _ ← launch env (Http_request ("http://" ++ captainPublicDomain
                                  ++ healthCheckEndPoint cc));
    _ ← setTimeout HealthMonitor.TIMEOUT_HEALTH_CHECK NginxProbeTimeout;
    spawn (NginxHealthProbe captainPublicDomain).

(** The chain of [then] callbacks, lines 76-241.  [freshSalt] and
    [nextUuid] are what [uuid()] returns when the code asks for it. *)
Definition bootstrap (env : Env) (cc : CaptainConstants)
    (self : Statics.Addr) (freshSalt nextUuid : string) : Chain unit :=
  (* refreshForceSslState *)
  hasForceSsl ← perform env DS_getForceSsl;
  _ ← assign self (Statics.withHasForceSsl hasForceSsl);
  myNodeId ← perform env
               (Docker_getNodeIdByServiceName (captainServiceName cc) 0);
  _ ← assign self (Statics.withMyNodeId myNodeId);
  (* self.dockerRegistry = new SelfHostedDockerRegistry(...) *)
  isManager ← perform env (Docker_isNodeManager myNodeId);
  _ ← (if negb isManager
       then throw (PlainError "Captain should only run on a manager node")
       else mret tt);
  _ ← log (LogD "Emptying generated and temp folders.");
  _ ← perform env (Fs_emptyDir (captainRootDirectoryTemp cc));
  _ ← perform env (Fs_emptyDir (captainRootDirectoryGenerated cc));
  _ ← log (LogD "Ensuring directories are available on host. Started.");
  _ ← perform env (Fs_ensureDir (letsEncryptEtcPath cc));
  _ ← perform env (Fs_ensureDir (letsEncryptLibPath cc));
  _ ← perform env (Fs_ensureDir (captainStaticFilesDir cc));
  _ ← perform env (Fs_ensureDir (perAppNginxConfigPathBase cc));
  _ ← perform env (Fs_ensureFile (baseNginxConfigPath cc));
  _ ← perform env (Fs_ensureDir (registryPathOnHost cc));
  _ ← perform env (Docker_ensureOverlayNetwork (captainNetworkName cc));
  _ ← log (LogD "Ensuring directories are available on host. Finished.");
  _ ← perform env (Docker_ensureServiceConnectedToNetwork
                     (captainServiceName cc) (captainNetworkName cc));
  _ ← perform env (Docker_ensureSecret (captainSaltSecretKey cc)
                     (if isDebug cc then DEBUG_SALT else freshSalt));
  secretHadExistedBefore ←
    perform env (Docker_ensureSecretOnService (captainServiceName cc)
                                              (captainSaltSecretKey cc));
  _ ← (if negb secretHadExistedBefore
       then
         _ ← log (LogD "I am halting here. I expect to get restarted in a few seconds due to a secret (captain salt) being updated.");
         never
       else mret tt);
  exists_ ← perform env (Fs_pathExistsSync (secretFileName cc));
  _ ← (if negb exists_
       then throw (PlainError
                     ("Secret is attached according to Docker. But file cannot be found. "
                      ++ secretFileName cc))
       else mret tt);
  secretContent ← perform env (Fs_readFileSync (secretFileName cc));
  _ ← (if falsy_string secretContent
       then throw (PlainError "Salt secret content is empty!")
       else mret tt);
  _ ← assign self (Statics.withCaptainSalt secretContent);
  salt ← static (Statics.getCaptainSalt self);
  _ ← perform env (DS_setEncryptionSalt salt);
  _ ← perform env (LB_init myNodeId);
  namespace ← perform env DS_getNameSpace;
  _ ← static (Statics.getAuthenticator namespace);
  (* new MigrateCaptainDuckDuck(dataStore, authenticator) *)
  migrationPerformed ← perform env Migrate_migrateIfNeeded;
  _ ← (if migrationPerformed : bool
       then SelfReset.resetSelfChain
       else mret tt);
  _ ← perform env (Certbot_init myNodeId);
  registries ← perform env DS_getAllRegistries;
  _ ← match findLocalRegistry registries None with
      | Some localRegistry =>
          _ ← log (LogD "Ensuring Docker Registry is running...");
          perform env (Registry_ensureDockerRegistryRunningOnThisNode
                         (registryPassword localRegistry))
      | None => mret tt
      end;
  _ ← assign self (Statics.withInited true);
  _ ← startHealthCheck env cc self nextUuid;
  log (LogD "**** Captain is initialized and ready to serve you! ****").

(** The [catch] at the end of the chain. *)
Definition fatal (e : Error) : Chain unit :=
  _ ← log (LogError e);
  setTimeout 5000 (ProcessExit 0).

Definition initialize (env : Env) (cc : CaptainConstants)
    (self : Statics.Addr) (freshSalt nextUuid : string) (s : Sys)
    : Outcome unit * Sys :=
  match bootstrap env cc self freshSalt nextUuid s with
  | (Failed e, s') => (Failed e, (fatal e s').2)
  | r => r
  end.

(** The actions of a complete bootstrap, in the order of the source.  The
    arguments are the values the surroundings supplied on the way;
    [probes] tells whether the first health check launched its probes. *)
Definition bootstrapScript (cc : CaptainConstants)
    (saltIfNotExist myNodeId salt : string)
    (localRegistryPassword : option string) (rootDomain : string)
    (probes : bool) : list Action :=
  [ Did DS_getForceSsl;
    Did (Docker_getNodeIdByServiceName (captainServiceName cc) 0);
    Did (Docker_isNodeManager myNodeId);
    Did (Fs_emptyDir (captainRootDirectoryTemp cc));
    Did (Fs_emptyDir (captainRootDirectoryGenerated cc));
    Did (Fs_ensureDir (letsEncryptEtcPath cc));
    Did (Fs_ensureDir (letsEncryptLibPath cc));
    Did (Fs_ensureDir (captainStaticFilesDir cc));
    Did (Fs_ensureDir (perAppNginxConfigPathBase cc));
    Did (Fs_ensureFile (baseNginxConfigPath cc));
    Did (Fs_ensureDir (registryPathOnHost cc));
    Did (Docker_ensureOverlayNetwork (captainNetworkName cc));
    Did (Docker_ensureServiceConnectedToNetwork
           (captainServiceName cc) (captainNetworkName cc));
    Did (Docker_ensureSecret (captainSaltSecretKey cc) saltIfNotExist);
    Did (Docker_ensureSecretOnService (captainServiceName cc)
                                      (captainSaltSecretKey cc));
    Did (Fs_pathExistsSync (secretFileName cc));
    Did (Fs_readFileSync (secretFileName cc));
    Did (DS_setEncryptionSalt salt);
    Did (LB_init myNodeId);
    Did DS_getNameSpace;
    Did Migrate_migrateIfNeeded;
    Did (Certbot_init myNodeId);
    Did DS_getAllRegistries ]
  ++ match localRegistryPassword with
     | Some password =>
         [Did (Registry_ensureDockerRegistryRunningOnThisNode password)]
     | None => []
     end
  ++ [Did DS_getRootDomain]
  ++ (if isDebug cc then [] else [Did DS_hasCustomDomain])
  ++ (if probes
      then [ Did (Http_request
                    ("http://" ++ (captainSubDomain cc ++ "." ++ rootDomain)
                     ++ healthCheckEndPoint cc));
             Spawned (NginxHealthProbe
                        (captainSubDomain cc ++ "." ++ rootDomain)%string) ]
      else []).

End Bootstrap.

(** ** Published versions: [getCaptainImageTags] *)

Module ImageTags.
Import Js Chain.

(** What [JSON.parse] produces.  [JNum] carries an integer: of a number the
    code only ever asks whether it is zero. *)
#[warnings="-register-all"]
Inductive Json :=
| JNull
| JBool (b : bool)
| JNum (n : Z)
| JStr (s : string)
| JArr (elements : list Json)
| JObj (fields : list (string * Json)).

(** [JSON.parse] itself belongs to the runtime: [None] when it throws. *)
Definition Parser := string -> option Json.

(** An own property of a parsed object; of a repeated key [JSON.parse]
    keeps the last value. *)
Fixpoint field (key : string) (fields : list (string * Json))
    (found : option Json) : option Json :=
  match fields with
  | [] => found
  | (k, v) :: rest =>
      field key rest (if string_eqb k key then Some v else found)
  end.

(** [v.key] for a parsed value: a throw on [null] ([inl]); otherwise the
    property or [undefined] ([None]).  [key] is never [length] or an index
    here, so strings and arrays answer [undefined]. *)
Definition property (key : string) (v : Json) : sum Error (option Json) :=
  match v with
  | JNull => inl (PlainError "TypeError")
  | JObj fields => inr (field key fields None)
  | _ => inr None
  end.

Definition truthy (v : option Json) : bool :=
  match v with
  | None | Some JNull => false
  | Some (JBool b) => b
  | Some (JNum n) => negb (n =? 0)%Z
  | Some (JStr s) => negb (falsy_string s)
  | Some (JArr _) | Some (JObj _) => true
  end.

(** What the promise resolves with.  [OutsideModel] marks a truthy
    [results] that is no array but has a [length] (a string, an object with
    a [length] member): the loop then depends on coercions left out here. *)
Inductive Tags :=
| TagList (tags : list (option Json))
| OutsideModel.

(** The loop [tags.push(results[idx].name)] over an array. *)
Fixpoint collectNames (results : list Json) (tags : list (option Json))
    : sum Error (list (option Json)) :=
  match results with
  | [] => inr tags
  | element :: rest =>
      match property "name" element with
      | inl e => inl e
      | inr name => collectNames rest (tags ++ [name])
      end
  end.

Definition hubUrl (cc : CaptainConstants) : string :=
  "https://hub.docker.com/v2/repositories/"
  ++ publishedNameOnDockerHub cc ++ "/tags".

Definition emptyBody : Error :=
  PlainError
    "Received empty body or no result for version list on docker hub.".

(** [JSON.parse(body).results], inside the callback. *)
Definition parsedResults (parse : Parser) (body : string)
    : Chain (option Json) :=
  match parse body with
  | None => throw (PlainError "SyntaxError")
  | Some v =>
      match property "results" v with
      | inl e => throw e
      | inr r => mret r
      end
  end.

(** The [else] branch of the callback. *)
Definition readTags (results : option Json) : Chain Tags :=
  match results with
  | Some (JArr elements) =>
      match collectNames elements [] with
      | inl e => throw e
      | inr tags => mret (TagList tags)
      end
  | Some (JStr _) => mret OutsideModel
  | Some (JObj fields) =>
      match field "length" fields None with
      | None => mret (TagList [])
      | Some _ => mret OutsideModel
      end
  | _ => mret (TagList [])
  end.

Inductive Verdict :=
| Resolve (t : Tags)
| Reject (e : Error).

Definition settle (v : Verdict) : Chain Tags :=
  match v with
  | Resolve t => mret t
  | Reject e => throw e
  end.

Definition getCaptainImageTags (env : Env) (parse : Parser)
    (cc : CaptainConstants) : Chain Tags :=
  r ← perform env (Http_request (hubUrl cc));
  verdict ← inCallback
    (if isDebug cc
     then mret (Resolve (TagList [Some (JStr "v0.0.1")]))
     else
       match error r with
       | Some e => mret (Reject e)
       | None =>
           match body r with
           | None => mret (Reject emptyBody)
           | Some b =>
               if falsy_string b then mret (Reject emptyBody)
               else
                 results ← parsedResults parse b;
                 if negb (truthy results) then mret (Reject emptyBody)
                 else
                   results' ← parsedResults parse b;
                   tags ← readTags results';
                   mret (Resolve tags)
           end
       end);
  settle verdict.

(** The [name] members of well-formed entries. *)
Definition nameOf (v : Json) : option Json :=
  match v with
  | JObj fields => field "name" fields None
  | _ => None
  end.

Definition isObject (v : Json) : bool :=
  match v with JObj _ => true | _ => false end.

End ImageTags.

(** ** Concrete runs to instantiate the properties on *)

Module Samples.
Import Js Chain.

(** A run to try it on: five cycles in which both probes time out. *)
Definition timedOutCycle : HealthMonitor.CycleInput :=
  HealthMonitor.mkCycleInput false true "captain" "example.com"
               [HealthMonitor.CaptainTimeout; HealthMonitor.NginxTimeout].

(** A process whose singleton exists and has read its salt. *)
Definition saltedWorld : Statics.World :=
  Statics.updateManager 0%nat (Statics.withCaptainSalt "s3cr3t")
    (Statics.get (Statics.boot (fun _ => None) (fun _ => "u"))).2.

Definition someDeps : JoinNode.Deps :=
  JoinNode.mkDeps "ufw disable;"
    (fun ip tok => "docker swarm join --token " ++ tok ++ " " ++ ip
                   ++ ":2377")%string.

Definition sampleConstants : CaptainConstants :=
  mkCaptainConstants false false "caprover/caprover" "captain"
    "/.well-known/captain-identifier" "80" "/nginx-shared" "/checkhealth"
    "/captain/temp" "/captain/generated" "/captain/letencrypt/etc"
    "/captain/letencrypt/lib" "/captain/generated/static"
    "/captain/nginx/conf.d" "/captain/nginx/nginx.conf"
    "/captain/registry" "captain-overlay-network" "captain-captain"
    "captain-salt".


Definition emptyWorld : Statics.World :=
  Statics.boot (fun _ => None) (fun _ => "u").

(** Surroundings in which the domain check and the file write succeed and
    the proxy serves [served] at every URL. *)
Definition servingEnv (served : option string) : Env :=
  fun X n c =>
    match c in Call X return Outcome X with
    | Certbot_domainValidOrThrow _ => Fulfilled tt
    | Fs_outputFile _ _ => Fulfilled tt
    | Http_request _ => Fulfilled (mkHttpReply None served)
    | _ => Never
    end.


(** Surroundings in which the default server answers with the public key,
    root SSL is on and the root domain is [example.com]. *)
Definition sslLockedEnv : Env :=
  fun X n c =>
    match c in Call X return Outcome X with
    | Http_request _ => Fulfilled (mkHttpReply None (Some "public-key"))
    | LB_getCaptainPublicRandomKey => Fulfilled "public-key"
    | DS_getHasRootSsl => Fulfilled true
    | DS_getRootDomain => Fulfilled "example.com"
    | DS_setCustomDomain _ => Fulfilled tt
    | LB_rePopulateNginxConfigFile => Fulfilled tt
    | LB_sendReloadSignal => Fulfilled tt
    | _ => Never
    end.

(** The double quote, and a JSON string literal without escapes. *)
Definition dquote : string :=
  String (Ascii.ascii_of_nat 34) EmptyString.

Definition quoted (text : string) : string :=
  (dquote ++ text ++ dquote)%string.

(** Two bodies as the hub could send them, shown here with ' for the
    double quote: a page of two tags,
    {'count':2,'results':[{'name':'latest'},{'name':'1.0.0'}]}, and one
    whose second entry is null, {'results':[{'name':'1.0.0'},null]}. *)
Definition tagsBody : string :=
  ("{" ++ quoted "count" ++ ":2," ++ quoted "results" ++ ":[{"
   ++ quoted "name" ++ ":" ++ quoted "latest" ++ "},{"
   ++ quoted "name" ++ ":" ++ quoted "1.0.0" ++ "}]}")%string.

Definition nullEntryBody : string :=
  ("{" ++ quoted "results" ++ ":[{" ++ quoted "name" ++ ":"
   ++ quoted "1.0.0" ++ "},null]}")%string.

(** [JSON.parse] on the bodies of the runs below: what it returns for the
    two bodies above and for the text null, and a throw for text that is
    no JSON.  No run asks it about another JSON text. *)
Definition sampleParse : ImageTags.Parser :=
  fun b =>
    if bool_decide (b = tagsBody)
    then Some (ImageTags.JObj
                 [("count", ImageTags.JNum 2);
                  ("results",
                   ImageTags.JArr
                     [ImageTags.JObj [("name", ImageTags.JStr "latest")];
                      ImageTags.JObj [("name", ImageTags.JStr "1.0.0")]])])
    else if bool_decide (b = nullEntryBody)
    then Some (ImageTags.JObj
                 [("results",
                   ImageTags.JArr
                     [ImageTags.JObj [("name", ImageTags.JStr "1.0.0")];
                      ImageTags.JNull])])
    else if bool_decide (b = "null")
    then Some ImageTags.JNull
    else None.

(** Surroundings in which the node turns out not to be a manager. *)
Definition workerNodeEnv : Env :=
  fun X n c =>
    match c in Call X return Outcome X with
    | DS_getForceSsl => Fulfilled false
    | Docker_getNodeIdByServiceName _ _ => Fulfilled "node-1"
    | Docker_isNodeManager _ => Fulfilled false
    | _ => Never
    end.

(** Surroundings in which emptying the temp directory fails. *)
Definition diskFailsEnv : Env :=
  fun X n c =>
    match c in Call X return Outcome X with
    | DS_getForceSsl => Fulfilled false
    | Docker_getNodeIdByServiceName _ _ => Fulfilled "node-1"
    | Docker_isNodeManager _ => Fulfilled true
    | Fs_emptyDir _ => Failed (ForeignError "EACCES")
    | _ => Never
    end.

End Samples.

(** ** More of the health monitor: what a cycle records and schedules *)

Module HealthCycle.
Import Js HealthMonitor.

(** [CaptainConstants.isDebug || !self.dataStore.hasCustomDomain()] *)
Definition skipped (ci : CycleInput) : bool :=
  isDebug ci || negb (hasCustomDomain ci).

(** What an event says about the self-health probe, if it is one of its
    two: the timeout says failure, the response is judged against the
    token. *)
Definition captainVerdict (token : string) (ev : ProbeEvent) : option bool :=
  match ev with
  | CaptainTimeout => Some false
  | CaptainResponse error body =>
      Some (negb (error || falsy_opt_string body || strict_neq body token))
  | _ => None
  end.

Definition nginxVerdict (ev : ProbeEvent) : option bool :=
  match ev with
  | NginxTimeout => Some false
  | NginxVerified => Some true
  | NginxVerifyFailed => Some false
  | _ => None
  end.

(** The verdict of the first event that has one. *)
Fixpoint firstVerdict (verdict : ProbeEvent -> option bool)
    (evs : list ProbeEvent) : option bool :=
  match evs with
  | [] => None
  | ev :: rest =>
      match verdict ev with
      | Some v => Some v
      | None => firstVerdict verdict rest
      end
  end.

(** The process after a cycle has called [scheduleNextHealthCheck] once:
    one more timer, one more token drawn. *)
Definition scheduledOnce (p q : Proc) : Prop :=
  nextCheckTimers q = (nextCheckTimers p ++ [HEALTH_CHECK_INTERVAL])%list
  ∧ uuidCalls q = S (uuidCalls p)
  ∧ healthCheckUuid q = uuidSource p (uuidCalls p).

(** What holds of a cycle started on [p] after any number of its events,
    beyond [cycle_inv]: the next check is scheduled when, and only when,
    both outcomes are in. *)
Definition schedule_inv (p : Proc) (st : Proc * Cycle) : Prop :=
  match captainHealth st.2, nginxHealth st.2 with
  | Some _, Some _ => scheduledOnce p st.1
  | _, _ => st.1 = p
  end.

(** A process the monitor can be in: alive with at most
    [MAX_FAIL_ALLOWED] failures counted, or ended with status 1 by the
    failure after that. *)
Definition monitored (p : Proc) : Prop :=
  (exitCode p = None
   ∧ 0 ≤ consecutiveHealthCheckFailCount p ≤ MAX_FAIL_ALLOWED)
  ∨ (exitCode p = Some 1
     ∧ consecutiveHealthCheckFailCount p = MAX_FAIL_ALLOWED + 1).

(** What a decided cycle has logged: one warning for each failed probe,
    the self-health one first, both with the count before this cycle. *)
Definition warnings_inv (dom : string) (p : Proc) (st : Proc * Cycle) : Prop :=
  match captainHealth st.2, nginxHealth st.2 with
  | Some a, Some b =>
      warnings st.1
      = (warnings p
         ++ (if a then []
             else [CaptainHealthFailed (consecutiveHealthCheckFailCount p)
                     dom])
         ++ (if b then []
             else [NginxHealthFailed (consecutiveHealthCheckFailCount p)]))%list
  | _, _ => True
  end.

End HealthCycle.

(** ** The instance's accessors, and what a chain leaves of the instance *)

Module Accessors.
Import Js Statics.

(** [getMyNodeId()] on the object at [a]; an unset node id is
    [undefined], and an empty one is as falsy. *)
Definition getMyNodeId (a : Addr) (w : World) : Result string * World :=
  let nodeId := heap w !! a ≫= myNodeId in
  if falsy_opt_string nodeId
  then let msg := "myNodeId is not set yet!!" in
       (Throws (PlainError msg), logError msg w)
  else (Returns (default "" nodeId), w).

(** [isInitialized()]: [this.inited && !this.waitUntilRestarted] *)
Definition isInitialized (a : Addr) (w : World) : bool :=
  match heap w !! a with
  | Some m => inited m && negb (waitUntilRestarted m)
  | None => false
  end.

(** [getForceSslValue()]: [!!this.hasForceSsl] *)
Definition getForceSslValue (a : Addr) (w : World) : bool :=
  default false (hasForceSsl <$> heap w !! a).

End Accessors.

Module LocalRegistry.
Import Chain.

(** [element.registryType === IRegistryTypes.LOCAL_REG] *)
Definition isLocal (element : IRegistryInfo) : bool :=
  match registryType element with
  | LOCAL_REG => true
  | REMOTE_REG => false
  end.

End LocalRegistry.

Module Outcomes.
Import Js Chain.

(** What a chain run on [s] ends with, and the state it leaves. *)
Definition wp {A} (p : Chain A) (Q : Outcome A -> Sys -> Prop) (s : Sys)
    : Prop :=
  Q (p s).1 (p s).2.

(** The singleton is the object at [self], and its fields are [m]. *)
Definition At (self : Statics.Addr) (m : Statics.Manager) (s : Sys) : Prop :=
  Statics.captainManagerInstance (world s) = Some self
  ∧ Statics.heap (world s) !! self = Some m.

(** Some action of the trace of [s] is the call [c], and the surroundings
    answered it with [v]. *)
Definition called (env : Env) (s : Sys) {X} (c : Call X) (v : X) : Prop :=
  ∃ k, trace s !! k = Some (Did c) ∧ env X k c = Fulfilled v.

End Outcomes.

Module MoreSamples.
Import Js Chain.

(** A process whose singleton has just been constructed. *)
Definition bornWorld : Statics.World :=
  (Statics.get (Statics.boot (fun _ => None) (fun _ => "u"))).2.

(** Surroundings in which every step of the bootstrap goes through: a
    manager node, the salt secret attached and readable, nothing to
    migrate, no local registry, no custom domain yet. *)
Definition readyEnv : Env :=
  fun X n c =>
    match c in Call X return Outcome X with
    | DS_getForceSsl => Fulfilled true
    | DS_getHasRootSsl => Fulfilled true
    | DS_setHasRootSsl _ => Fulfilled tt
    | DS_setUserEmailAddress _ => Fulfilled tt
    | DS_getRootDomain => Fulfilled "example.com"
    | DS_hasCustomDomain => Fulfilled false
    | DS_setCustomDomain _ => Fulfilled tt
    | DS_setEncryptionSalt _ => Fulfilled tt
    | DS_getNameSpace => Fulfilled "captain"
    | DS_getAllRegistries => Fulfilled []
    | Docker_getNodeIdByServiceName _ _ => Fulfilled "node-1"
    | Docker_isNodeManager _ => Fulfilled true
    | Docker_ensureOverlayNetwork _ => Fulfilled tt
    | Docker_ensureServiceConnectedToNetwork _ _ => Fulfilled tt
    | Docker_ensureSecret _ _ => Fulfilled tt
    | Docker_ensureSecretOnService _ _ => Fulfilled true
    | Fs_emptyDir _ => Fulfilled tt
    | Fs_ensureDir _ => Fulfilled tt
    | Fs_ensureFile _ => Fulfilled tt
    | Fs_outputFile _ _ => Fulfilled tt
    | Fs_pathExistsSync _ => Fulfilled true
    | Fs_readFileSync _ => Fulfilled "s3cr3t"
    | LB_init _ => Fulfilled tt
    | Certbot_init _ => Fulfilled tt
    | Migrate_migrateIfNeeded => Fulfilled false
    | _ => Never
    end.

End MoreSamples.

(** ** More of the node enrolment: what a session does to the remote side *)

Module JoinSession.
Import Js JoinNode.

Definition isClose (ev : Event) : bool :=
  match ev with StreamClose _ _ _ => true | _ => false end.

Definition isReady (ev : Event) : bool :=
  match ev with ConnReady => true | _ => false end.

(** The one command line the [ready] handler passes to [conn.exec]. *)
Definition joinCommandLine (d : Deps) (captainIpAddress token : string)
    : string :=
  disableFirewallCommand d ++ " "
  ++ createJoinCommand d captainIpAddress token.

End JoinSession.

(** ** More of the published versions: entries that are no objects *)

Module TagEntries.
Import Js ImageTags.

(** [results[idx]] is [null]: reading its [name] throws. *)
Definition isNull (v : Json) : bool :=
  match v with JNull => true | _ => false end.

End TagEntries.

(** ** Settings: [forceSsl], [refreshForceSslState], [getNodesInfo],
       [updateNetDataInfo], [setNginxConfig] *)

Module Admin.
Import Js.

(** [NetDataInfo] of models, as far as [updateNetDataInfo] reads it.  A
    notification channel that is not configured is [undefined]; the values
    are passed on as they are. *)
Record Smtp := mkSmtp {
  to : string;
  hostname : string;
  server : string;
  port : string;
  allowNonTls : bool;
  username : string;
  password : string
}.

Record Slack := mkSlack {
  hook : string;
  channel : string
}.

Record Telegram := mkTelegram {
  botToken : string;
  chatId : string
}.

Record PushBullet := mkPushBullet {
  apiToken : string;
  fallbackEmail : string
}.

Record NetDataParams := mkNetDataParams {
  smtp : option Smtp;
  slack : option Slack;
  telegram : option Telegram;
  pushBullet : option PushBullet
}.

Record NetDataInfo := mkNetDataInfo {
  isEnabled : bool;
  data : NetDataParams
}.

Record Volume := mkVolume {
  hostPath : string;
  containerPath : string;
  mode : option string
}.

Record EnvVar := mkEnvVar {
  key : string;
  value : string
}.

(** An element of what [dockerApi.getNodesInfo] gives; the method passes
    the elements on unread. *)
Inductive ServerDockerInfo :=
| NodeInfo (nodeId : string).

(** The two values of [CaptainConstants] only [updateNetDataInfo] reads. *)
Record NetDataConstants := mkNetDataConstants {
  netDataContainerName : string;
  netDataImageName : string
}.

(** The calls these methods make: those of the other chains, and five
    more. *)
Inductive Call : Type -> Type :=
| Core {X : Type} (c : Chain.Call X) : Call X
| DS_setForceSsl (isEnabled : bool) : Call unit
| DS_setNetDataInfo (netDataInfo : NetDataInfo) : Call unit
| DS_setNginxConfig (baseConfig captainConfig : string) : Call unit
| Docker_ensureContainerStoppedAndRemoved (container network : string)
    : Call unit
| Docker_createStickyContainer (container image : string)
    (vols : list Volume) (network : string) (envVars : list EnvVar)
    (capabilities : list string) : Call unit
| Docker_getNodesInfo : Call (option (list ServerDockerInfo)).

Inductive Action :=
| Did {X : Type} (c : Call X).

Definition Env := forall X : Type, nat -> Call X -> Chain.Outcome X.

Record Sys := mkSys {
  trace : list Action;
  logged : list Chain.LogLine;
  timers : list (Z * Chain.TimerAction);
  world : Statics.World
}.

Definition Chain (A : Type) := Sys -> Chain.Outcome A * Sys.

Definition ret {A} (v : A) : Chain A := fun s => (Chain.Fulfilled v, s).

Definition throw {A} (e : Error) : Chain A := fun s => (Chain.Failed e, s).

Definition never {A} : Chain A := fun s => (Chain.Never, s).

(** [p.then(k)] *)
Definition andThen {A B} (p : Chain A) (k : A -> Chain B) : Chain B :=
  fun s =>
    match p s with
    | (Chain.Fulfilled v, s') => k v s'
    | (Chain.Failed e, s') => (Chain.Failed e, s')
    | (Chain.Never, s') => (Chain.Never, s')
    end.

Definition perform (env : Env) {X} (c : Call X) : Chain X :=
  fun s => (env X (length (trace s)) c,
            mkSys (trace s ++ [Did c]) (logged s) (timers s) (world s)).

Definition log (l : Chain.LogLine) : Chain unit :=
  fun s => (Chain.Fulfilled tt,
            mkSys (trace s) (logged s ++ [l]) (timers s) (world s)).

Definition setTimeout (ms : Z) (a : Chain.TimerAction) : Chain unit :=
  fun s => (Chain.Fulfilled tt,
            mkSys (trace s) (logged s) (timers s ++ [(ms, a)]) (world s)).

Definition assign (a : Statics.Addr)
    (f : Statics.Manager -> Statics.Manager) : Chain unit :=
  fun s => (Chain.Fulfilled tt,
            mkSys (trace s) (logged s) (timers s)
                  (Statics.updateManager a f (world s))).

(** A call whose promise is dropped: the callback returns [undefined], so
    what becomes of that promise is not seen. *)
Definition dropped {A} (p : Chain A) : Chain unit :=
  fun s => (Chain.Fulfilled tt, (p s).2).

Definition fresh (w : Statics.World) : Sys := mkSys [] [] [] w.

End Admin.

#[export] Instance admin_ret : MRet Admin.Chain := @Admin.ret.
#[export] Instance admin_bind : MBind Admin.Chain :=
fun A B k p => Admin.andThen p k.

Module Settings.
Import Js Admin.

(** [refreshForceSslState()] of the object at [self] *)
Definition refreshForceSslState (env : Env) (self : Statics.Addr)
    : Chain unit :=
  hasForceSsl ← perform env (Core Chain.DS_getForceSsl);
  assign self (Statics.withHasForceSsl hasForceSsl).

Definition rootSslFirst : Error :=
  ApiError STATUS_ERROR_GENERIC
    "You first need to enable SSL on the root domain before forcing it.".

Definition forceSsl (env : Env) (self : Statics.Addr) (isEnabled : bool)
    : Chain unit :=
  hasRootSsl ← perform env (Core Chain.DS_getHasRootSsl);
  _ ← (if negb hasRootSsl
       then throw rootSslFirst
       else perform env (DS_setForceSsl isEnabled));
  refreshForceSslState env self.

Definition noClusterNode : Error :=
  ApiError STATUS_ERROR_GENERIC "No cluster node was found!".

(** [!data || !data.length] *)
Definition getNodesInfo (env : Env) : Chain (list ServerDockerInfo) :=
  data ← perform env Docker_getNodesInfo;
  match data with
  | None => throw noClusterNode
  | Some nodes =>
      if (length nodes =? 0)%nat then throw noClusterNode else mret nodes
  end.

Definition netDataVolumes : list Volume :=
  [ mkVolume "/proc" "/host/proc" (Some "ro");
    mkVolume "/sys" "/host/sys" (Some "ro");
    mkVolume "/var/run/docker.sock" "/var/run/docker.sock" None ].

(** The [envVars.push] calls, in order. *)
Definition netDataEnvVars (params : NetDataParams) : list EnvVar :=
  (match smtp params with
   | Some m =>
       [ mkEnvVar "SSMTP_TO" (to m);
         mkEnvVar "SSMTP_HOSTNAME" (hostname m);
         mkEnvVar "SSMTP_SERVER" (server m);
         mkEnvVar "SSMTP_PORT" (port m);
         mkEnvVar "SSMTP_TLS" (if allowNonTls m then "NO" else "YES");
         mkEnvVar "SSMTP_USER" (username m);
         mkEnvVar "SSMTP_PASS" (password m) ]
   | None => []
   end)
  ++ (match slack params with
      | Some k =>
          [ mkEnvVar "SLACK_WEBHOOK_URL" (hook k);
            mkEnvVar "SLACK_CHANNEL" (channel k) ]
      | None => []
      end)
  ++ (match telegram params with
      | Some t =>
          [ mkEnvVar "TELEGRAM_BOT_TOKEN" (botToken t);
            mkEnvVar "TELEGRAM_CHAT_ID" (chatId t) ]
      | None => []
      end)
  ++ (match pushBullet params with
      | Some p =>
          [ mkEnvVar "PUSHBULLET_ACCESS_TOKEN" (apiToken p);
            mkEnvVar "PUSHBULLET_DEFAULT_EMAIL" (fallbackEmail p) ]
      | None => []
      end).

Definition removeNetData (cc : Chain.CaptainConstants)
    (nc : NetDataConstants) : Call unit :=
  Docker_ensureContainerStoppedAndRemoved (netDataContainerName nc)
                                          (Chain.captainNetworkName cc).

Definition createNetData (cc : Chain.CaptainConstants)
    (nc : NetDataConstants) (netDataInfo : NetDataInfo) : Call unit :=
  Docker_createStickyContainer (netDataContainerName nc)
    (netDataImageName nc) netDataVolumes (Chain.captainNetworkName cc)
    (netDataEnvVars (data netDataInfo)) ["SYS_PTRACE"].

Definition updateNetDataInfo (env : Env) (cc : Chain.CaptainConstants)
    (nc : NetDataConstants) (netDataInfo : NetDataInfo) : Chain unit :=
  _ ← perform env (removeNetData cc nc);
  _ ← (if isEnabled netDataInfo
       then perform env (createNetData cc nc netDataInfo)
       else mret tt);
  perform env (DS_setNetDataInfo netDataInfo).

(** The calls of a complete [updateNetDataInfo], in the order of the
    source. *)
Definition updateNetDataScript (cc : Chain.CaptainConstants)
    (nc : NetDataConstants) (netDataInfo : NetDataInfo) : list Action :=
  [Did (removeNetData cc nc)]
  ++ (if isEnabled netDataInfo then [Did (createNetData cc nc netDataInfo)]
      else [])
  ++ [Did (DS_setNetDataInfo netDataInfo)].

(** The call that stores the settings. *)
Definition isStore (a : Action) : bool :=
  match a with
  | Did (DS_setNetDataInfo _) => true
  | _ => false
  end.

(** [resetSelf()], as in [SelfReset]: a log line, the timer, and a promise
    that nothing settles. *)
Definition resetSelf : Chain unit :=
  _ ← log (Chain.LogD "Captain is resetting itself!");
  _ ← setTimeout 2000 Chain.ResetUpdateService;
  never.

(** The last callback calls [self.resetSelf()] without returning it. *)
Definition setNginxConfig (env : Env) (baseConfig captainConfig : string)
    : Chain unit :=
  _ ← perform env (DS_setNginxConfig baseConfig captainConfig);
  dropped resetSelf.

(** Surroundings in which the data store holds [stored] as the force-SSL
    flag whatever it is asked to store, and root SSL is on. *)
Definition stubbornStore (stored : bool) : Env :=
  fun X n c =>
    match c in Call X return Chain.Outcome X with
    | Core c' =>
        match c' in Chain.Call T return Chain.Outcome T with
        | Chain.DS_getHasRootSsl => Chain.Fulfilled true
        | Chain.DS_getForceSsl => Chain.Fulfilled stored
        | _ => Chain.Never
        end
    | DS_setForceSsl _ => Chain.Fulfilled tt
    | DS_setNetDataInfo _ => Chain.Fulfilled tt
    | DS_setNginxConfig _ _ => Chain.Fulfilled tt
    | Docker_ensureContainerStoppedAndRemoved _ _ => Chain.Fulfilled tt
    | Docker_createStickyContainer _ _ _ _ _ _ => Chain.Fulfilled tt
    | Docker_getNodesInfo => Chain.Fulfilled (Some [NodeInfo "node-1"])
    end.

(** Surroundings in which root SSL is off. *)
Definition rootSslOff : Env :=
  fun X n c =>
    match c in Call X return Chain.Outcome X with
    | Core c' =>
        match c' in Chain.Call T return Chain.Outcome T with
        | Chain.DS_getHasRootSsl => Chain.Fulfilled false
        | _ => Chain.Never
        end
    | _ => Chain.Never
    end.

Definition sampleNetData : NetDataConstants :=
  mkNetDataConstants "captain-netdata" "titpetric/netdata:1.8".

End Settings.

(** * Properties *)

(** Unfolds a chain run on a state into the case analysis on the answers. *)
Ltac chain_run :=
  unfold mbind, chain_bind, Chain.andThen, Chain.perform, Chain.launch,
    Chain.wait, Chain.log, Chain.setTimeout, Chain.spawn, Chain.assign,
    Chain.static, Chain.inCallback, mret, chain_ret, Chain.ret, Chain.throw,
    Chain.never, Chain.record;
  cbn.

(** ** Orderly chains *)

Module ChainFacts.
Import Js Chain.

Section Orderly.
Variable env : Env.

Lemma orderly_silent {A} (p : Chain A) :
  (∀ s, trace (p s).2 = trace s ∧ ∀ ms, exitsDue ms (p s).2 = exitsDue ms s) →
  Orderly env p.
Proof.
  intros H s. exists []. destruct (H s) as [Ht Hx].
  rewrite app_nil_r. split; [done |]. split; [done |].
  intros k a e Hk. by rewrite lookup_nil in Hk.
Qed.

Lemma orderly_ret {A} (v : A) : Orderly env (mret v).
Proof. by apply orderly_silent. Qed.

Lemma orderly_throw {A} (e : Error) : Orderly env (@throw A e).
Proof. by apply orderly_silent. Qed.

Lemma orderly_never {A} : Orderly env (@never A).
Proof. by apply orderly_silent. Qed.

Lemma orderly_log l : Orderly env (log l).
Proof. by apply orderly_silent. Qed.

Lemma orderly_assign a f : Orderly env (assign a f).
Proof. by apply orderly_silent. Qed.

Lemma orderly_static {A}
    (f : Statics.World → Statics.Result A * Statics.World) :
  Orderly env (static f).
Proof.
  apply orderly_silent. intros s. unfold static.
  destruct (f (world s)) as [[v|e] w']; done.
Qed.

Lemma orderly_setTimeout ms a :
  (∀ code, a ≠ ProcessExit code) → Orderly env (setTimeout ms a).
Proof.
  intros Ha. apply orderly_silent. intros s. split; [done |].
  intros t. unfold exitsDue, setTimeout; cbn.
  rewrite omap_app; cbn. destruct a; try (by rewrite app_nil_r).
  by destruct (Ha code).
Qed.

Lemma orderly_one {A} (p : Chain A) (a : Action) :
  (∀ s, (p s).2 = record a s) →
  (∀ s e, failedWith env (length (trace s)) a = Some e →
          (p s).1 = Failed e) →
  Orderly env p.
Proof.
  intros Hst Hfail s. exists [a]. rewrite Hst.
  split; [done |]. split; [done |].
  intros k b e Hk Hf.
  destruct k as [|k]; [|by rewrite lookup_cons, lookup_nil in Hk].
  cbn in Hk. injection Hk as <-. split; [done |].
  apply Hfail. by rewrite Nat.add_0_r in Hf.
Qed.

Lemma orderly_perform {X} (c : Call X) : Orderly env (perform env c).
Proof.
  apply (orderly_one _ (Did c)); [done |].
  intros s e. unfold failedWith, perform; cbn.
  by destruct (env X (length (trace s)) c); intros [= ->].
Qed.

Lemma orderly_launch {X} (c : Call X) : Orderly env (launch env c).
Proof.
  apply (orderly_one _ (Did c)).
  - intros s. unfold launch. by destruct (env X _ c).
  - intros s e. unfold failedWith, launch; cbn.
    by destruct (env X (length (trace s)) c); intros [= ->].
Qed.

Lemma orderly_wait ms : Orderly env (wait ms).
Proof. by apply (orderly_one _ (Waited ms)). Qed.

Lemma orderly_spawn t : Orderly env (spawn t).
Proof. by apply (orderly_one _ (Spawned t)). Qed.

Lemma orderly_bind {A B} (p : Chain A) (k : A → Chain B) :
  Orderly env p → (∀ v, Orderly env (k v)) → Orderly env (p ≫= k).
Proof.
  intros Hp Hk s. destruct (Hp s) as (new1 & Ht1 & Hx1 & Hf1).
  unfold mbind, chain_bind, andThen.
  destruct (p s) as [[v|e|] s1] eqn:Hps; cbn in *;
    [|exists new1; split; [done |]; split; [done |];
      intros j a e' Hj Hfail; destruct (Hf1 _ _ _ Hj Hfail) as [Hlen Hres];
      split; [done | congruence] ..].
  destruct (Hk v s1) as (new2 & Ht2 & Hx2 & Hf2).
  exists (new1 ++ new2)%list.
  split; [by rewrite Ht2, Ht1, app_assoc |].
  split; [intros ms; by rewrite Hx2, Hx1 |].
  intros j a e Hj Hfail.
  destruct (decide (j < length new1)%nat) as [Hlt|Hge].
  - rewrite lookup_app_l in Hj by done.
    by destruct (Hf1 _ _ _ Hj Hfail).
  - rewrite lookup_app_r in Hj by lia.
    assert (failedWith env (length (trace s1) + (j - length new1)) a
            = Some e) as Hfail'.
    { rewrite Ht1, length_app.
      by replace (length (trace s) + length new1 + (j - length new1))%nat
        with (length (trace s) + j)%nat by lia. }
    destruct (Hf2 _ _ _ Hj Hfail') as [Hlen Hres].
    split; [rewrite length_app, Hlen; lia | exact Hres].
Qed.

Lemma orderly_if {A} (b : bool) (p q : Chain A) :
  Orderly env p → Orderly env q → Orderly env (if b then p else q).
Proof. by destruct b. Qed.

End Orderly.

Section Scripted.

Lemma scripted_silent {A} (p : Chain A) :
  (∀ s, trace (p s).2 = trace s) → Scripted p (λ sc, sc = []).
Proof.
  intros H s. exists [], []. by rewrite H, app_nil_r.
Qed.

Lemma scripted_one {A} (p : Chain A) (a : Action) :
  (∀ s, (p s).2 = record a s) → Scripted p (λ sc, sc = [a]).
Proof. intros H s. exists [a], [a]. by rewrite H. Qed.

Lemma scripted_weaken {A} (p : Chain A) (P Q : list Action → Prop) :
  Scripted p P → (∀ sc, P sc → Q sc) → Scripted p Q.
Proof.
  intros Hp HPQ s. destruct (Hp s) as (new & sc & Ht & HP & Hpre & Hful).
  exists new, sc. auto.
Qed.

Lemma scripted_bind {A B} `{Inhabited A} (p : Chain A) (k : A → Chain B)
    (P1 : list Action → Prop) (P2 : A → list Action → Prop) :
  Scripted p P1 → (∀ v, Scripted (k v) (P2 v)) →
  Scripted (p ≫= k)
    (λ sc, ∃ sc1 v sc2, P1 sc1 ∧ P2 v sc2 ∧ sc = (sc1 ++ sc2)%list).
Proof.
  intros Hp Hk s.
  destruct (Hp s) as (new1 & sc1 & Ht1 & HP1 & Hpre1 & Hful1).
  unfold mbind, chain_bind, andThen.
  destruct (p s) as [[v|e|] s1] eqn:Hps; cbn in *.
  - destruct (Hk v s1) as (new2 & sc2 & Ht2 & HP2 & Hpre2 & Hful2).
    rewrite Hful1 in * by done.
    exists (sc1 ++ new2)%list, (sc1 ++ sc2)%list.
    split; [by rewrite Ht2, Ht1, app_assoc |].
    split; [by exists sc1, v, sc2 |].
    split; [by apply prefix_app |].
    intros Hf. by rewrite Hful2.
  - destruct (Hk inhabitant s) as (_ & sc2 & _ & HP2 & _).
    exists new1, (sc1 ++ sc2)%list.
    split; [done |]. split; [by exists sc1, inhabitant, sc2 |].
    split; [by apply prefix_app_r | done].
  - destruct (Hk inhabitant s) as (_ & sc2 & _ & HP2 & _).
    exists new1, (sc1 ++ sc2)%list.
    split; [done |]. split; [by exists sc1, inhabitant, sc2 |].
    split; [by apply prefix_app_r | done].
Qed.

Lemma scripted_if {A} (b : bool) (p q : Chain A) P :
  Scripted p P → Scripted q P → Scripted (if b then p else q) P.
Proof. by destruct b. Qed.

Lemma scripted_if_or {A} (b : bool) (p q : Chain A) P Q :
  Scripted p P → Scripted q Q →
  Scripted (if b then p else q) (λ sc, P sc ∨ Q sc).
Proof.
  intros Hp Hq. destruct b; eapply scripted_weaken; eauto.
Qed.

Lemma scripted_option_or {A X} (o : option X) (p : X → Chain A)
    (q : Chain A) P Q :
  (∀ x, Scripted (p x) (P x)) → Scripted q Q →
  Scripted (match o with Some x => p x | None => q end)
    (λ sc, (∃ x, P x sc) ∨ Q sc).
Proof.
  intros Hp Hq. destruct o as [x|]; eapply scripted_weaken; eauto.
Qed.

Lemma scripted_ret {A} (v : A) : Scripted (mret v) (λ sc, sc = []).
Proof. by apply scripted_silent. Qed.

Lemma scripted_throw {A} (e : Error) : Scripted (@throw A e) (λ sc, sc = []).
Proof. by apply scripted_silent. Qed.

Lemma scripted_never {A} : Scripted (@never A) (λ sc, sc = []).
Proof. by apply scripted_silent. Qed.

Lemma scripted_log l : Scripted (log l) (λ sc, sc = []).
Proof. by apply scripted_silent. Qed.

Lemma scripted_assign a f : Scripted (assign a f) (λ sc, sc = []).
Proof. by apply scripted_silent. Qed.

Lemma scripted_setTimeout ms a : Scripted (setTimeout ms a) (λ sc, sc = []).
Proof. by apply scripted_silent. Qed.

Lemma scripted_static {A}
    (f : Statics.World → Statics.Result A * Statics.World) :
  Scripted (static f) (λ sc, sc = []).
Proof.
  apply scripted_silent. intros s. unfold static.
  by destruct (f (world s)) as [[v|e] w'].
Qed.

Lemma scripted_perform env {X} (c : Call X) :
  Scripted (perform env c) (λ sc, sc = [Did c]).
Proof. by apply scripted_one. Qed.

Lemma scripted_launch env {X} (c : Call X) :
  Scripted (launch env c) (λ sc, sc = [Did c]).
Proof.
  apply scripted_one. intros s. unfold launch. by destruct (env X _ c).
Qed.

Lemma scripted_wait ms : Scripted (wait ms) (λ sc, sc = [Waited ms]).
Proof. by apply scripted_one. Qed.

Lemma scripted_spawn t : Scripted (spawn t) (λ sc, sc = [Spawned t]).
Proof. by apply scripted_one. Qed.

End Scripted.

End ChainFacts.

(** ** The health monitor *)

Module HealthMonitorFacts.
Import Js HealthMonitor Samples.

Lemma scheduleIfNecessary_undecided dom c p :
  captainHealth c = None ∨ nginxHealth c = None →
  scheduleIfNecessary dom c p = p.
Proof.
  unfold scheduleIfNecessary.
  intros [H | H]; rewrite H; [done |].
  by destruct (captainHealth c).
Qed.

Lemma scheduleIfNecessary_decided dom c p a b :
  captainHealth c = Some a → nginxHealth c = Some b →
  exitCode p = None →
  let p' := scheduleIfNecessary dom c p in
  consecutiveHealthCheckFailCount p'
    = counted a b (consecutiveHealthCheckFailCount p)
  ∧ exitCode p' = exitOf (counted a b (consecutiveHealthCheckFailCount p)).
Proof.
  intros Ha Hb Hx. unfold scheduleIfNecessary, counted, exitOf.
  rewrite Ha, Hb.
  destruct a, b; cbn -[Z.ltb Z.add]; repeat case_match; cbn; auto.
Qed.

Lemma onCaptainHealth_inv dom p c ok :
  exitCode p = None → captainHealth c = None → cycle_inv p (p, c) →
  cycle_inv p (onCaptainHealth dom ok (p, c)).
Proof.
  intros Hx Hch (_ & Hn & _). unfold onCaptainHealth, cycle_inv.
  cbn [fst snd captainHealth nginxHealth captainCallbackCalled
       nginxCallbackCalled] in *.
  repeat split; [done |].
  destruct (nginxHealth c) as [b|] eqn:Hb.
  - by apply scheduleIfNecessary_decided.
  - apply scheduleIfNecessary_undecided; auto.
Qed.

Lemma onNginxHealth_inv dom p c ok :
  exitCode p = None → nginxHealth c = None → cycle_inv p (p, c) →
  cycle_inv p (onNginxHealth dom ok (p, c)).
Proof.
  intros Hx Hnh (Hc & _ & _). unfold onNginxHealth, cycle_inv.
  cbn [fst snd captainHealth nginxHealth captainCallbackCalled
       nginxCallbackCalled] in *.
  repeat split; [done |].
  destruct (captainHealth c) as [a|] eqn:Ha.
  - by apply scheduleIfNecessary_decided.
  - apply scheduleIfNecessary_undecided; auto.
Qed.

Lemma handle_inv dom p ev st :
  exitCode p = None → cycle_inv p st → cycle_inv p (handle dom ev st).
Proof.
  intros Hx Hinv. unfold handle.
  destruct (exitCode st.1) eqn:Hq; [done |].
  destruct st as [q c]. pose proof Hinv as (Hc & Hn & Hd). cbn in *.
  destruct ev;
    (destruct (captainHealth c) as [a|] eqn:Ha; rewrite Hc; cbn; [done |])
    || (destruct (nginxHealth c) as [b|] eqn:Hb; rewrite Hn; cbn; [done |]);
    (assert (q = p) as -> by (by destruct (captainHealth c)));
    repeat case_match;
    auto using onCaptainHealth_inv, onNginxHealth_inv.
Qed.

Lemma run_events_inv dom p evs st :
  exitCode p = None → cycle_inv p st → cycle_inv p (run_events dom evs st).
Proof.
  intros Hx. revert st. unfold run_events.
  induction evs as [|ev evs IH]; intros st Hinv; cbn; [done |].
  apply IH. by apply handle_inv.
Qed.

(** A decided cycle moves the counter as [counted] says, and ends the
    process exactly when the new count exceeds the allowance. *)
Lemma performHealthCheck_decided ci p a b :
  exitCode p = None → decided ci p = Some (a, b) →
  let p' := (performHealthCheck ci p).1 in
  consecutiveHealthCheckFailCount p'
    = counted a b (consecutiveHealthCheckFailCount p)
  ∧ exitCode p' = exitOf (counted a b (consecutiveHealthCheckFailCount p)).
Proof.
  intros Hx. unfold decided, performHealthCheck. rewrite Hx.
  destruct (isDebug ci || negb (hasCustomDomain ci)); [done |].
  pose proof (run_events_inv (captainPublicDomain ci) (drawVerifierUuid p)
                (events ci) (drawVerifierUuid p, newCycle) Hx) as Hinv.
  destruct Hinv as (_ & _ & Hd); [by repeat split |].
  destruct (run_events _ _ _) as [q c]; cbn in *.
  destruct (captainHealth c), (nginxHealth c); try done.
  by intros [= -> ->].
Qed.

Lemma failed_streak cis : ∀ p,
  exitCode p = None →
  all_decided_failed cis p = true →
  0 ≤ consecutiveHealthCheckFailCount p →
  let q := run_cycles cis p in
  let n := consecutiveHealthCheckFailCount p + Z.of_nat (length cis) in
  (n ≤ MAX_FAIL_ALLOWED →
     exitCode q = None ∧ consecutiveHealthCheckFailCount q = n)
  ∧ (n = MAX_FAIL_ALLOWED + 1 → cis ≠ [] → exitCode q = Some 1).
Proof.
  induction cis as [|ci cis IH]; intros p Hx Hall Hpos; cbn zeta.
  - cbn. split; [intros _; split; [done | lia] | done].
  - cbn [all_decided_failed] in Hall.
    apply andb_prop in Hall as [Hf Hall].
    unfold decided_failed in Hf.
    destruct (decided ci p) as [[a b]|] eqn:Hd; [|done].
    destruct (performHealthCheck_decided ci p a b Hx Hd) as [Hcnt Hexit].
    assert (counted a b (consecutiveHealthCheckFailCount p)
            = consecutiveHealthCheckFailCount p + 1) as Hc.
    { unfold counted. by destruct (a && b). }
    rewrite Hc in Hcnt, Hexit. unfold exitOf, MAX_FAIL_ALLOWED in *.
    cbn [run_cycles length].
    destruct (4 <? consecutiveHealthCheckFailCount p + 1)%Z eqn:Hlt.
    + apply Z.ltb_lt in Hlt. split; [lia |].
      intros Hn _. destruct cis as [|ci' cis]; [done | cbn [length] in Hn; lia].
    + apply Z.ltb_ge in Hlt.
      specialize (IH _ Hexit Hall). rewrite Hcnt in IH.
      destruct IH as [IH1 IH2]; [lia |].
      split.
      * intros Hn. destruct IH1 as [-> ->]; [lia |]. split; [done | lia].
      * intros Hn _. apply IH2; [lia |].
        destruct cis; [cbn [length] in Hn; lia | done].
Qed.

(** C1.  Five decided cycles in a row with a failed probe, counted from a
    zero counter (a fresh process, or right after a fully successful
    cycle), end the process with status 1, and no fewer do: after k < 5 of
    them the process is alive with the counter at k.  A decided cycle in
    which both probes succeed leaves the counter at zero and the process
    alive, whatever the counter was. *)
Theorem five_failed_cycles_exit (p : Proc) (cis : list CycleInput) :
  exitCode p = None →
  consecutiveHealthCheckFailCount p = 0 →
  all_decided_failed cis p = true →
  ((length cis < 5)%nat →
     exitCode (run_cycles cis p) = None
     ∧ consecutiveHealthCheckFailCount (run_cycles cis p)
       = Z.of_nat (length cis))
  ∧ (length cis = 5%nat → exitCode (run_cycles cis p) = Some 1)
  ∧ (∀ q ci, exitCode q = None → decided_healthy ci q = true →
       consecutiveHealthCheckFailCount (performHealthCheck ci q).1 = 0
       ∧ exitCode (performHealthCheck ci q).1 = None).
Proof.
  intros Hx H0 Hall.
  destruct (failed_streak cis p Hx Hall) as [Hlow Hhit]; [lia |].
  rewrite H0 in Hlow, Hhit. unfold MAX_FAIL_ALLOWED in *.
  split; [|split].
  - intros Hlen. destruct Hlow as [-> ->]; [lia |]. split; [done | lia].
  - intros Hlen. apply Hhit; [lia |]. by destruct cis.
  - intros q ci Hq Hh. unfold decided_healthy in Hh.
    destruct (decided ci q) as [[a b]|] eqn:Hd; [|done].
    destruct (performHealthCheck_decided ci q a b Hq Hd) as [-> ->].
    unfold counted. by rewrite Hh.
Qed.

Lemma five_failed_cycles_exit_witness :
  exitCode (run_cycles (replicate 5 timedOutCycle) (initial (fun _ => "t")))
  = Some 1.
Proof.
  apply (five_failed_cycles_exit (initial (fun _ => "t"))
           (replicate 5 timedOutCycle));
    reflexivity.
Defined.

End HealthMonitorFacts.

(** ** The static members *)

Module StaticsFacts.
Import Js Statics Samples.

Lemma get_existing w a :
  captainManagerInstance w = Some a → get w = (Returns a, w).
Proof. intros H. unfold get. by rewrite H. Qed.

Lemma get_returns_sets w a :
  (get w).1 = Returns a → captainManagerInstance (get w).2 = Some a.
Proof.
  unfold get. destruct (captainManagerInstance w) as [b|] eqn:Hi; cbn.
  - by intros [= ->].
  - unfold construct. destruct (constructorThrows w _); cbn; [done |].
    by intros [= ->].
Qed.

Lemma get_many_existing n : ∀ w a,
  captainManagerInstance w = Some a →
  get_many n w = (replicate n (Returns a), w).
Proof.
  induction n as [|n IH]; intros w a Hi; cbn; [done |].
  rewrite (get_existing w a Hi), (IH w a Hi). done.
Qed.

Lemma getCaptainSalt_available a w salt :
  captainSalt <$> heap w !! a = Some salt → salt ≠ "" →
  getCaptainSalt a w = (Returns salt, w).
Proof.
  intros Hs Hne. unfold getCaptainSalt. rewrite Hs; cbn.
  unfold falsy_string. by rewrite bool_decide_eq_false_2.
Qed.

Lemma getCaptainSalt_missing a w :
  captainSalt <$> heap w !! a = Some "" →
  getCaptainSalt a w
  = (Throws (PlainError "Captain Salt is not set yet!!"),
     logError "Captain Salt is not set yet!!" w).
Proof. intros Hs. unfold getCaptainSalt. by rewrite Hs. Qed.

Lemma cacheRead_stored salt ns w :
  cacheRead ns (cacheStoreNew salt ns w)
  = Some (Own (mkAuthenticator (nextAddr w) salt ns)).
Proof. unfold cacheRead, cacheStoreNew; cbn. by rewrite lookup_insert_eq. Qed.

Lemma getAuthenticator_cached ns w slot :
  ns ≠ "" → cacheRead ns w = Some slot →
  getAuthenticator ns w = (Returns (Some slot), w).
Proof.
  intros Hne Hc. unfold getAuthenticator, falsy_string.
  rewrite bool_decide_eq_false_2 by done. by rewrite Hc.
Qed.

(** C9.  Once a call of [get] has returned an instance, every later call
    returns that same instance and the constructor does not run again; when
    that call was the first to store an instance it constructed it, so in a
    process that had constructed none, exactly this one is ever
    constructed. *)
Theorem get_returns_the_one_instance (w : World) (a : Addr) (n : nat) :
  (get w).1 = Returns a →
  (get_many n (get w).2).1 = replicate n (Returns a)
  ∧ managersConstructed (get_many n (get w).2).2
    = managersConstructed (get w).2
  ∧ constructorRuns (get_many n (get w).2).2 = constructorRuns (get w).2
  ∧ (captainManagerInstance w = None →
     managersConstructed (get w).2 = (managersConstructed w ++ [a])%list).
Proof.
  intros Hret.
  rewrite (get_many_existing n _ a (get_returns_sets w a Hret)); cbn.
  repeat split.
  intros Hnone. revert Hret. unfold get. rewrite Hnone.
  unfold construct. destruct (constructorThrows w _); cbn; [done |].
  by intros [= <-].
Qed.

Lemma get_returns_the_one_instance_witness :
  (get_many 3 (get (boot (fun _ => None) (fun _ => "u"))).2).1
  = replicate 3 (Returns 0%nat)
  ∧ managersConstructed
      (get_many 3 (get (boot (fun _ => None) (fun _ => "u"))).2).2
    = [0%nat].
Proof.
  destruct (get_returns_the_one_instance
              (boot (fun _ => None) (fun _ => "u")) 0%nat 3 eq_refl)
    as (Hsame & Hcons & _ & Hfirst).
  split; [exact Hsame |].
  rewrite Hcons. exact (Hfirst eq_refl).
Defined.

Lemma getAuthenticator_miss ns salt w :
  ns ≠ "" → salt ≠ "" → instanceSalt w = Some salt →
  cacheRead ns w = None →
  getAuthenticator ns w
  = (Returns (Some (Own (mkAuthenticator (nextAddr w) salt ns))),
     cacheStoreNew salt ns w).
Proof.
  intros Hne Hsne Hsalt Hc. unfold instanceSalt in Hsalt.
  destruct (captainManagerInstance w) as [a|] eqn:Hi; [|done].
  cbn in Hsalt.
  unfold getAuthenticator at 1. unfold falsy_string at 1.
  rewrite bool_decide_eq_false_2 by done. rewrite Hc.
  rewrite (get_existing w a Hi).
  rewrite (getCaptainSalt_available a w salt Hsalt Hsne).
  unfold falsy_string. rewrite bool_decide_eq_false_2 by done.
  by rewrite cacheRead_stored.
Qed.

Lemma cacheCoherent_stored ns salt w :
  instanceSalt w = Some salt → cacheCoherent w →
  cacheCoherent (cacheStoreNew salt ns w).
Proof.
  intros Hsalt Hco ns' a. unfold cacheStoreNew; cbn.
  destruct (decide (ns = ns')) as [<-|Hne].
  - rewrite lookup_insert_eq. by intros [= <-].
  - rewrite lookup_insert_ne by done. apply Hco.
Qed.

(** C2, as the code has it.  An empty namespace is refused with a
    not-authorized error.  For a non-empty namespace that is not cached,
    while the salt is not available the call throws the error of
    [getCaptainSalt] ("Captain Salt is not set yet!!") and caches nothing:
    so when the singleton exists with an empty salt, and so when it does
    not exist yet and this call constructs it; when that construction
    throws, the call throws its error and caches nothing.  Once the salt
    is set, a call returns a value, a second call with the same namespace
    returns that same value and changes nothing, the two calls together
    construct at most one issuer, on a cache miss the value is the issuer
    newly constructed from the salt and the namespace, and for a
    namespace that names no member of [Object.prototype] the value is an
    issuer.  When the cache holds under each key an issuer bound to that
    key and the salt, the issuer returned is bound to the salt and the
    namespace, and the cache is left in that condition. *)
Theorem getAuthenticator_gate (w : World) (namespace : string) :
  getAuthenticator "" w
  = (Throws (ApiError STATUS_ERROR_NOT_AUTHORIZED "Empty namespace"), w)
  ∧ (namespace ≠ "" → cacheRead namespace w = None →
     instanceSalt w = Some "" →
     (getAuthenticator namespace w).1
       = Throws (PlainError "Captain Salt is not set yet!!")
     ∧ authenticatorCache (getAuthenticator namespace w).2
       = authenticatorCache w
     ∧ authenticatorsConstructed (getAuthenticator namespace w).2
       = authenticatorsConstructed w)
  ∧ (namespace ≠ "" → cacheRead namespace w = None →
     captainManagerInstance w = None →
     match constructorThrows w (constructorRuns w) with
     | None =>
         (getAuthenticator namespace w).1
           = Throws (PlainError "Captain Salt is not set yet!!")
         ∧ captainManagerInstance (getAuthenticator namespace w).2
           = Some (nextAddr w)
     | Some e =>
         (getAuthenticator namespace w).1 = Throws e
         ∧ captainManagerInstance (getAuthenticator namespace w).2 = None
     end
     ∧ authenticatorCache (getAuthenticator namespace w).2
       = authenticatorCache w
     ∧ authenticatorsConstructed (getAuthenticator namespace w).2
       = authenticatorsConstructed w)
  ∧ (∀ salt, namespace ≠ "" → salt ≠ "" → instanceSalt w = Some salt →
     ∃ slot,
       (getAuthenticator namespace w).1 = Returns (Some slot)
       ∧ getAuthenticator namespace (getAuthenticator namespace w).2
         = (Returns (Some slot), (getAuthenticator namespace w).2)
       ∧ (length (authenticatorsConstructed (getAuthenticator namespace w).2)
          ≤ S (length (authenticatorsConstructed w)))%nat
       ∧ (cacheRead namespace w = None →
          slot = Own (mkAuthenticator (nextAddr w) salt namespace)
          ∧ authenticatorsConstructed (getAuthenticator namespace w).2
            = (authenticatorsConstructed w
               ++ [mkAuthenticator (nextAddr w) salt namespace])%list)
       ∧ (namespace ∉ objectPrototypeKeys → ∃ a, slot = Own a)
       ∧ (cacheCoherent w →
          (∀ a, slot = Own a →
                authSalt a = salt ∧ authNamespace a = namespace)
          ∧ cacheCoherent (getAuthenticator namespace w).2)).
Proof.
  split; [done |]. split; [|split].
  - intros Hne Hmiss Hsalt.
    unfold getAuthenticator, falsy_string.
    rewrite bool_decide_eq_false_2 by done. rewrite Hmiss.
    unfold instanceSalt in Hsalt.
    destruct (captainManagerInstance w) as [a|] eqn:Hi; [|done].
    cbn in Hsalt. rewrite (get_existing w a Hi).
    by rewrite (getCaptainSalt_missing a w Hsalt).
  - intros Hne Hmiss Hi.
    unfold getAuthenticator, falsy_string.
    rewrite bool_decide_eq_false_2 by done. rewrite Hmiss.
    unfold get. rewrite Hi. unfold construct.
    destruct (constructorThrows w (constructorRuns w)) as [e|]; [done |].
    cbn. unfold getCaptainSalt; cbn. by rewrite lookup_insert_eq.
  - intros salt Hne Hsne Hsalt.
    destruct (cacheRead namespace w) as [slot|] eqn:Hc.
    + exists slot. rewrite (getAuthenticator_cached namespace w slot Hne Hc).
      cbn. rewrite (getAuthenticator_cached namespace w slot Hne Hc).
      split; [done |]. split; [done |]. split; [lia |]. split; [done |].
      split.
      * intros Hown. unfold cacheRead in Hc.
        destruct (authenticatorCache w !! namespace) as [a|].
        -- exists a. congruence.
        -- by rewrite bool_decide_eq_false_2 in Hc.
      * intros Hco. split; [|done]. intros a ->.
        unfold cacheRead in Hc.
        destruct (authenticatorCache w !! namespace) as [a'|] eqn:Hl;
          [|by case_match].
        injection Hc as ->. destruct (Hco _ _ Hl) as [Hn Hs].
        rewrite Hsalt in Hs. by injection Hs as ->.
    + exists (Own (mkAuthenticator (nextAddr w) salt namespace)).
      rewrite (getAuthenticator_miss namespace salt w Hne Hsne Hsalt Hc).
      cbn [fst snd].
      rewrite (getAuthenticator_cached namespace _ _ Hne
                 (cacheRead_stored salt namespace w)).
      split; [done |]. split; [done |].
      split; [cbn; rewrite length_app; cbn; lia |].
      split; [done |]. split; [intros _; by eexists |].
      intros Hco. split; [by intros a [= <-] |].
      by apply cacheCoherent_stored.
Qed.

Lemma getAuthenticator_gate_witness :
  ∃ slot,
    (getAuthenticator "captain" saltedWorld).1 = Returns (Some slot)
    ∧ getAuthenticator "captain" (getAuthenticator "captain" saltedWorld).2
      = (Returns (Some slot), (getAuthenticator "captain" saltedWorld).2).
Proof.
  destruct (getAuthenticator_gate saltedWorld "captain") as (_ & _ & _ & H).
  destruct (H "s3cr3t") as (slot & H1 & H2 & _); [done | done | reflexivity |].
  by exists slot.
Defined.

(** C2 as stated fails: with the salt not yet set, a non-empty namespace
    does not get "nothing" back, it gets the salt error thrown at it; so in
    a process whose singleton exists, and so in one where this call is the
    first to construct it. *)
Lemma getAuthenticator_unsalted_throws :
  let w := (get (boot (fun _ => None) (fun _ => "u"))).2 in
  instanceSalt w = Some ""
  ∧ (getAuthenticator "captain" w).1
    = Throws (PlainError "Captain Salt is not set yet!!")
  ∧ (getAuthenticator "captain" w).1 ≠ Returns None
  ∧ (getAuthenticator "captain" (boot (fun _ => None) (fun _ => "u"))).1
    = Throws (PlainError "Captain Salt is not set yet!!").
Proof.
  cbn zeta. split; [reflexivity |]. split; [reflexivity |].
  split; [done | reflexivity].
Qed.

(** A namespace that names a member of [Object.prototype] reads as
    cached from the start: the inherited member comes back, with or without
    a salt, and no issuer is constructed. *)
Example getAuthenticator_inherited_member :
  getAuthenticator "constructor" emptyWorld
  = (Returns (Some (Inherited "constructor")), emptyWorld).
Proof. reflexivity. Qed.

End StaticsFacts.

(** ** Enrolling a remote node *)

Module JoinNodeFacts.
Import Js JoinNode Samples.

Section Session.
Variables (d : Deps) (captainIpAddress token : string).

Lemma resolve_settled {A} (v : A) (p : Promise A) :
  settled p = true → resolve v p = p.
Proof. by destruct p. Qed.

Lemma reject_settled {A} (e : Error) (p : Promise A) :
  settled p = true → reject e p = p.
Proof. by destruct p. Qed.

(** No handler changes a settled promise. *)
Lemma handle_settled ev s :
  settled (promise s) = true →
  promise (handle d captainIpAddress token ev s) = promise s.
Proof.
  intros Hs. destruct ev as [err| |[err|]|i code signal|i data|i data]; cbn;
    try (by rewrite reject_settled); try done;
    destruct (streamFlag i s) as [[|]|]; cbn;
    by rewrite ?resolve_settled, ?reject_settled.
Qed.

Lemma run_settled evs : ∀ s,
  settled (promise s) = true →
  promise (run d captainIpAddress token evs s) = promise s.
Proof.
  unfold run. induction evs as [|ev evs IH]; intros s Hs; cbn; [done |].
  rewrite IH; rewrite handle_settled; done.
Qed.

Lemma run_first_signal evs : ∀ s,
  hasExisted s = [false] → promise s = Pending →
  Forall (fun ev => stream_event 0 ev = true) evs →
  promise (run d captainIpAddress token evs s)
  = outcomeOf (first_signal 0 evs).
Proof.
  induction evs as [|ev evs IH]; intros s Hfl Hp Hall; [done |].
  inversion Hall as [|? ? Hev Hrest]; subst.
  destruct ev as [err| |err|i code signal|i data|i data]; cbn in Hev;
    try done; apply bool_decide_eq_true in Hev as <-;
    cbn [first_signal]; rewrite ?bool_decide_eq_true_2 by done;
    change (run d captainIpAddress token (?e :: evs) s)
      with (run d captainIpAddress token evs
              (handle d captainIpAddress token e s)).
  - rewrite run_settled; cbn; unfold streamFlag; rewrite Hfl; cbn;
      by rewrite Hp.
  - apply IH; [| |done]; cbn; unfold streamFlag; rewrite Hfl; done.
  - rewrite run_settled; cbn; unfold streamFlag; rewrite Hfl; cbn;
      by rewrite Hp.
Qed.

End Session.

(** C3, as the code has it.  After the token is fetched, the connection is
    ready and [exec] has handed over its stream, the first of "stream
    closed" and "stderr data" decides: the promise resolves on the former,
    and on the latter rejects with the message "Error during setup: "
    followed by the stderr text.  Without either it stays pending, and once
    it is settled no later event of any kind changes it. *)
Theorem joinDockerNode_first_signal_decides
    (d : Deps) (captainIpAddress remoteNodeIpAddress privateKey : string)
    (isManager : bool) (token : string) (evs more : list Event) :
  Forall (fun ev => stream_event 0 ev = true) evs →
  let s := joinDockerNode d captainIpAddress isManager remoteNodeIpAddress
             privateKey (inr token)
             ([ConnReady; ExecCallback None] ++ evs)%list in
  promise s
  = match first_signal 0 evs with
    | None => Pending
    | Some Closed => Resolved tt
    | Some (Stderr data) =>
        Rejected (ApiError STATUS_ERROR_GENERIC
                           ("Error during setup: " ++ data)%string)
    end
  ∧ (settled (promise s) = true →
     promise (run d captainIpAddress token more s) = promise s).
Proof.
  intros Hall s. split.
  - subst s. unfold joinDockerNode.
    change (run d captainIpAddress token ([ConnReady; ExecCallback None] ++ evs)
              (opened remoteNodeIpAddress privateKey))
      with (run d captainIpAddress token evs
              (handle d captainIpAddress token (ExecCallback None)
                 (handle d captainIpAddress token ConnReady
                    (opened remoteNodeIpAddress privateKey)))).
    rewrite run_first_signal by done.
    unfold outcomeOf, setupErrorMessage. by repeat case_match.
  - apply run_settled.
Qed.

Lemma joinDockerNode_first_signal_decides_witness :
  promise (joinDockerNode someDeps "10.0.0.1" false "10.0.0.2" "key"
             (inr "tok")
             [ConnReady; ExecCallback None; StreamData 0 "joined";
              StreamClose 0 "0" "undefined"; StderrData 0 "late"])
  = Resolved tt.
Proof.
  refine (proj1 (joinDockerNode_first_signal_decides someDeps "10.0.0.1"
                   "10.0.0.2" "key" false "tok"
                   [StreamData 0 "joined"; StreamClose 0 "0" "undefined";
                    StderrData 0 "late"] [] _)).
  repeat constructor.
Defined.

(** C3 as stated fails: the message of the rejection is not the text
    stderr produced, it carries a fixed prefix before it. *)
Lemma joinDockerNode_message_carries_prefix :
  ∃ e, promise (joinDockerNode someDeps "10.0.0.1" false "10.0.0.2" "key"
                  (inr "tok")
                  [ConnReady; ExecCallback None; StderrData 0 "boom"])
       = Rejected e
       ∧ message_of e = "Error during setup: boom"
       ∧ message_of e ≠ "boom".
Proof. eexists. split; [reflexivity |]. split; [reflexivity | done]. Qed.

(** A connection error reported before either signal settles the promise
    first: the later clean close no longer resolves it. *)
Example joinDockerNode_connection_error_first :
  promise (joinDockerNode someDeps "10.0.0.1" false "10.0.0.2" "key"
             (inr "tok")
             [ConnReady; ExecCallback None; ConnError "ECONNRESET";
              StreamClose 0 "0" "undefined"])
  = Rejected (ApiError STATUS_ERROR_GENERIC "SSH Connection error!!").
Proof. reflexivity. Qed.

End JoinNodeFacts.

(** ** Domain ownership *)

Module DomainVerifierFacts.
Import Js Chain DomainVerifier Samples.

Lemma pollFails_false randomUuid r :
  randomUuid ≠ "" →
  pollFails randomUuid r = false
  ↔ error r = None ∧ body r = Some randomUuid.
Proof.
  intros Hne. unfold pollFails, falsy_opt_string, strict_neq, falsy_string,
    string_eqb.
  destruct r as [[e|] [b|]]; cbn; split; try done;
    try (by intros [? ?]).
  - rewrite orb_false_iff, negb_false_iff.
    intros [_ ->%bool_decide_eq_true]. done.
  - intros [_ [= ->]]. rewrite bool_decide_eq_false_2 by done.
    by rewrite bool_decide_eq_true_2.
Qed.

(** C4.  With the random token non-empty (as [uuid()] makes it): an error
    of the domain pre-check is what the caller gets, and nothing is written
    or polled.  Once the pre-check passed and the token file is written,
    exactly one request is sent, and the call succeeds if and only if that
    request came back without error and with a body equal to the token;
    in every other case it fails with the VerificationFailed error. *)
Theorem verifyOwnership_iff_body_is_token
    (env : Env) (cc : CaptainConstants) (randomUuid domainName : string)
    (identifierSuffix : option string) (w : Statics.World) :
  randomUuid ≠ "" →
  let r := verifyCaptainOwnsDomainOrThrow env cc randomUuid domainName
             identifierSuffix (fresh w) in
  let url := confirmationUrl cc domainName identifierSuffix in
  let file := confirmationFile cc domainName identifierSuffix in
  (∀ e, env _ 0%nat (Certbot_domainValidOrThrow domainName) = Failed e →
        r.1 = Failed e
        ∧ trace r.2 = [Did (Certbot_domainValidOrThrow domainName)])
  ∧ (env _ 0%nat (Certbot_domainValidOrThrow domainName) = Fulfilled tt →
     env _ 1%nat (Fs_outputFile file randomUuid) = Fulfilled tt →
     ∀ reply, env _ 3%nat (Http_request url) = Fulfilled reply →
       (r.1 = Fulfilled tt
        ↔ error reply = None ∧ body reply = Some randomUuid)
       ∧ (r.1 = Fulfilled tt ∨ r.1 = Failed verificationFailed)
       ∧ requests (trace r.2) = [url]).
Proof.
  intros Hne r url file. subst r url file. split.
  - intros e He. unfold verifyCaptainOwnsDomainOrThrow.
    chain_run. rewrite He. done.
  - intros Hcheck Hwrite reply Hreply.
    unfold verifyCaptainOwnsDomainOrThrow.
    chain_run. rewrite Hcheck, Hwrite, Hreply.
    destruct (pollFails randomUuid reply) eqn:Hp; cbn.
    + split; [|split; [by right | done]].
      split; [done |]. intros H%pollFails_false; [congruence | done].
    + split; [|split; [by left | done]].
      split; [intros _; by apply pollFails_false | done].
Qed.

Lemma verifyOwnership_iff_body_is_token_witness :
  (verifyCaptainOwnsDomainOrThrow (servingEnv (Some "4f1c-token"))
     sampleConstants "4f1c-token" "captain.example.com"
     (Some "-healthcheck") (fresh emptyWorld)).1
  = Fulfilled tt.
Proof.
  assert ("4f1c-token" ≠ "") as Hne by done.
  destruct (verifyOwnership_iff_body_is_token
              (servingEnv (Some "4f1c-token")) sampleConstants "4f1c-token"
              "captain.example.com" (Some "-healthcheck") emptyWorld Hne)
    as [_ H].
  destruct (H eq_refl eq_refl (mkHttpReply None (Some "4f1c-token")) eq_refl)
    as [Hiff _].
  apply Hiff. split; reflexivity.
Defined.

End DomainVerifierFacts.

(** ** Certificates and the root domain *)

Module SslFacts.
Import Js Chain Ssl Samples ChainFacts.




(** C6.  [changeCaptainRootDomain] starts with the request to the default
    server for the requested domain: to the confirmation path on host
    [captain-subdomain.d] (or [uuid.d] when the wildcard pre-check is on)
    and the proxy's port.  A failed check ends it there with
    VerificationFailed.  After a passed check: with root SSL on and a
    current root domain other than the requested one it fails with the
    "too late" policy error and stores nothing; with root SSL off, or on
    with the same root domain, it stores the requested domain and then
    regenerates and reloads the proxy configuration. *)
Theorem changeCaptainRootDomain_policy
    (env : Env) (cc : CaptainConstants)
    (randomUuid requestedCustomDomain key : string) (w : Statics.World) :
  let r := changeCaptainRootDomain env cc randomUuid requestedCustomDomain
             (fresh w) in
  let url :=
    "http://"
    ++ ((if preCheckForWildCard cc then randomUuid else captainSubDomain cc)
        ++ "." ++ requestedCustomDomain ++ ":" ++ nginxPortNumber cc)
    ++ captainConfirmationPath cc in
  let stored := Did (DS_setCustomDomain requestedCustomDomain) in
  head (trace r.2) = Some (Did (Http_request url))
  ∧ (∀ reply, env _ 0%nat (Http_request url) = Fulfilled reply →
       is_Some (error reply) ∨ falsy_opt_string (body reply) = true →
       r.1 = Failed DomainVerifier.verificationFailed
       ∧ trace r.2 = [Did (Http_request url)])
  ∧ (∀ b k, env _ 0%nat (Http_request url)
              = Fulfilled (mkHttpReply None (Some b)) →
       b ≠ "" →
       env _ 1%nat LB_getCaptainPublicRandomKey = Fulfilled k →
       b ≠ k →
       r.1 = Failed DomainVerifier.verificationFailed
       ∧ trace r.2 = [Did (Http_request url);
                      Did LB_getCaptainPublicRandomKey])
  ∧ (defaultServerAnswers env url key →
       (∀ rootDomain,
          env _ 2%nat DS_getHasRootSsl = Fulfilled true →
          env _ 3%nat DS_getRootDomain = Fulfilled rootDomain →
          rootDomain ≠ requestedCustomDomain →
          r.1 = Failed tooLate
          ∧ trace r.2 = [Did (Http_request url);
                         Did LB_getCaptainPublicRandomKey;
                         Did DS_getHasRootSsl; Did DS_getRootDomain])
       ∧ (env _ 2%nat DS_getHasRootSsl = Fulfilled false →
          env _ 3%nat (DS_setCustomDomain requestedCustomDomain)
            = Fulfilled tt →
          env _ 4%nat LB_rePopulateNginxConfigFile = Fulfilled tt →
          r.1 = env _ 5%nat LB_sendReloadSignal
          ∧ trace r.2 = [Did (Http_request url);
                         Did LB_getCaptainPublicRandomKey;
                         Did DS_getHasRootSsl; stored;
                         Did LB_rePopulateNginxConfigFile;
                         Did LB_sendReloadSignal])
       ∧ (env _ 2%nat DS_getHasRootSsl = Fulfilled true →
          env _ 3%nat DS_getRootDomain = Fulfilled requestedCustomDomain →
          env _ 4%nat (DS_setCustomDomain requestedCustomDomain)
            = Fulfilled tt →
          env _ 5%nat LB_rePopulateNginxConfigFile = Fulfilled tt →
          r.1 = env _ 6%nat LB_sendReloadSignal
          ∧ trace r.2 = [Did (Http_request url);
                         Did LB_getCaptainPublicRandomKey;
                         Did DS_getHasRootSsl; Did DS_getRootDomain; stored;
                         Did LB_rePopulateNginxConfigFile;
                         Did LB_sendReloadSignal])).
Proof.
  intros r url stored. subst r url stored.
  unfold changeCaptainRootDomain, verifyDomainResolvesToDefaultServerOnHost,
    reloadLoadBalancer, verificationHost, defaultServerAnswers.
  chain_run.
  split; [repeat (first [done | case_match; simplify_eq/=]) |].
  split.
  { intros reply -> Hbad. cbn.
    destruct reply as [[e|] b]; cbn in *; [done |].
    destruct Hbad as [[? [=]] | ->]. done. }
  split.
  { intros b k -> Hb. cbn. unfold falsy_string.
    rewrite bool_decide_eq_false_2 by done. cbn.
    intros -> Hbk. cbn. unfold string_eqb.
    by rewrite bool_decide_eq_false_2. }
  intros (-> & Hkey & Hk). cbn. unfold falsy_string.
  rewrite bool_decide_eq_false_2 by done. cbn. rewrite Hk. cbn.
  unfold string_eqb. rewrite bool_decide_eq_true_2 by done. cbn.
  split; [|split].
  - intros root -> Hroot Hne. cbn. rewrite Hroot. cbn.
    by rewrite bool_decide_eq_false_2.
  - intros -> Hset Hpop. cbn. rewrite Hset. cbn. by rewrite Hpop.
  - intros -> Hroot Hset Hpop. cbn. rewrite Hroot. cbn.
    rewrite bool_decide_eq_true_2 by done. cbn.
    rewrite Hset. cbn. by rewrite Hpop.
Qed.

Lemma changeCaptainRootDomain_policy_witness :
  head (trace (changeCaptainRootDomain sslLockedEnv sampleConstants "uuid"
                 "other.org" (fresh emptyWorld)).2)
  = Some (Did (Http_request
                 "http://captain.other.org:80/.well-known/captain-identifier"))
  ∧ (changeCaptainRootDomain sslLockedEnv sampleConstants "uuid" "other.org"
       (fresh emptyWorld)).1
    = Failed tooLate
  ∧ (changeCaptainRootDomain sslLockedEnv sampleConstants "uuid"
       "example.com" (fresh emptyWorld)).1
    = Fulfilled tt.
Proof.
  split; [|split].
  - exact (proj1 (changeCaptainRootDomain_policy sslLockedEnv
                    sampleConstants "uuid" "other.org" "public-key"
                    emptyWorld)).
  - destruct (changeCaptainRootDomain_policy sslLockedEnv sampleConstants
                "uuid" "other.org" "public-key" emptyWorld)
      as (_ & _ & _ & H).
    destruct H as (H & _); [by repeat split |].
    destruct (H "example.com") as [H' _]; [reflexivity | reflexivity | done |].
    exact H'.
  - destruct (changeCaptainRootDomain_policy sslLockedEnv sampleConstants
                "uuid" "example.com" "public-key" emptyWorld)
      as (_ & _ & _ & H).
    destruct H as (_ & _ & H); [by repeat split |].
    destruct H as [H _]; [reflexivity .. |]. exact H.
Defined.

End SslFacts.

(** ** Self-reset *)

Module SelfResetFacts.
Import Js Chain SelfReset.

Lemma handle_keeps_promise cc ev r : promise (handle cc ev r) = promise r.
Proof. by destruct ev as [[e|]|[e|]]. Qed.

Lemma handle_requests cc ev r :
  length (updateRequests (handle cc ev r))
  = match ev with
    | TimerFired _ => S (length (updateRequests r))
    | UpdateServiceSettled _ => length (updateRequests r)
    end.
Proof.
  destruct ev as [[e|]|[e|]]; cbn; rewrite ?length_app; cbn; lia.
Qed.

(** C10.  Whatever happens after [resetSelf] returned (the timer firing,
    [updateService] throwing, its promise fulfilling or rejecting, in any
    number and order), the promise [resetSelf] returned is still pending;
    the timer firing does issue the update request.  Used as a step of a
    chain, the step never settles, so nothing after it runs. *)
Theorem resetSelf_never_settles
    (cc : CaptainConstants) (evs : list Event) (s : Sys) :
  promise (run cc evs resetSelf) = Pending
  ∧ settled (promise (run cc evs resetSelf)) = false
  ∧ (∀ throws, updateRequests (run cc (TimerFired throws :: evs) resetSelf)
               ≠ [])
  ∧ (resetSelfChain s).1 = Never.
Proof.
  assert (∀ evs r, promise (run cc evs r) = promise r) as Hkeep.
  { clear. unfold run. induction evs as [|ev evs IH]; intros r; cbn; [done |].
    by rewrite IH, handle_keeps_promise. }
  assert (∀ evs r, length (updateRequests r)
                   ≤ length (updateRequests (run cc evs r)))%nat as Hgrow.
  { clear. unfold run. induction evs as [|ev evs IH]; intros r; cbn; [done |].
    etrans; [|apply IH]. rewrite handle_requests. destruct ev; lia. }
  rewrite Hkeep. repeat split.
  intros throws Hnil.
  specialize (Hgrow evs (handle cc (TimerFired throws) resetSelf)).
  change (run cc (TimerFired throws :: evs) resetSelf)
    with (run cc evs (handle cc (TimerFired throws) resetSelf)) in Hnil.
  rewrite Hnil, handle_requests in Hgrow. cbn in Hgrow. lia.
Qed.

End SelfResetFacts.

(** ** Published versions *)

Module ImageTagsFacts.
Import Js Chain ImageTags TagEntries Samples.

Lemma collectNames_objects elements : ∀ tags,
  forallb isObject elements = true →
  collectNames elements tags = inr (tags ++ map nameOf elements)%list.
Proof.
  induction elements as [|el els IH]; intros tags Hall; cbn.
  - by rewrite app_nil_r.
  - cbn in Hall. apply andb_prop in Hall as [Hobj Hall].
    destruct el; try done. cbn. rewrite IH by done.
    by rewrite <- app_assoc.
Qed.

Lemma collectNames_any elements : ∀ tags,
  collectNames elements tags
  = if existsb isNull elements then inl (PlainError "TypeError")
    else inr (tags ++ map nameOf elements)%list.
Proof.
  induction elements as [|el els IH]; intros tags; cbn [collectNames].
  - cbn. by rewrite app_nil_r.
  - destruct el; cbn [property existsb isNull orb]; try done;
      rewrite IH; destruct (existsb isNull els); try done;
      cbn; by rewrite <- app_assoc.
Qed.




End ImageTagsFacts.

(** ** Bootstrap *)

Module BootstrapFacts.
Import Js Chain Bootstrap Samples ChainFacts.

#[local] Arguments Statics.getAuthenticator : simpl never.
#[local] Arguments Statics.getCaptainSalt : simpl never.
#[local] Arguments Statics.updateManager : simpl never.

Ltac orderly :=
  repeat first
    [ apply orderly_bind; [|intros ?]
    | apply orderly_perform | apply orderly_launch | apply orderly_wait
    | apply orderly_spawn | apply orderly_log | apply orderly_assign
    | apply orderly_static | apply orderly_ret | apply orderly_throw
    | apply orderly_never
    | apply orderly_setTimeout; done
    | case_match ].

Lemma bootstrap_orderly env cc self freshSalt nextUuid :
  Orderly env (bootstrap env cc self freshSalt nextUuid).
Proof.
  unfold bootstrap, startHealthCheck, SelfReset.resetSelfChain. orderly.
Qed.

Ltac scripted :=
  repeat first
    [ eapply scripted_bind; [|intros ?]
    | apply scripted_perform | apply scripted_launch | apply scripted_wait
    | apply scripted_spawn | apply scripted_log | apply scripted_assign
    | apply scripted_static | apply scripted_ret | apply scripted_throw
    | apply scripted_never | apply scripted_setTimeout
    | solve [eapply scripted_if; scripted]
    | eapply scripted_if_or
    | eapply scripted_option_or; [intros ?|] ].

Lemma resetSelfChain_scripted :
  Scripted SelfReset.resetSelfChain (λ sc, sc = []).
Proof. by apply scripted_silent. Qed.

(** The calls of a run are an initial part of the script, and all of it
    when the chain fulfils. *)
Lemma bootstrap_scripted env cc self freshSalt nextUuid :
  Scripted (bootstrap env cc self freshSalt nextUuid)
    (λ sc, ∃ myNodeId salt password rootDomain probes,
       sc = bootstrapScript cc
              (if isDebug cc then DEBUG_SALT else freshSalt)
              myNodeId salt password rootDomain probes).
Proof.
  unfold bootstrap, startHealthCheck, bootstrapScript.
  destruct (isDebug cc);
    (eapply scripted_weaken;
     [ scripted; apply resetSelfChain_scripted
     | cbn beta; intros sc H; decompose [ex and or] H; clear H; subst; cbn;
       first [ by eexists _, _, None, "", false
             | by eexists _, _, None, _, true
             | by eexists _, _, (Some _), "", false
             | by eexists _, _, (Some _), _, true ] ]).
Qed.

Lemma fatal_effect e s :
  trace (fatal e s).2 = trace s
  ∧ logged (fatal e s).2 = (logged s ++ [LogError e])%list
  ∧ ∀ ms, exitsDue ms (fatal e s).2
          = (exitsDue ms s ++ if (5000 <=? ms)%Z then [0] else [])%list.
Proof.
  repeat split. intros ms. unfold exitsDue, fatal. chain_run.
  rewrite omap_app. cbn. by destruct (5000 <=? ms)%Z.
Qed.

(** C7.  In every bootstrap run, an action the surroundings fail is the
    last action of the run: nothing after it is started and it is not
    tried again, and the run fails with that error.  The actions made are
    an initial part of the script of the source, in its order, and all of
    it when the chain fulfils.  Whenever the chain fails (by a failed
    action or by one of its own checks), the error is logged last and the
    only [process.exit] armed is the one with status 0 due after 5000 ms:
    before that the process has not exited, from then on it has, with
    status 0. *)
Theorem initialize_failure_is_fatal
    (env : Env) (cc : CaptainConstants) (self : Statics.Addr)
    (freshSalt nextUuid : string) (w : Statics.World) :
  let r := initialize env cc self freshSalt nextUuid (fresh w) in
  (∀ k a e, trace r.2 !! k = Some a → failedWith env k a = Some e →
            length (trace r.2) = S k ∧ r.1 = Failed e)
  ∧ (∀ e, r.1 = Failed e →
          last (logged r.2) = Some (LogError e)
          ∧ ∀ ms, exitStatusAfter ms r.2
                  = if (5000 <=? ms)%Z then Some 0 else None)
  ∧ (∃ myNodeId salt password rootDomain probes,
        let script := bootstrapScript cc
                        (if isDebug cc then DEBUG_SALT else freshSalt)
                        myNodeId salt password rootDomain probes in
        trace r.2 `prefix_of` script
        ∧ (r.1 = Fulfilled tt → trace r.2 = script)).
Proof.
  intros r. subst r. unfold initialize.
  destruct (bootstrap_orderly env cc self freshSalt nextUuid (fresh w))
    as (new & Htrace & Hexits & Hfail).
  destruct (bootstrap_scripted env cc self freshSalt nextUuid (fresh w))
    as (new' & script & Htrace' & Hshape & Hprefix & Hfull).
  rewrite Htrace in Htrace'. apply (inj (app [])) in Htrace' as <-.
  destruct Hshape as (myNodeId & salt & password & rootDomain & probes & ->).
  cbn [fresh trace app length Nat.add] in Htrace, Hfail.
  assert (∀ s', trace s' = new →
                ∀ k a e', trace s' !! k = Some a →
                          failedWith env k a = Some e' →
                          length (trace s') = S k
                          ∧ (bootstrap env cc self freshSalt nextUuid
                               (fresh w)).1 = Failed e') as Habort.
  { intros s' -> k a e' Hk Hf. by apply (Hfail k a e'). }
  destruct (bootstrap env cc self freshSalt nextUuid (fresh w))
    as [[[]|e|] s'] eqn:Hb; cbn [fst snd] in *.
  - split; [by apply Habort |]. split; [done |].
    exists myNodeId, salt, password, rootDomain, probes. cbn zeta.
    rewrite Htrace. split; [done |]. intros _. by apply Hfull.
  - destruct (fatal_effect e s') as (Ht & Hl & Hx). rewrite Ht.
    split; [by apply Habort |]. split.
    + intros e' [= <-]. rewrite Hl, last_snoc. split; [done |].
      intros ms. unfold exitStatusAfter. rewrite Hx, Hexits. cbn.
      by destruct (5000 <=? ms)%Z.
    + exists myNodeId, salt, password, rootDomain, probes. cbn zeta.
      rewrite Htrace. by split.
  - split; [by apply Habort |]. split; [done |].
    exists myNodeId, salt, password, rootDomain, probes. cbn zeta.
    rewrite Htrace. by split.
Qed.

Lemma initialize_failure_is_fatal_witness :
  let disk := initialize diskFailsEnv sampleConstants 0%nat "salt" "uuid"
                (fresh emptyWorld) in
  let worker := initialize workerNodeEnv sampleConstants 0%nat "salt" "uuid"
                  (fresh emptyWorld) in
  disk.1 = Failed (ForeignError "EACCES")
  ∧ length (trace disk.2) = 4%nat
  ∧ exitStatusAfter 4999 disk.2 = None
  ∧ exitStatusAfter 5000 disk.2 = Some 0
  ∧ worker.1 = Failed (PlainError "Captain should only run on a manager node")
  ∧ exitStatusAfter 5000 worker.2 = Some 0.
Proof.
  cbn zeta.
  destruct (initialize_failure_is_fatal diskFailsEnv sampleConstants 0%nat
              "salt" "uuid" emptyWorld) as (Habort & Hfatal & _).
  destruct (Habort 3%nat (Did (Fs_emptyDir "/captain/temp"))
              (ForeignError "EACCES") eq_refl eq_refl) as [Hlen Hres].
  destruct (Hfatal _ Hres) as [_ Hexit].
  destruct (initialize_failure_is_fatal workerNodeEnv sampleConstants 0%nat
              "salt" "uuid" emptyWorld) as (_ & Hfatal' & _).
  destruct (Hfatal' (PlainError "Captain should only run on a manager node")
              eq_refl) as [_ Hexit'].
  split; [exact Hres |]. split; [exact Hlen |].
  split; [exact (Hexit 4999) |]. split; [exact (Hexit 5000) |].
  split; [reflexivity | exact (Hexit' 5000)].
Defined.

End BootstrapFacts.

(** ** The health monitor, cycle by cycle *)

Module HealthCycleFacts.
Import Js HealthMonitor HealthCycle HealthMonitorFacts Samples.

Lemma scheduleIfNecessary_schedules dom c p a b :
  captainHealth c = Some a → nginxHealth c = Some b →
  scheduledOnce p (scheduleIfNecessary dom c p).
Proof.
  intros Ha Hb. unfold scheduleIfNecessary, scheduledOnce.
  rewrite Ha, Hb.
  destruct a, b; cbn -[Z.ltb Z.add]; repeat case_match; cbn; auto.
Qed.

Lemma onCaptainHealth_schedule_inv dom p c ok :
  captainHealth c = None →
  schedule_inv p (onCaptainHealth dom ok (p, c)).
Proof.
  intros Hch. unfold onCaptainHealth, schedule_inv.
  cbn [fst snd captainHealth nginxHealth].
  destruct (nginxHealth c) as [b|] eqn:Hb.
  - by eapply scheduleIfNecessary_schedules.
  - apply scheduleIfNecessary_undecided; auto.
Qed.

Lemma onNginxHealth_schedule_inv dom p c ok :
  nginxHealth c = None →
  schedule_inv p (onNginxHealth dom ok (p, c)).
Proof.
  intros Hnh. unfold onNginxHealth, schedule_inv.
  cbn [fst snd captainHealth nginxHealth].
  destruct (captainHealth c) as [a|] eqn:Ha.
  - by eapply scheduleIfNecessary_schedules.
  - apply scheduleIfNecessary_undecided; auto.
Qed.

Lemma undecided_same p q c :
  cycle_inv p (q, c) → captainHealth c = None ∨ nginxHealth c = None → q = p.
Proof.
  intros (_ & _ & Hd) [H|H]; cbn [fst snd] in Hd; rewrite H in Hd;
    [done | by destruct (captainHealth c)].
Qed.

Lemma captain_once_schedule_inv dom p q c ok :
  cycle_inv p (q, c) → schedule_inv p (q, c) →
  schedule_inv p
    (if captainCallbackCalled c then (q, c)
     else onCaptainHealth dom ok (q, c)).
Proof.
  intros Hinv Hs. pose proof Hinv as (Hc & _); cbn [fst snd] in *.
  rewrite Hc. destruct (captainHealth c) as [a|] eqn:Ha; [done |].
  assert (q = p) as -> by (eapply undecided_same; eauto).
  by apply onCaptainHealth_schedule_inv.
Qed.

Lemma nginx_once_schedule_inv dom p q c ok :
  cycle_inv p (q, c) → schedule_inv p (q, c) →
  schedule_inv p
    (if nginxCallbackCalled c then (q, c)
     else onNginxHealth dom ok (q, c)).
Proof.
  intros Hinv Hs. pose proof Hinv as (_ & Hn & _); cbn [fst snd] in *.
  rewrite Hn. destruct (nginxHealth c) as [b|] eqn:Hb; [done |].
  assert (q = p) as -> by (eapply undecided_same; eauto).
  by apply onNginxHealth_schedule_inv.
Qed.

Lemma handle_schedule_inv dom p ev st :
  cycle_inv p st → schedule_inv p st →
  schedule_inv p (handle dom ev st).
Proof.
  intros Hinv Hs. unfold handle.
  destruct (exitCode st.1) eqn:Hq; [done |].
  destruct st as [q c]. cbn [fst snd] in *.
  destruct ev;
    auto using captain_once_schedule_inv, nginx_once_schedule_inv.
  pose proof (captain_once_schedule_inv dom p q c false Hinv Hs).
  pose proof (captain_once_schedule_inv dom p q c true Hinv Hs).
  by repeat case_match.
Qed.

Lemma run_events_schedule_inv dom p evs : ∀ st,
  exitCode p = None → cycle_inv p st → schedule_inv p st →
  schedule_inv p (run_events dom evs st).
Proof.
  unfold run_events.
  induction evs as [|ev evs IH]; intros st Hx Hinv Hs; cbn; [done |].
  apply IH; [done | by apply handle_inv | by apply handle_schedule_inv].
Qed.

(** The verdict a probe's slot holds after one more event: the one it
    had, or else the event's. *)
Lemma handle_verdicts dom p ev st :
  exitCode p = None → cycle_inv p st →
  captainHealth (handle dom ev st).2
  = from_option Some (captainVerdict (healthCheckUuid p) ev)
      (captainHealth st.2)
  ∧ nginxHealth (handle dom ev st).2
    = from_option Some (nginxVerdict ev) (nginxHealth st.2).
Proof.
  intros Hx (Hc & Hn & Hd). unfold handle.
  destruct st as [q c]. cbn [fst snd] in *.
  destruct (exitCode q) eqn:Hq.
  { destruct (captainHealth c) eqn:Ha, (nginxHealth c) eqn:Hb; cbn;
      rewrite ?Ha, ?Hb; [done | subst q; congruence ..]. }
  destruct ev; cbn [captainVerdict nginxVerdict];
    destruct (captainHealth c) as [a|] eqn:Ha,
             (nginxHealth c) as [b|] eqn:Hb;
    rewrite ?Hc, ?Hn; cbn [bool_decide decide_rel is_Some_dec decide fst snd from_option];
    unfold onCaptainHealth, onNginxHealth;
    cbn [fst snd captainHealth nginxHealth from_option];
    rewrite ?Ha, ?Hb; try done; try subst q;
    try by repeat case_match.
Qed.

Lemma run_events_verdicts dom p evs : ∀ st,
  exitCode p = None → cycle_inv p st →
  captainHealth (run_events dom evs st).2
  = from_option Some
      (firstVerdict (captainVerdict (healthCheckUuid p)) evs)
      (captainHealth st.2)
  ∧ nginxHealth (run_events dom evs st).2
    = from_option Some (firstVerdict nginxVerdict evs) (nginxHealth st.2).
Proof.
  unfold run_events.
  induction evs as [|ev evs IH]; intros st Hx Hinv; cbn [foldl firstVerdict].
  - by destruct (captainHealth st.2), (nginxHealth st.2).
  - destruct (IH (handle dom ev st) Hx (handle_inv dom p ev st Hx Hinv))
      as [-> ->].
    destruct (handle_verdicts dom p ev st Hx Hinv) as [-> ->].
    split.
    + destruct (captainHealth st.2); [done |]. cbn.
      by destruct (captainVerdict _ ev).
    + destruct (nginxHealth st.2); [done |]. cbn.
      by destruct (nginxVerdict ev).
Qed.

Lemma newCycle_inv p : cycle_inv p (p, newCycle) ∧ schedule_inv p (p, newCycle).
Proof. by repeat split. Qed.

Lemma handle_decided dom ev q c :
  captainCallbackCalled c = true → nginxCallbackCalled c = true →
  handle dom ev (q, c) = (q, c).
Proof.
  intros Hc Hn. unfold handle. cbn [fst snd]. rewrite Hc, Hn.
  by destruct (exitCode q), ev.
Qed.

Lemma run_events_decided dom evs q c :
  captainCallbackCalled c = true → nginxCallbackCalled c = true →
  run_events dom evs (q, c) = (q, c).
Proof.
  intros Hc Hn. unfold run_events.
  induction evs as [|ev evs IH]; cbn; [done |].
  by rewrite (handle_decided dom ev q c).
Qed.

Lemma scheduleIfNecessary_warnings dom c p a b :
  captainHealth c = Some a → nginxHealth c = Some b →
  warnings (scheduleIfNecessary dom c p)
  = (warnings p
     ++ (if a then []
         else [CaptainHealthFailed (consecutiveHealthCheckFailCount p) dom])
     ++ (if b then []
         else [NginxHealthFailed (consecutiveHealthCheckFailCount p)]))%list.
Proof.
  intros Ha Hb. unfold scheduleIfNecessary. rewrite Ha, Hb.
  destruct a, b; cbn -[Z.ltb Z.add]; repeat case_match; cbn;
    by rewrite <- ?app_assoc, ?app_nil_r.
Qed.

Lemma handle_warnings_inv dom p ev st :
  cycle_inv p st → warnings_inv dom p st →
  warnings_inv dom p (handle dom ev st).
Proof.
  intros Hinv Hw. pose proof Hinv as (Hc & Hn & _).
  unfold handle.
  destruct (exitCode st.1) eqn:Hq; [done |].
  destruct st as [q c]. cbn [fst snd] in *.
  assert (∀ ok, warnings_inv dom p
            (if captainCallbackCalled c then (q, c)
             else onCaptainHealth dom ok (q, c))) as HC.
  { intros ok. rewrite Hc.
    destruct (captainHealth c) as [a|] eqn:Ha; [done |].
    assert (q = p) as -> by (eapply undecided_same; eauto).
    unfold onCaptainHealth, warnings_inv.
    cbn [fst snd captainHealth nginxHealth].
    destruct (nginxHealth c) as [b|] eqn:Hb; [|done].
    by apply scheduleIfNecessary_warnings. }
  assert (∀ ok, warnings_inv dom p
            (if nginxCallbackCalled c then (q, c)
             else onNginxHealth dom ok (q, c))) as HN.
  { intros ok. rewrite Hn.
    destruct (nginxHealth c) as [b|] eqn:Hb; [done |].
    assert (q = p) as -> by (eapply undecided_same; eauto).
    unfold onNginxHealth, warnings_inv.
    cbn [fst snd captainHealth nginxHealth].
    destruct (captainHealth c) as [a|] eqn:Ha; [|done].
    by apply scheduleIfNecessary_warnings. }
  destruct ev; auto.
  pose proof (HC false). pose proof (HC true). by repeat case_match.
Qed.

Lemma run_events_warnings_inv dom p evs : ∀ st,
  exitCode p = None → cycle_inv p st → warnings_inv dom p st →
  warnings_inv dom p (run_events dom evs st).
Proof.
  unfold run_events.
  induction evs as [|ev evs IH]; intros st Hx Hinv Hs; cbn; [done |].
  apply IH; [done | by apply handle_inv | by apply handle_warnings_inv].
Qed.

Lemma performHealthCheck_monitored ci p :
  monitored p → monitored (performHealthCheck ci p).1.
Proof.
  intros [[Hx Hcnt]|[Hx Hcnt]]; unfold performHealthCheck at 1; rewrite Hx;
    [|by right].
  destruct (isDebug ci || negb (hasCustomDomain ci)) eqn:Hs.
  { by left. }
  destruct (decided ci p) as [[a b]|] eqn:Hd.
  - destruct (performHealthCheck_decided ci p a b Hx Hd) as [Hc He].
    unfold performHealthCheck in Hc, He. rewrite Hx, Hs in Hc, He.
    unfold monitored. rewrite Hc, He.
    unfold counted, exitOf, MAX_FAIL_ALLOWED in *.
    destruct (a && b); cbn; [left; split; [done | lia] |].
    destruct (4 <? _)%Z eqn:Hlt;
      [apply Z.ltb_lt in Hlt; right | apply Z.ltb_ge in Hlt; left];
      (split; [done | lia]).
  - pose proof (run_events_inv (captainPublicDomain ci) (drawVerifierUuid p)
                  (events ci) (drawVerifierUuid p, newCycle) Hx)
      as (_ & _ & Hinv); [by repeat split |].
    unfold decided, performHealthCheck in Hd. rewrite Hx, Hs in Hd.
    destruct (run_events _ _ _) as [q c]; cbn [fst snd] in *.
    assert (q = drawVerifierUuid p) as ->
      by (destruct (captainHealth c), (nginxHealth c); done).
    by left.
Qed.

(** X1.  In a cycle that is not skipped, each probe records the verdict of
    the first of its events to arrive and nothing later changes it: the
    self-health probe fails on its timeout and succeeds on a response only
    when there is no error and the body is the current token; the nginx
    probe succeeds only when the ownership check resolves. *)
Theorem first_probe_event_wins (ci : CycleInput) (p : Proc) :
  exitCode p = None → skipped ci = false →
  captainHealth (performHealthCheck ci p).2
  = firstVerdict (captainVerdict (healthCheckUuid p)) (events ci)
  ∧ nginxHealth (performHealthCheck ci p).2
    = firstVerdict nginxVerdict (events ci).
Proof.
  intros Hx Hskip. unfold performHealthCheck. rewrite Hx.
  unfold skipped in Hskip. rewrite Hskip.
  destruct (newCycle_inv (drawVerifierUuid p)) as [Hinv _].
  by destruct (run_events_verdicts (captainPublicDomain ci)
                 (drawVerifierUuid p) (events ci)
                 (drawVerifierUuid p, newCycle) Hx Hinv) as [-> ->].
Qed.


Lemma first_probe_event_wins_witness :
  captainHealth
    (performHealthCheck
       (mkCycleInput false true "captain" "example.com"
          [CaptainResponse false (Some "t"); NginxVerified; CaptainTimeout;
           NginxTimeout])
       (initial (fun _ => "t"))).2 = Some true.
Proof.
  refine (proj1 (first_probe_event_wins
           (mkCycleInput false true "captain" "example.com"
              [CaptainResponse false (Some "t"); NginxVerified;
               CaptainTimeout; NginxTimeout])
           (initial (fun _ => "t")) _ _)); reflexivity.
Defined.

(** X2.  Once both probes of a cycle have reported, whatever arrives
    afterwards (the other timeout, a late response) changes nothing: not
    the counter, the timers, the log or the exit status. *)
Theorem late_probe_events_ignored (dbg cd : bool) (sub root : string)
    (evs more : list ProbeEvent) (p : Proc) :
  is_Some (decided (mkCycleInput dbg cd sub root evs) p) →
  performHealthCheck (mkCycleInput dbg cd sub root (evs ++ more)) p
  = performHealthCheck (mkCycleInput dbg cd sub root evs) p.
Proof.
  intros [v Hd]. unfold decided, performHealthCheck, captainPublicDomain in *.
  cbn [isDebug hasCustomDomain events captainSubDomain rootDomain] in *.
  destruct (exitCode p) eqn:Hx; [done |].
  destruct (dbg || negb cd); [done |].
  set (dom := sub ++ "." ++ root) in *.
  assert (run_events dom (evs ++ more) (drawVerifierUuid p, newCycle)
          = run_events dom more
              (run_events dom evs (drawVerifierUuid p, newCycle))) as ->
    by apply foldl_app.
  pose proof (run_events_inv dom (drawVerifierUuid p) evs
                (drawVerifierUuid p, newCycle) Hx)
    as (Hc & Hn & _); [by repeat split |].
  destruct (run_events _ evs _) as [q c]; cbn [fst snd] in *.
  destruct (captainHealth c), (nginxHealth c); try done.
  by apply run_events_decided.
Qed.

Lemma late_probe_events_ignored_witness :
  performHealthCheck
    (mkCycleInput false true "captain" "example.com"
       ([CaptainTimeout; NginxVerified]
        ++ [CaptainResponse false (Some "t"); NginxVerifyFailed]))
    (initial (fun _ => "t"))
  = performHealthCheck
      (mkCycleInput false true "captain" "example.com"
         [CaptainTimeout; NginxVerified])
      (initial (fun _ => "t")).
Proof.
  apply (late_probe_events_ignored false true "captain" "example.com"
           [CaptainTimeout; NginxVerified]
           [CaptainResponse false (Some "t"); NginxVerifyFailed]
           (initial (fun _ => "t"))).
  by eexists.
Defined.

(** X3.  A cycle of a running process calls [scheduleNextHealthCheck]
    exactly once when it is skipped or both probes have reported, also
    when it ends the process: one more timer of [HEALTH_CHECK_INTERVAL]
    and a fresh health-check token.  A skipped cycle takes the next token
    of the generator; a probing cycle has first drawn one for the
    ownership check, so its new health-check token is the one after.
    While a probe has not reported, that draw is all the cycle has done. *)
Theorem next_check_scheduled_once (ci : CycleInput) (p : Proc) :
  exitCode p = None →
  let q := (performHealthCheck ci p).1 in
  if skipped ci
  then nextCheckTimers q
       = (nextCheckTimers p ++ [HEALTH_CHECK_INTERVAL])%list
       ∧ uuidCalls q = S (uuidCalls p)
       ∧ healthCheckUuid q = uuidSource p (uuidCalls p)
  else if bool_decide (is_Some (decided ci p))
  then nextCheckTimers q
       = (nextCheckTimers p ++ [HEALTH_CHECK_INTERVAL])%list
       ∧ uuidCalls q = S (S (uuidCalls p))
       ∧ healthCheckUuid q = uuidSource p (S (uuidCalls p))
  else q = mkProc (consecutiveHealthCheckFailCount p) (healthCheckUuid p)
                  (uuidSource p) (S (uuidCalls p)) (nextCheckTimers p)
                  (warnings p) None.
Proof.
  intros Hx. cbn zeta. unfold skipped, decided, performHealthCheck.
  rewrite Hx.
  destruct (isDebug ci || negb (hasCustomDomain ci)); [done |].
  destruct (newCycle_inv (drawVerifierUuid p)) as [Hinv Hs].
  pose proof (run_events_schedule_inv (captainPublicDomain ci)
                (drawVerifierUuid p) (events ci)
                (drawVerifierUuid p, newCycle) Hx Hinv Hs) as H.
  unfold schedule_inv, scheduledOnce in H.
  destruct (run_events _ _ _) as [q c]; cbn [fst snd] in *.
  destruct (captainHealth c), (nginxHealth c); cbn; try done.
  all: rewrite H; unfold drawVerifierUuid; by rewrite Hx.
Qed.

Lemma next_check_scheduled_once_witness :
  let src := fun n => match n with
                      | O => "u0" | S O => "u1" | _ => "u2"
                      end in
  uuidCalls (performHealthCheck timedOutCycle (initial src)).1 = 3%nat
  ∧ healthCheckUuid (performHealthCheck timedOutCycle (initial src)).1
    = "u2".
Proof.
  cbn zeta.
  destruct (next_check_scheduled_once timedOutCycle
              (initial (fun n => match n with
                                 | O => "u0" | S O => "u1" | _ => "u2"
                                 end)) eq_refl) as (_ & H1 & H2).
  split; [exact H1 | exact H2].
Defined.

(** X4.  Whatever the cycles bring, the process is either alive with a
    failure count between 0 and [MAX_FAIL_ALLOWED], or ended with status 1
    at a count of [MAX_FAIL_ALLOWED + 1]: it never ends with another status
    or at another count. *)
Theorem monitor_stays_within_bounds (cis : list CycleInput) (p : Proc) :
  monitored p → monitored (run_cycles cis p).
Proof.
  revert p. induction cis as [|ci cis IH]; intros p Hm; cbn; [done |].
  by apply IH, performHealthCheck_monitored.
Qed.

Lemma monitor_stays_within_bounds_witness :
  monitored (run_cycles (replicate 7 timedOutCycle) (initial (fun _ => "t"))).
Proof.
  apply (monitor_stays_within_bounds (replicate 7 timedOutCycle)
           (initial (fun _ => "t"))).
  left. split; [reflexivity | cbv; split; discriminate].
Defined.

(** X5.  Cycles run in debug mode or without a custom domain never probe:
    any number of them leaves the process alive, the failure count and the
    log as they were, and adds one timer of [HEALTH_CHECK_INTERVAL] each. *)
Theorem skipped_cycles_only_reschedule (cis : list CycleInput) (p : Proc) :
  exitCode p = None →
  forallb skipped cis = true →
  let q := run_cycles cis p in
  exitCode q = None
  ∧ consecutiveHealthCheckFailCount q = consecutiveHealthCheckFailCount p
  ∧ warnings q = warnings p
  ∧ nextCheckTimers q
    = (nextCheckTimers p
       ++ replicate (length cis) HEALTH_CHECK_INTERVAL)%list.
Proof.
  revert p. induction cis as [|ci cis IH]; intros p Hx Hall; cbn zeta.
  - cbn. by rewrite app_nil_r.
  - cbn [forallb] in Hall. apply andb_prop in Hall as [Hs Hall].
    cbn [run_cycles]. unfold performHealthCheck. rewrite Hx.
    unfold skipped in Hs. rewrite Hs. cbn [fst].
    destruct (IH (scheduleNextHealthCheck p) Hx Hall) as (-> & -> & -> & ->).
    cbn. by rewrite <- app_assoc.
Qed.

Lemma skipped_cycles_only_reschedule_witness :
  exitCode
    (run_cycles
       (replicate 9 (mkCycleInput true true "captain" "example.com"
                                  [CaptainTimeout; NginxTimeout]))
       (initial (fun _ => "t"))) = None.
Proof.
  refine (proj1 (skipped_cycles_only_reschedule
           (replicate 9 (mkCycleInput true true "captain" "example.com"
                                      [CaptainTimeout; NginxTimeout]))
           (initial (fun _ => "t")) _ _)); reflexivity.
Defined.

(** X6.  A decided cycle logs one warning for each failed probe and none
    for a successful one, the self-health warning first; both carry the
    failure count as it was before the cycle, and the self-health one the
    public domain. *)
Theorem decided_cycle_warnings (ci : CycleInput) (p : Proc) (a b : bool) :
  exitCode p = None →
  decided ci p = Some (a, b) →
  warnings (performHealthCheck ci p).1
  = (warnings p
     ++ (if a then []
         else [CaptainHealthFailed (consecutiveHealthCheckFailCount p)
                 (captainPublicDomain ci)])
     ++ (if b then []
         else [NginxHealthFailed (consecutiveHealthCheckFailCount p)]))%list.
Proof.
  intros Hx. unfold decided, performHealthCheck. rewrite Hx.
  destruct (isDebug ci || negb (hasCustomDomain ci)); [done |].
  destruct (newCycle_inv (drawVerifierUuid p)) as [Hinv _].
  pose proof (run_events_warnings_inv (captainPublicDomain ci)
                (drawVerifierUuid p) (events ci)
                (drawVerifierUuid p, newCycle) Hx Hinv I) as H.
  unfold warnings_inv in H.
  destruct (run_events _ _ _) as [q c]; cbn [fst snd] in *.
  destruct (captainHealth c), (nginxHealth c); try done.
  by intros [= -> ->].
Qed.

Lemma decided_cycle_warnings_witness :
  warnings (performHealthCheck timedOutCycle (initial (fun _ => "t"))).1
  = [CaptainHealthFailed 0 "captain.example.com"; NginxHealthFailed 0].
Proof.
  apply (decided_cycle_warnings timedOutCycle (initial (fun _ => "t"))
           false false); reflexivity.
Defined.

End HealthCycleFacts.

(** ** The singleton and the issuer cache, over several calls *)

Module SingletonFacts.
Import Js Statics StaticsFacts Samples.

Lemma get_throws w e :
  captainManagerInstance w = None →
  constructorThrows w (constructorRuns w) = Some e →
  (get w).1 = Throws e
  ∧ captainManagerInstance (get w).2 = None
  ∧ constructorRuns (get w).2 = S (constructorRuns w)
  ∧ constructorThrows (get w).2 = constructorThrows w
  ∧ nextAddr (get w).2 = nextAddr w
  ∧ managersConstructed (get w).2 = managersConstructed w.
Proof.
  intros Hi He. unfold get, construct. by rewrite Hi, He.
Qed.

Lemma get_constructs w :
  captainManagerInstance w = None →
  constructorThrows w (constructorRuns w) = None →
  (get w).1 = Returns (nextAddr w)
  ∧ captainManagerInstance (get w).2 = Some (nextAddr w)
  ∧ constructorRuns (get w).2 = S (constructorRuns w)
  ∧ managersConstructed (get w).2
    = (managersConstructed w ++ [nextAddr w])%list.
Proof.
  intros Hi He. unfold get, construct. by rewrite Hi, He.
Qed.

Lemma get_many_cons n w :
  get_many (S n) w
  = ((get w).1 :: (get_many n (get w).2).1, (get_many n (get w).2).2).
Proof.
  cbn [get_many]. destruct (get w) as [r w1]; cbn [fst snd].
  by destruct (get_many n w1).
Qed.

(** X7.  [get] does not remember a failed construction: while the
    constructor throws, each call throws that error and runs the
    constructor again; the first construction that succeeds is stored,
    every call from then on returns that one object, and the constructor
    has run once per failure and once more. *)
Theorem get_retries_until_constructed
    (errs : list Error) (n : nat) (w : World) :
  captainManagerInstance w = None →
  (∀ i e, errs !! i = Some e →
          constructorThrows w (constructorRuns w + i)%nat = Some e) →
  constructorThrows w (constructorRuns w + length errs)%nat = None →
  let r := get_many (length errs + S n) w in
  r.1 = ((Throws <$> errs) ++ replicate (S n) (Returns (nextAddr w)))%list
  ∧ managersConstructed r.2 = (managersConstructed w ++ [nextAddr w])%list
  ∧ constructorRuns r.2 = S (constructorRuns w + length errs)%nat.
Proof.
  revert w. induction errs as [|e errs IH]; intros w Hi Herrs Hok; cbn zeta.
  - cbn [length Nat.add fmap list_fmap app]. rewrite Nat.add_0_r in Hok.
    destruct (get_constructs w Hi Hok) as (Hr & Hs & Hruns & Hcons).
    rewrite get_many_cons, (get_many_existing n _ _ Hs); cbn [fst snd].
    rewrite Hr, Hruns, Hcons, Nat.add_0_r. done.
  - assert (constructorThrows w (constructorRuns w) = Some e) as He.
    { specialize (Herrs 0%nat e eq_refl). by rewrite Nat.add_0_r in Herrs. }
    destruct (get_throws w e Hi He) as (Hr & Hs & Hruns & Hthr & Hnext & Hcons).
    cbn [length Nat.add]. rewrite get_many_cons; cbn [fst snd].
    destruct (IH (get w).2) as (IH1 & IH2 & IH3).
    + done.
    + intros i e' Hl. rewrite Hthr, Hruns.
      replace (S (constructorRuns w) + i)%nat
        with (constructorRuns w + S i)%nat by lia.
      by apply Herrs.
    + rewrite Hthr, Hruns.
      by replace (S (constructorRuns w) + length errs)%nat
        with (constructorRuns w + S (length errs))%nat by lia.
    + rewrite IH1, IH2, IH3, Hr, Hnext, Hcons, Hruns. cbn.
      repeat split. f_equal. lia.
Qed.

Lemma get_retries_until_constructed_witness :
  (get_many 4
     (boot (fun k => if (k <? 2)%nat then Some (PlainError "docker is down")
                     else None)
           (fun _ => "u"))).1
  = [Throws (PlainError "docker is down");
     Throws (PlainError "docker is down");
     Returns 0%nat; Returns 0%nat].
Proof.
  refine (proj1 (get_retries_until_constructed
    [PlainError "docker is down"; PlainError "docker is down"] 1
    (boot (fun k => if (k <? 2)%nat then Some (PlainError "docker is down")
                    else None)
          (fun _ => "u")) eq_refl _ eq_refl)).
  intros [|[|i]] e; cbn; intros [= <-]; reflexivity.
Defined.

Lemma getAuthenticator_fresh ns salt w :
  ns ≠ "" → salt ≠ "" → instanceSalt w = Some salt →
  cacheRead ns w = None →
  getAuthenticator ns w
  = (Returns (Some (Own (mkAuthenticator (nextAddr w) salt ns))),
     cacheStoreNew salt ns w).
Proof.
  intros Hne Hsne Hsalt Hc. unfold instanceSalt in Hsalt.
  destruct (captainManagerInstance w) as [a|] eqn:Hi; [|done].
  cbn in Hsalt.
  unfold getAuthenticator at 1. unfold falsy_string at 1.
  rewrite bool_decide_eq_false_2 by done. rewrite Hc.
  rewrite (get_existing w a Hi).
  rewrite (getCaptainSalt_available a w salt Hsalt Hsne).
  unfold falsy_string. rewrite bool_decide_eq_false_2 by done.
  by rewrite cacheRead_stored.
Qed.

Lemma cacheRead_other salt ns ns' w :
  ns ≠ ns' → cacheRead ns' (cacheStoreNew salt ns w) = cacheRead ns' w.
Proof.
  intros Hne. unfold cacheRead, cacheStoreNew; cbn.
  by rewrite lookup_insert_ne.
Qed.

(** X8.  With the salt set, two different namespaces that are not cached
    get two different issuer objects, each built from the salt and its own
    namespace; caching the second leaves the first in place, so later calls
    give each namespace its own issuer back and construct nothing more. *)
Theorem issuers_are_per_namespace
    (w : World) (ns1 ns2 salt : string) :
  ns1 ≠ "" → ns2 ≠ "" → ns1 ≠ ns2 → salt ≠ "" →
  instanceSalt w = Some salt →
  cacheRead ns1 w = None → cacheRead ns2 w = None →
  let w1 := (getAuthenticator ns1 w).2 in
  let w2 := (getAuthenticator ns2 w1).2 in
  ∃ a1 a2,
    (getAuthenticator ns1 w).1 = Returns (Some (Own a1))
    ∧ (getAuthenticator ns2 w1).1 = Returns (Some (Own a2))
    ∧ authAddr a1 ≠ authAddr a2
    ∧ (authSalt a1, authNamespace a1) = (salt, ns1)
    ∧ (authSalt a2, authNamespace a2) = (salt, ns2)
    ∧ getAuthenticator ns1 w2 = (Returns (Some (Own a1)), w2)
    ∧ getAuthenticator ns2 w2 = (Returns (Some (Own a2)), w2)
    ∧ authenticatorsConstructed w2
      = (authenticatorsConstructed w ++ [a1; a2])%list.
Proof.
  intros Hn1 Hn2 Hne Hs Hsalt Hc1 Hc2. cbn zeta.
  rewrite (getAuthenticator_fresh ns1 salt w Hn1 Hs Hsalt Hc1).
  cbn [fst snd].
  assert (cacheRead ns2 (cacheStoreNew salt ns1 w) = None) as Hc2'
    by (by rewrite cacheRead_other).
  rewrite (getAuthenticator_fresh ns2 salt (cacheStoreNew salt ns1 w) Hn2 Hs
             Hsalt Hc2').
  cbn [fst snd].
  eexists _, _. split; [done |]. split; [done |].
  split; [cbn; lia |]. split; [done |]. split; [done |].
  split; [|split].
  - apply getAuthenticator_cached; [done |].
    rewrite cacheRead_other by done. apply cacheRead_stored.
  - apply getAuthenticator_cached; [done |]. apply cacheRead_stored.
  - cbn. by rewrite <- app_assoc.
Qed.

Lemma issuers_are_per_namespace_witness :
  ∃ a1 a2,
    (getAuthenticator "captain" saltedWorld).1 = Returns (Some (Own a1))
    ∧ (getAuthenticator "tenant"
         (getAuthenticator "captain" saltedWorld).2).1
      = Returns (Some (Own a2))
    ∧ authAddr a1 ≠ authAddr a2.
Proof.
  destruct (issuers_are_per_namespace saltedWorld "captain" "tenant" "s3cr3t")
    as (a1 & a2 & H1 & H2 & H3 & _);
    [done | done | done | done | reflexivity | reflexivity | reflexivity |].
  by exists a1, a2.
Defined.

End SingletonFacts.

(** ** What a run of the bootstrap leaves of the instance *)

Module OutcomesFacts.
Import Js Chain Outcomes.

Lemma wp_bind {A B} (p : Chain A) (k : A → Chain B) Q s :
  wp p (λ o s', match o with
                | Fulfilled v => wp (k v) Q s'
                | Failed e => Q (Failed e) s'
                | Never => Q Never s'
                end) s →
  wp (p ≫= k) Q s.
Proof.
  unfold wp, mbind, chain_bind, andThen.
  by destruct (p s) as [[v|e|] s'].
Qed.

Lemma wp_ret {A} (v : A) (Q : Outcome A → Sys → Prop) s :
  Q (Fulfilled v) s → wp (mret v) Q s.
Proof. done. Qed.

Lemma wp_throw {A} e (Q : Outcome A → Sys → Prop) s :
  Q (Failed e) s → wp (throw e) Q s.
Proof. done. Qed.

Lemma wp_never {A} (Q : Outcome A → Sys → Prop) s :
  Q Never s → wp never Q s.
Proof. done. Qed.

Lemma wp_perform env {X} (c : Call X) Q s :
  (∀ s', world s' = world s → trace s' = (trace s ++ [Did c])%list →
         Q (env X (length (trace s)) c) s') →
  wp (perform env c) Q s.
Proof. intros H. by apply H. Qed.

Lemma wp_launch env {X} (c : Call X) Q s :
  (∀ s', world s' = world s → trace s' = (trace s ++ [Did c])%list →
         Q (match env X (length (trace s)) c with
            | Failed e => Failed e
            | _ => Fulfilled tt
            end) s') →
  wp (launch env c) Q s.
Proof.
  intros H. unfold wp, launch.
  specialize (H (record (Did c) s) eq_refl eq_refl).
  by destruct (env X _ c).
Qed.

Lemma wp_wait ms Q s :
  (∀ s', world s' = world s → trace s' = (trace s ++ [Waited ms])%list →
         Q (Fulfilled tt) s') →
  wp (wait ms) Q s.
Proof. intros H. by apply H. Qed.

Lemma wp_spawn t Q s :
  (∀ s', world s' = world s → trace s' = (trace s ++ [Spawned t])%list →
         Q (Fulfilled tt) s') →
  wp (spawn t) Q s.
Proof. intros H. by apply H. Qed.

Lemma wp_log l Q s :
  (∀ s', world s' = world s → trace s' = trace s → Q (Fulfilled tt) s') →
  wp (log l) Q s.
Proof. intros H. by apply H. Qed.

Lemma wp_setTimeout ms a Q s :
  (∀ s', world s' = world s → trace s' = trace s → Q (Fulfilled tt) s') →
  wp (setTimeout ms a) Q s.
Proof. intros H. by apply H. Qed.

Lemma wp_assign a f Q s :
  (∀ s', world s' = Statics.updateManager a f (world s) →
         trace s' = trace s → Q (Fulfilled tt) s') →
  wp (assign a f) Q s.
Proof. intros H. by apply H. Qed.

Lemma wp_static {A} (f : Statics.World → Statics.Result A * Statics.World)
    Q s :
  (∀ s', world s' = (f (world s)).2 → trace s' = trace s →
         Q (match (f (world s)).1 with
            | Statics.Returns v => Fulfilled v
            | Statics.Throws e => Failed e
            end) s') →
  wp (static f) Q s.
Proof.
  intros H. unfold wp, static.
  destruct (f (world s)) as [r w] eqn:Hf.
  specialize (H (mkSys (trace s) (logged s) (timers s) w) eq_refl eq_refl).
  by destruct r.
Qed.

Lemma called_mono env s s' {X} (c : Call X) v new :
  trace s' = (trace s ++ new)%list → called env s c v → called env s' c v.
Proof.
  intros Ht (k & Hk & He). exists k. split; [|done].
  rewrite Ht. by apply lookup_app_l_Some.
Qed.

Lemma called_same env s s' {X} (c : Call X) v :
  trace s' = trace s → called env s c v → called env s' c v.
Proof. intros Ht (k & Hk & He). exists k. by rewrite Ht. Qed.

Lemma called_now env s s' {X} (c : Call X) v :
  trace s' = (trace s ++ [Did c])%list →
  env X (length (trace s)) c = Fulfilled v → called env s' c v.
Proof.
  intros Ht He. exists (length (trace s)). split; [|done].
  rewrite Ht. by apply list_lookup_middle.
Qed.

Lemma At_same self m s s' :
  world s' = world s → At self m s → At self m s'.
Proof. intros Hw. unfold At. by rewrite Hw. Qed.

Lemma At_assign self m f s s' :
  world s' = Statics.updateManager self f (world s) →
  At self m s → At self (f m) s'.
Proof.
  intros Hw [Hi Hm]. unfold At. rewrite Hw. cbn. split; [done |].
  by rewrite lookup_alter_eq, Hm.
Qed.

End OutcomesFacts.

Module LocalRegistryFacts.
Import Chain Bootstrap LocalRegistry.

Lemma findLocalRegistry_from registries : ∀ localRegistry,
  findLocalRegistry registries localRegistry
  = from_option Some localRegistry (last (List.filter isLocal registries)).
Proof.
  induction registries as [|element rest IH]; intros acc; [done |].
  cbn [findLocalRegistry List.filter]. rewrite IH. unfold isLocal at 2.
  destruct (registryType element); [|done].
  rewrite last_cons. by destruct (last (List.filter isLocal rest)).
Qed.

(** X11.  The loop over the registries picks the last entry of type
    [LOCAL_REG], and none exactly when the list has no such entry. *)
Theorem findLocalRegistry_is_last_local (registries : list IRegistryInfo) :
  findLocalRegistry registries None = last (List.filter isLocal registries).
Proof.
  rewrite findLocalRegistry_from.
  by destruct (last (List.filter isLocal registries)).
Qed.

End LocalRegistryFacts.

Module BootedFacts.
Import Js Chain Outcomes OutcomesFacts Bootstrap Samples MoreSamples StaticsFacts
  BootstrapFacts.

#[local] Arguments Statics.getAuthenticator : simpl never.
#[local] Arguments Statics.getCaptainSalt : simpl never.
#[local] Arguments Statics.updateManager : simpl never.

(** With the singleton in place a lookup of an issuer leaves the objects
    as they are. *)
Lemma getAuthenticator_keeps_instance ns w a :
  Statics.captainManagerInstance w = Some a →
  Statics.captainManagerInstance (Statics.getAuthenticator ns w).2 = Some a
  ∧ Statics.heap (Statics.getAuthenticator ns w).2 = Statics.heap w.
Proof.
  intros Hi. unfold Statics.getAuthenticator.
  destruct (falsy_string ns); [done |].
  destruct (Statics.cacheRead ns w); [done |].
  rewrite (get_existing w a Hi). unfold Statics.getCaptainSalt.
  destruct (falsy_string (default "" _)) eqn:Hf; [done |].
  cbn. by rewrite Hf.
Qed.

Lemma At_getAuthenticator self m ns s s' :
  world s' = (Statics.getAuthenticator ns (world s)).2 →
  At self m s → At self m s'.
Proof.
  intros Hw [Hi Hm]. unfold At. rewrite Hw.
  destruct (getAuthenticator_keeps_instance ns (world s) self Hi) as [-> ->].
  done.
Qed.

Lemma At_getCaptainSalt self m s :
  At self m s → Statics.captainSalt m ≠ "" →
  Statics.getCaptainSalt self (world s)
  = (Statics.Returns (Statics.captainSalt m), world s).
Proof.
  intros [Hi Hm] Hne. apply getCaptainSalt_available; [|done].
  by rewrite Hm.
Qed.

Ltac carry s s' Hw Ht :=
  repeat match goal with
         | H : At _ _ s |- _ =>
             first [ apply (At_same _ _ s s' Hw) in H
                   | apply (At_assign _ _ _ s s' Hw) in H
                   | apply (At_getAuthenticator _ _ _ s s' Hw) in H ]
         | H : called _ s _ _ |- _ =>
             first [ apply (called_same _ s s' _ _ Ht) in H
                   | apply (called_mono _ s s' _ _ _ Ht) in H ]
         end.

(** One primitive at the head of the goal: its rule, then every fact about
    the old state is carried over to the new one. *)
Ltac head_step :=
  lazymatch goal with
  | |- wp (perform ?env ?c) _ ?s =>
      apply wp_perform;
      let s' := fresh "s" in let Hw := fresh "Hw" in let Ht := fresh "Ht" in
      let Hk := fresh "Hk" in
      intros s' Hw Ht; cbn beta;
      destruct (env _ (length (trace s)) c) eqn:Hk;
      [ apply (called_now env s s' c _ Ht) in Hk | clear Hk | clear Hk ];
      cbn beta match;
      carry s s' Hw Ht; clear Hw Ht; try clear s
  | |- wp (launch ?env ?c) _ ?s =>
      apply wp_launch;
      let s' := fresh "s" in let Hw := fresh "Hw" in let Ht := fresh "Ht" in
      intros s' Hw Ht; cbn beta;
      destruct (env _ (length (trace s)) c);
      cbn beta match;
      carry s s' Hw Ht; clear Hw Ht; try clear s
  | |- wp (static (Statics.getCaptainSalt _)) _ ?s =>
      apply wp_static;
      let s' := fresh "s" in let Hw := fresh "Hw" in let Ht := fresh "Ht" in
      intros s' Hw Ht; cbn beta;
      match goal with
      | H : At _ _ s |- _ =>
          rewrite (At_getCaptainSalt _ _ s H) in Hw |- * by assumption
      end;
      cbn [fst snd] in Hw |- *; cbn beta match;
      carry s s' Hw Ht; clear Hw Ht; try clear s
  | |- wp (static (Statics.getAuthenticator ?ns)) _ ?s =>
      apply wp_static;
      let s' := fresh "s" in let Hw := fresh "Hw" in let Ht := fresh "Ht" in
      intros s' Hw Ht; cbn beta;
      destruct (Statics.getAuthenticator ns (world s)).1;
      cbn beta match;
      carry s s' Hw Ht; clear Hw Ht; try clear s
  | |- wp ?p _ ?s =>
      first [ apply wp_log | apply wp_setTimeout | apply wp_assign
            | apply wp_wait | apply wp_spawn ];
      let s' := fresh "s" in let Hw := fresh "Hw" in let Ht := fresh "Ht" in
      intros s' Hw Ht; cbn beta match;
      carry s s' Hw Ht; clear Hw Ht; try clear s
  end.

Lemma falsy_string_false s : falsy_string s = false → s ≠ "".
Proof. unfold falsy_string. by intros ?%bool_decide_eq_false. Qed.

Ltac finish :=
  repeat match goal with
         | H : negb ?b = false |- _ => apply negb_false_iff in H; subst b
         | v : () |- _ => destruct v
         end;
  subst;
  eexists; split; [eassumption |]; split; [reflexivity |];
  split; [first [by intros _ | by intros] |];
  first [ left; reflexivity
        | right; split; [reflexivity |];
          do 3 eexists; repeat split; first [eassumption | reflexivity] ].

Ltac step :=
  lazymatch goal with
  | |- wp (if falsy_string ?x then _ else _) _ _ =>
      let H := fresh "Hsalt" in
      destruct (falsy_string x) eqn:H;
      [|apply falsy_string_false in H]
  | |- ∃ _, At _ _ _ ∧ _ => finish
  | |- wp (mret _) _ _ => apply wp_ret
  | |- wp (throw _) _ _ => apply wp_throw
  | |- wp never _ _ => apply wp_never
  | |- wp (_ ≫= _) _ _ => apply wp_bind
  | |- wp (if ?b then _ else _) _ _ => destruct b eqn:?
  | |- wp (match ?o with Some _ => _ | None => _ end) _ _ => destruct o eqn:?
  | |- wp SelfReset.resetSelfChain _ _ => unfold SelfReset.resetSelfChain
  | |- wp (startHealthCheck _ _ _ _) _ _ => unfold startHealthCheck
  | |- wp _ _ _ => head_step
  end.

Lemma bootstrap_summary env cc self freshSalt nextUuid m s :
  At self m s →
  wp (bootstrap env cc self freshSalt nextUuid)
     (λ o s', ∃ m',
        At self m' s'
        ∧ Statics.waitUntilRestarted m' = Statics.waitUntilRestarted m
        ∧ (fulfilled o = true → Statics.inited m' = true)
        ∧ (Statics.inited m' = Statics.inited m
           ∨ Statics.inited m' = true
             ∧ ∃ forceSsl nodeId salt,
                 called env s' DS_getForceSsl forceSsl
                 ∧ called env s'
                     (Docker_getNodeIdByServiceName (captainServiceName cc) 0)
                     nodeId
                 ∧ called env s' (Docker_isNodeManager nodeId) true
                 ∧ called env s'
                     (Docker_ensureSecretOnService (captainServiceName cc)
                                                   (captainSaltSecretKey cc))
                     true
                 ∧ called env s' (Fs_pathExistsSync (secretFileName cc)) true
                 ∧ called env s' (Fs_readFileSync (secretFileName cc)) salt
                 ∧ salt ≠ ""
                 ∧ called env s' (DS_setEncryptionSalt salt) tt
                 ∧ called env s' Migrate_migrateIfNeeded false
                 ∧ Statics.hasForceSsl m' = forceSsl
                 ∧ Statics.myNodeId m' = Some nodeId
                 ∧ Statics.captainSalt m' = salt)) s.
Proof.
  intros Hat. unfold bootstrap. repeat step.
Qed.

Lemma initialize_summary env cc self freshSalt nextUuid m s :
  At self m s →
  let r := initialize env cc self freshSalt nextUuid s in
  ∃ m',
    At self m' r.2
    ∧ Statics.waitUntilRestarted m' = Statics.waitUntilRestarted m
    ∧ (r.1 = Fulfilled tt → Statics.inited m' = true)
    ∧ (Statics.inited m' = Statics.inited m
       ∨ Statics.inited m' = true
         ∧ ∃ forceSsl nodeId salt,
             called env r.2 DS_getForceSsl forceSsl
             ∧ called env r.2
                 (Docker_getNodeIdByServiceName (captainServiceName cc) 0)
                 nodeId
             ∧ called env r.2 (Docker_isNodeManager nodeId) true
             ∧ called env r.2
                 (Docker_ensureSecretOnService (captainServiceName cc)
                                               (captainSaltSecretKey cc))
                 true
             ∧ called env r.2 (Fs_pathExistsSync (secretFileName cc)) true
             ∧ called env r.2 (Fs_readFileSync (secretFileName cc)) salt
             ∧ salt ≠ ""
             ∧ called env r.2 (DS_setEncryptionSalt salt) tt
             ∧ called env r.2 Migrate_migrateIfNeeded false
             ∧ Statics.hasForceSsl m' = forceSsl
             ∧ Statics.myNodeId m' = Some nodeId
             ∧ Statics.captainSalt m' = salt).
Proof.
  intros Hat. cbn zeta.
  pose proof (bootstrap_summary env cc self freshSalt nextUuid m s Hat) as H.
  unfold wp in H. unfold initialize.
  destruct (bootstrap env cc self freshSalt nextUuid s) as [[[]|e|] s'];
    cbn [fst snd] in *;
    destruct H as (m' & Hat' & Hw & Hf & Hd); exists m';
    (split; [done |]); (split; [done |]);
    (split; [first [by intros _; apply Hf | done] |]); done.
Qed.

(** X9.  The instance reports itself initialised only behind every gate
    of [initialize]: whenever [isInitialized()] is true after the run of an
    instance that was not initialised, the node was reported a manager,
    the salt secret had been attached before and its file existed, the
    salt read from that file is not empty and went to the data store, no
    migration was performed; [getCaptainSalt()] returns that salt and the
    node id is the one the orchestrator gave. *)
Theorem initialized_only_behind_the_gates
    (env : Env) (cc : CaptainConstants) (self : Statics.Addr)
    (freshSalt nextUuid : string) (m : Statics.Manager) (s : Sys) :
  At self m s →
  Statics.inited m = false →
  let r := initialize env cc self freshSalt nextUuid s in
  Accessors.isInitialized self (world r.2) = true →
  ∃ nodeId salt,
    called env r.2
      (Docker_getNodeIdByServiceName (captainServiceName cc) 0) nodeId
    ∧ called env r.2 (Docker_isNodeManager nodeId) true
    ∧ called env r.2
        (Docker_ensureSecretOnService (captainServiceName cc)
                                      (captainSaltSecretKey cc)) true
    ∧ called env r.2 (Fs_pathExistsSync (secretFileName cc)) true
    ∧ called env r.2 (Fs_readFileSync (secretFileName cc)) salt
    ∧ salt ≠ ""
    ∧ called env r.2 (DS_setEncryptionSalt salt) tt
    ∧ called env r.2 Migrate_migrateIfNeeded false
    ∧ Statics.getCaptainSalt self (world r.2)
      = (Statics.Returns salt, world r.2)
    ∧ (Statics.heap (world r.2) !! self ≫= Statics.myNodeId) = Some nodeId.
Proof.
  intros Hat Hm. cbn zeta.
  destruct (initialize_summary env cc self freshSalt nextUuid m s Hat)
    as (m' & Hat' & _ & _ & Hd).
  intros Hinit. unfold Accessors.isInitialized in Hinit.
  pose proof Hat' as [_ Hheap]. rewrite Hheap in Hinit.
  apply andb_prop in Hinit as [Hinit _].
  destruct Hd as [Hd | (_ & f & nodeId & salt & H)]; [congruence |].
  destruct H as (_ & H1 & H2 & H3 & H4 & H5 & H6 & H7 & H8 & _ & H10 & H11).
  exists nodeId, salt. repeat (split; [done |]).
  split.
  - rewrite <- H11. apply (At_getCaptainSalt self m' _ Hat'). by rewrite H11.
  - by rewrite Hheap.
Qed.

Lemma initialized_only_behind_the_gates_witness :
  ∃ nodeId salt,
    called readyEnv
      (initialize readyEnv sampleConstants 0%nat "fresh" "uuid-2"
         (fresh bornWorld)).2
      (Docker_isNodeManager nodeId) true
    ∧ Statics.getCaptainSalt 0%nat
        (world (initialize readyEnv sampleConstants 0%nat "fresh" "uuid-2"
                  (fresh bornWorld)).2)
      = (Statics.Returns salt,
         world (initialize readyEnv sampleConstants 0%nat "fresh" "uuid-2"
                  (fresh bornWorld)).2).
Proof.
  destruct (initialized_only_behind_the_gates readyEnv sampleConstants 0%nat
              "fresh" "uuid-2"
              (Statics.mkManager false None false false "" 0 "u")
              (fresh bornWorld))
    as (nodeId & salt & _ & H2 & _ & _ & _ & _ & _ & _ & H9 & _);
    [split; reflexivity | reflexivity | vm_compute; reflexivity |].
  exists nodeId, salt. split; [exact H2 | exact H9].
Defined.

(** X10.  When the chain of [initialize] fulfils, [isInitialized()] is
    true, [getForceSslValue()] is what the data store answered to
    [getForceSsl], and no exit of the process has been armed: whatever the
    delay, the exits that have come due are those armed before the run. *)
Theorem fulfilled_initialize_is_ready
    (env : Env) (cc : CaptainConstants) (self : Statics.Addr)
    (freshSalt nextUuid : string) (m : Statics.Manager) (s : Sys) :
  At self m s →
  Statics.inited m = false →
  Statics.waitUntilRestarted m = false →
  let r := initialize env cc self freshSalt nextUuid s in
  r.1 = Fulfilled tt →
  Accessors.isInitialized self (world r.2) = true
  ∧ called env r.2 DS_getForceSsl
      (Accessors.getForceSslValue self (world r.2))
  ∧ (∀ ms, exitsDue ms r.2 = exitsDue ms s).
Proof.
  intros Hat Hm Hw. cbn zeta. intros Hful.
  destruct (initialize_summary env cc self freshSalt nextUuid m s Hat)
    as (m' & [_ Hheap] & Hw' & Hf & Hd).
  specialize (Hf Hful).
  unfold Accessors.isInitialized, Accessors.getForceSslValue.
  rewrite Hheap. cbn. rewrite Hf, Hw', Hw.
  split; [done |].
  destruct Hd as [Hd | (_ & f & nodeId & salt & H)]; [congruence |].
  destruct H as (H0 & _ & _ & _ & _ & _ & _ & _ & _ & H9 & _).
  split; [by rewrite H9 |].
  intros ms. unfold initialize in *.
  destruct (bootstrap_orderly env cc self freshSalt nextUuid s)
    as (new & _ & Hx & _).
  destruct (bootstrap env cc self freshSalt nextUuid s) as [[[]|e|] s'];
    cbn [fst snd] in *; [apply Hx | done | done].
Qed.

Lemma fulfilled_initialize_is_ready_witness :
  Accessors.isInitialized 0%nat
    (world (initialize readyEnv sampleConstants 0%nat "fresh" "uuid-2"
              (fresh bornWorld)).2) = true.
Proof.
  refine (proj1 (fulfilled_initialize_is_ready readyEnv sampleConstants 0%nat
            "fresh" "uuid-2"
            (Statics.mkManager false None false false "" 0 "u")
            (fresh bornWorld) _ _ _ _));
    [split; reflexivity | reflexivity | reflexivity
    | vm_compute; reflexivity].
Defined.

End BootedFacts.

(** ** What a node enrolment does to the remote side *)

Module JoinSessionFacts.
Import Js JoinNode JoinSession Samples.

Section Session.
Variable d : Deps.
Variables captainIpAddress token : string.

Lemma handle_connEnds_le ev s :
  (connEnds (handle d captainIpAddress token ev s)
   ≤ connEnds s + (if isClose ev then 1 else 0))%nat.
Proof.
  destruct ev as [err| |[err|]|i code signal|i data|i data];
    cbn [handle isClose]; try (cbn; lia);
    destruct (streamFlag i s) as [[]|]; cbn; lia.
Qed.

Lemma run_connEnds_le evs : ∀ s,
  (connEnds (run d captainIpAddress token evs s)
   ≤ connEnds s + length (List.filter isClose evs))%nat.
Proof.
  unfold run. induction evs as [|ev evs IH]; intros s; cbn [foldl List.filter].
  - cbn. lia.
  - specialize (IH (handle d captainIpAddress token ev s)).
    pose proof (handle_connEnds_le ev s).
    destruct (isClose ev); cbn [length]; lia.
Qed.

Lemma handle_execIssued ev s :
  execIssued (handle d captainIpAddress token ev s)
  = (execIssued s
     ++ (if isReady ev then [joinCommandLine d captainIpAddress token]
         else []))%list.
Proof.
  destruct ev as [err| |[err|]|i code signal|i data|i data];
    cbn [handle isReady]; try (cbn; by rewrite ?app_nil_r);
    destruct (streamFlag i s) as [[]|]; cbn; by rewrite app_nil_r.
Qed.

Lemma handle_connected ev s :
  connected (handle d captainIpAddress token ev s) = connected s.
Proof.
  destruct ev as [err| |[err|]|i code signal|i data|i data];
    cbn [handle]; try done;
    by destruct (streamFlag i s) as [[]|].
Qed.

Lemma run_execIssued evs : ∀ s,
  execIssued (run d captainIpAddress token evs s)
  = (execIssued s
     ++ replicate (length (List.filter isReady evs))
                  (joinCommandLine d captainIpAddress token))%list
  ∧ connected (run d captainIpAddress token evs s) = connected s.
Proof.
  unfold run. induction evs as [|ev evs IH]; intros s; cbn [foldl List.filter].
  - cbn. by rewrite app_nil_r.
  - destruct (IH (handle d captainIpAddress token ev s)) as [-> ->].
    rewrite handle_execIssued, handle_connected.
    destruct (isReady ev); cbn [length replicate];
      by rewrite <- app_assoc.
Qed.

End Session.

(** X12.  The code ends the SSH connection only in the stream's [close]
    handler: whatever the events, [conn.end()] has been called at most
    once per [close] event, so a session that fails on a connection error,
    on the [exec] callback or on standard error output, and sees no
    [close], never ends the connection; nor does one whose join token could
    not be fetched. *)
Theorem connection_ended_only_on_close (d : Deps)
    (captainIpAddress : string) (isManager : bool)
    (remoteNodeIpAddress privateKey : string)
    (tokenReply : sum Error string) (evs : list Event) :
  (connEnds (joinDockerNode d captainIpAddress isManager remoteNodeIpAddress
               privateKey tokenReply evs)
   ≤ length (List.filter isClose evs))%nat.
Proof.
  unfold joinDockerNode. destruct tokenReply as [e|token]; [cbn; lia |].
  apply (run_connEnds_le d captainIpAddress token evs
           (opened remoteNodeIpAddress privateKey)).
Qed.

(** X13.  When the join token cannot be fetched nothing is connected and
    nothing is run.  Otherwise the session connects to the given address
    on port 22 as [root] with the given key, whatever [isManager] is, and
    the only command ever passed to [conn.exec] is the firewall command, a
    space and the join command for this address and token, once per
    [ready] event. *)
Theorem remote_side_gets_only_the_join_command (d : Deps)
    (captainIpAddress : string) (isManager : bool)
    (remoteNodeIpAddress privateKey : string)
    (tokenReply : sum Error string) (evs : list Event) :
  let s := joinDockerNode d captainIpAddress isManager remoteNodeIpAddress
             privateKey tokenReply evs in
  match tokenReply with
  | inl e => connected s = None ∧ execIssued s = []
  | inr token =>
      connected s
      = Some (mkConnectConfig remoteNodeIpAddress 22 "root" privateKey)
      ∧ execIssued s
        = replicate (length (List.filter isReady evs))
                    (joinCommandLine d captainIpAddress token)
  end.
Proof.
  cbn zeta. unfold joinDockerNode. destruct tokenReply as [e|token]; [done |].
  destruct (run_execIssued d captainIpAddress token evs
              (opened remoteNodeIpAddress privateKey)) as [-> ->].
  done.
Qed.

End JoinSessionFacts.

(** ** Published versions: entries that are no objects, bodies that do not parse *)

Module TagEntriesFacts.
Import Js Chain ImageTags TagEntries Samples ImageTagsFacts.

(** X14.  Outside debug configuration, for a body that parses to an
    object whose [results] is an array: when no element is [null] the
    promise resolves with exactly one tag per element, in order, the
    [name] of an object and [undefined] for an element that has none;
    when some element is [null] the callback throws and the promise never
    settles. *)
Theorem tags_one_per_entry_unless_null
    (env : Env) (parse : Parser) (cc : CaptainConstants)
    (w : Statics.World) (reply : HttpReply) (b : string)
    (fields : list (string * Json)) (elements : list Json) :
  isDebug cc = false →
  env _ 0%nat (Http_request (hubUrl cc)) = Fulfilled reply →
  error reply = None → body reply = Some b → b ≠ "" →
  parse b = Some (JObj fields) →
  field "results" fields None = Some (JArr elements) →
  (getCaptainImageTags env parse cc (fresh w)).1
  = if existsb isNull elements then Never
    else Fulfilled (TagList (map nameOf elements)).
Proof.
  intros Hd Hreply He Hb Hne Hp Hf.
  unfold getCaptainImageTags. chain_run. rewrite Hreply, Hd, He, Hb.
  unfold falsy_string. rewrite bool_decide_eq_false_2 by done.
  unfold parsedResults. rewrite Hp. cbn. rewrite Hf. chain_run.
  unfold readTags. rewrite collectNames_any.
  by destruct (existsb isNull elements).
Qed.

Lemma tags_one_per_entry_unless_null_witness :
  (getCaptainImageTags (servingEnv (Some nullEntryBody)) sampleParse
     sampleConstants (fresh emptyWorld)).1 = Never.
Proof.
  apply (tags_one_per_entry_unless_null (servingEnv (Some nullEntryBody))
           sampleParse sampleConstants emptyWorld
           (mkHttpReply None (Some nullEntryBody)) nullEntryBody
           [("results", JArr [JObj [("name", JStr "1.0.0")]; JNull])]
           [JObj [("name", JStr "1.0.0")]; JNull]);
    first [reflexivity | done].
Defined.

(** X15.  Outside debug configuration, a non-empty body that [JSON.parse]
    rejects, or that parses to [null], makes the callback throw: the
    promise is neither resolved nor rejected. *)
Theorem unreadable_body_leaves_tags_pending
    (env : Env) (parse : Parser) (cc : CaptainConstants)
    (w : Statics.World) (reply : HttpReply) (b : string) :
  isDebug cc = false →
  env _ 0%nat (Http_request (hubUrl cc)) = Fulfilled reply →
  error reply = None → body reply = Some b → b ≠ "" →
  parse b = None ∨ parse b = Some JNull →
  (getCaptainImageTags env parse cc (fresh w)).1 = Never.
Proof.
  intros Hd Hreply He Hb Hne Hp.
  unfold getCaptainImageTags. chain_run. rewrite Hreply, Hd, He, Hb.
  unfold falsy_string. rewrite bool_decide_eq_false_2 by done.
  unfold parsedResults. by destruct Hp as [-> | ->].
Qed.

Lemma unreadable_body_leaves_tags_pending_witness :
  (getCaptainImageTags (servingEnv (Some "<html>")) (fun _ => None)
     sampleConstants (fresh emptyWorld)).1 = Never.
Proof.
  apply (unreadable_body_leaves_tags_pending (servingEnv (Some "<html>"))
           (fun _ => None) sampleConstants emptyWorld
           (mkHttpReply None (Some "<html>")) "<html>");
    first [reflexivity | done | by left].
Defined.

(** X16.  Once the request has called back, the promise rejects in two
    ways only, and never under debug configuration: with the transport
    error, or with the "empty body" error. *)
Theorem tags_reject_only_two_ways
    (env : Env) (parse : Parser) (cc : CaptainConstants)
    (w : Statics.World) (reply : HttpReply) (e : Error) :
  env _ 0%nat (Http_request (hubUrl cc)) = Fulfilled reply →
  (getCaptainImageTags env parse cc (fresh w)).1 = Failed e →
  isDebug cc = false ∧ (error reply = Some e ∨ e = emptyBody).
Proof.
  intros Hreply. unfold getCaptainImageTags. chain_run. rewrite Hreply.
  destruct (isDebug cc); [done |].
  destruct reply as [[err|] [bdy|]]; cbn.
  - intros [= ->]. by split; [|left].
  - intros [= ->]. by split; [|left].
  - destruct (falsy_string bdy); [intros [= <-]; by split; [|right] |].
    unfold parsedResults, readTags, settle. chain_run.
    repeat (first [done | case_match; simplify_eq/=]);
      intros [= <-]; by split; [|right].
  - intros [= <-]. by split; [|right].
Qed.

Lemma tags_reject_only_two_ways_witness :
  isDebug sampleConstants = false
  ∧ (error (mkHttpReply None None) = Some emptyBody ∨ emptyBody = emptyBody).
Proof.
  apply (tags_reject_only_two_ways (servingEnv None) (fun _ => None)
           sampleConstants emptyWorld (mkHttpReply None None) emptyBody);
    reflexivity.
Defined.

End TagEntriesFacts.

(** ** Settings *)

Module SettingsFacts.
Import Js Admin Settings Samples MoreSamples.

Ltac admin_run :=
  unfold mbind, mret, admin_bind, admin_ret, andThen, perform, log,
    setTimeout, assign, dropped, ret, throw, never, fresh;
  cbn.

(** X17.  While the data store reports root SSL off, [forceSsl] is
    refused with the "enable SSL on the root domain first" error, for
    switching it on and for switching it off alike: the call that reads
    the flag is the only one made, nothing is stored and the instance is
    left as it was. *)
Theorem forceSsl_needs_root_ssl
    (env : Env) (self : Statics.Addr) (isEnabled : bool) (s : Sys) :
  env _ (length (trace s)) (Core Chain.DS_getHasRootSsl)
    = Chain.Fulfilled false →
  let r := forceSsl env self isEnabled s in
  r.1 = Chain.Failed rootSslFirst
  ∧ trace r.2 = (trace s ++ [Did (Core Chain.DS_getHasRootSsl)])%list
  ∧ world r.2 = world s.
Proof.
  intros Hroot. unfold forceSsl, refreshForceSslState. admin_run.
  by rewrite Hroot.
Qed.

Lemma forceSsl_needs_root_ssl_witness :
  (forceSsl rootSslOff 0%nat false (fresh bornWorld)).1
  = Chain.Failed rootSslFirst.
Proof.
  refine (proj1 (forceSsl_needs_root_ssl rootSslOff 0%nat false
                   (fresh bornWorld) _)).
  reflexivity.
Defined.

(** X18.  A [forceSsl] that fulfils has asked for root SSL (it was on),
    stored the requested value (the store accepted it) and read the flag
    back, in this order, and [getForceSslValue()] is then what the store
    read back, whatever was requested.  A [forceSsl] that does not fulfil
    leaves the instance as it was.  A call the store fails is the last one
    made, and the caller gets that error: a failed read of the root-SSL
    flag, a failed write of the requested value, a failed read-back. *)
Theorem forceSsl_caches_what_the_store_reads_back
    (env : Env) (self : Statics.Addr) (isEnabled : bool)
    (m : Statics.Manager) (s : Sys) :
  Statics.heap (world s) !! self = Some m →
  let r := forceSsl env self isEnabled s in
  let k := length (trace s) in
  let asked := Did (Core Chain.DS_getHasRootSsl) in
  let stored := Did (DS_setForceSsl isEnabled) in
  let readBack := Did (Core Chain.DS_getForceSsl) in
  (r.1 = Chain.Fulfilled tt →
     env _ k (Core Chain.DS_getHasRootSsl) = Chain.Fulfilled true
     ∧ env _ (k + 1)%nat (DS_setForceSsl isEnabled) = Chain.Fulfilled tt
     ∧ trace r.2 = (trace s ++ [asked; stored; readBack])%list
     ∧ env _ (k + 2)%nat (Core Chain.DS_getForceSsl)
       = Chain.Fulfilled (Accessors.getForceSslValue self (world r.2)))
  ∧ (r.1 ≠ Chain.Fulfilled tt → world r.2 = world s)
  ∧ (∀ e, env _ k (Core Chain.DS_getHasRootSsl) = Chain.Failed e →
       r.1 = Chain.Failed e ∧ trace r.2 = (trace s ++ [asked])%list)
  ∧ (∀ e, env _ k (Core Chain.DS_getHasRootSsl) = Chain.Fulfilled true →
       env _ (k + 1)%nat (DS_setForceSsl isEnabled) = Chain.Failed e →
       r.1 = Chain.Failed e
       ∧ trace r.2 = (trace s ++ [asked; stored])%list)
  ∧ (∀ e, env _ k (Core Chain.DS_getHasRootSsl) = Chain.Fulfilled true →
       env _ (k + 1)%nat (DS_setForceSsl isEnabled) = Chain.Fulfilled tt →
       env _ (k + 2)%nat (Core Chain.DS_getForceSsl) = Chain.Failed e →
       r.1 = Chain.Failed e
       ∧ trace r.2 = (trace s ++ [asked; stored; readBack])%list).
Proof.
  intros Hm. unfold forceSsl, refreshForceSslState. admin_run.
  destruct (env _ (length (trace s)) (Core Chain.DS_getHasRootSsl))
    as [[]|e|] eqn:H0; cbn.
  2,3,4: by repeat split; first [done | congruence].
  rewrite length_app; cbn.
  destruct (env _ (length (trace s) + 1)%nat (DS_setForceSsl isEnabled))
    as [[]|e|] eqn:H1; cbn.
  2,3: by repeat split; rewrite <- ?app_assoc; first [done | congruence].
  rewrite !length_app; cbn. rewrite <- Nat.add_assoc; cbn.
  destruct (env _ (length (trace s) + 2)%nat (Core Chain.DS_getForceSsl))
    as [v|e|] eqn:H2; cbn; rewrite <- !app_assoc; cbn.
  2,3: by repeat split; first [done | congruence].
  repeat split; try done.
  unfold Accessors.getForceSslValue, Statics.updateManager; cbn.
  by rewrite lookup_alter_eq, Hm.
Qed.

Lemma forceSsl_caches_what_the_store_reads_back_witness :
  stubbornStore false _ 2%nat (Core Chain.DS_getForceSsl)
  = Chain.Fulfilled
      (Accessors.getForceSslValue 0%nat
         (world (forceSsl (stubbornStore false) 0%nat true
                   (fresh bornWorld)).2)).
Proof.
  destruct (forceSsl_caches_what_the_store_reads_back (stubbornStore false)
              0%nat true (Statics.mkManager false None false false "" 0 "u")
              (fresh bornWorld) eq_refl) as [H _].
  destruct (H eq_refl) as (_ & _ & _ & H2).
  exact H2.
Defined.

(** X19.  [getNodesInfo] passes on a non-empty list of nodes as it is, and
    rejects with "No cluster node was found!" when the orchestrator gives
    an empty list or nothing at all. *)
Theorem getNodesInfo_rejects_an_empty_cluster
    (env : Env) (s : Sys) (reply : option (list ServerDockerInfo)) :
  env _ (length (trace s)) Docker_getNodesInfo = Chain.Fulfilled reply →
  (getNodesInfo env s).1
  = match reply with
    | Some (node :: nodes) => Chain.Fulfilled (node :: nodes)
    | _ => Chain.Failed noClusterNode
    end.
Proof.
  intros Hreply. unfold getNodesInfo. admin_run. rewrite Hreply.
  by destruct reply as [[|node nodes]|].
Qed.

Lemma getNodesInfo_rejects_an_empty_cluster_witness :
  (getNodesInfo (stubbornStore true) (fresh bornWorld)).1
  = Chain.Fulfilled [NodeInfo "node-1"].
Proof.
  apply (getNodesInfo_rejects_an_empty_cluster (stubbornStore true)
           (fresh bornWorld) (Some [NodeInfo "node-1"])).
  reflexivity.
Defined.

(** X20.  The environment of the monitoring container never names a
    variable twice; it has seven entries for a configured mail channel and
    two for each of the three other channels that is configured, none for
    the rest; [SSMTP_TLS] is "NO" exactly when non-TLS is allowed. *)
Theorem netDataEnvVars_keys (params : NetDataParams) :
  NoDup (key <$> netDataEnvVars params)
  ∧ length (netDataEnvVars params)
    = (match smtp params with Some _ => 7 | None => 0 end
       + match slack params with Some _ => 2 | None => 0 end
       + match telegram params with Some _ => 2 | None => 0 end
       + match pushBullet params with Some _ => 2 | None => 0 end)%nat
  ∧ (∀ m, smtp params = Some m →
       mkEnvVar "SSMTP_TLS" (if allowNonTls m then "NO" else "YES")
       ∈ netDataEnvVars params).
Proof.
  destruct params as [[m|] [k|] [t|] [p|]]; unfold netDataEnvVars;
    cbn [smtp slack telegram pushBullet app fmap list_fmap key length
         Nat.add];
    (split; [by apply (bool_decide_unpack _) | split; [done |]]);
    intros m' [= <-] || (intros m'; done);
    rewrite !elem_of_cons; auto 10.
Qed.

Lemma store_found a l :
  isStore a = true → a ∈ l → existsb isStore l = true.
Proof.
  intros Ha Hin. induction Hin as [a l|a b l Hin IH]; cbn.
  - by rewrite Ha.
  - rewrite IH by done. by destruct (isStore b).
Qed.

(** X21.  [updateNetDataInfo] always starts by removing the old
    container, and what it does is an initial part of: remove, create (only
    when monitoring is enabled), store the settings.  The settings are
    stored only after the removal, and when enabled the creation, have
    succeeded; disabled, no container is created. *)
Theorem updateNetDataInfo_stores_last
    (env : Env) (cc : Chain.CaptainConstants) (nc : NetDataConstants)
    (netDataInfo : NetDataInfo) (w : Statics.World) :
  let r := updateNetDataInfo env cc nc netDataInfo (fresh w) in
  let script := updateNetDataScript cc nc netDataInfo in
  (∃ k, (0 < k)%nat ∧ trace r.2 = take k script)
  ∧ (r.1 = Chain.Fulfilled tt → trace r.2 = script)
  ∧ (Did (DS_setNetDataInfo netDataInfo) ∈ trace r.2 →
       env _ 0%nat (removeNetData cc nc) = Chain.Fulfilled tt
       ∧ (isEnabled netDataInfo = true →
          env _ 1%nat (createNetData cc nc netDataInfo)
          = Chain.Fulfilled tt))
  ∧ (isEnabled netDataInfo = false →
       ∀ a, a ∈ trace r.2 →
            a = Did (removeNetData cc nc)
            ∨ a = Did (DS_setNetDataInfo netDataInfo)).
Proof.
  cbn zeta. unfold updateNetDataInfo, updateNetDataScript. admin_run.
  assert (∀ l, Did (DS_setNetDataInfo netDataInfo) ∈ l →
            existsb isStore l = false → False) as Hno.
  { intros l Hin Hex. by rewrite (store_found (Did (DS_setNetDataInfo netDataInfo)) l
                 eq_refl Hin) in Hex. }
  destruct (env _ 0%nat (removeNetData cc nc)) as [[]|e|] eqn:H0; cbn.
  2,3: split; [exists 1%nat; split; [lia | done] |]; split; [done |]; split;
       [ intros Hin; exfalso; by apply (Hno _ Hin)
       | intros _ a [->|?%elem_of_nil]%elem_of_cons; [by left | done] ].
  destruct (isEnabled netDataInfo) eqn:Hen; cbn.
  - destruct (env _ 1%nat (createNetData cc nc netDataInfo))
      as [[]|e|] eqn:H1; cbn.
    2,3: split; [exists 2%nat; split; [lia | done] |]; split; [done |]; split; [|done];
         intros Hin; exfalso; by apply (Hno _ Hin).
    split; [exists 3%nat; split; [lia | done] |]. split; [by destruct (env _ 2%nat _) |].
    split; [done | done].
  - split; [exists 2%nat; split; [lia | done] |]. split; [by destruct (env _ 1%nat _) |].
    split; [done |].
    intros _ a [->|[->|?%elem_of_nil]%elem_of_cons]%elem_of_cons; auto.
    done.
Qed.

Lemma updateNetDataInfo_stores_last_witness :
  trace (updateNetDataInfo (stubbornStore true) sampleConstants sampleNetData
           (mkNetDataInfo false (mkNetDataParams None None None None))
           (fresh emptyWorld)).2
  = updateNetDataScript sampleConstants sampleNetData
      (mkNetDataInfo false (mkNetDataParams None None None None)).
Proof.
  destruct (updateNetDataInfo_stores_last (stubbornStore true)
              sampleConstants sampleNetData
              (mkNetDataInfo false (mkNetDataParams None None None None))
              emptyWorld) as (_ & H & _).
  exact (H eq_refl).
Defined.

(** X22.  [setNginxConfig] settles as the data store's write does and
    does not wait for the reset it starts: after a successful write it
    fulfils with the 2000 ms reset timer armed, although the promise of
    [resetSelf] itself never settles; after a failed write no reset is
    armed. *)
Theorem setNginxConfig_does_not_wait_for_the_reset
    (env : Env) (baseConfig captainConfig : string) (s : Sys) :
  let r := setNginxConfig env baseConfig captainConfig s in
  let stored := env _ (length (trace s))
                  (DS_setNginxConfig baseConfig captainConfig) in
  r.1 = stored
  ∧ timers r.2
    = (timers s ++ (if Chain.fulfilled stored
                    then [(2000, Chain.ResetUpdateService)] else []))%list
  ∧ (resetSelf r.2).1 = Chain.Never.
Proof.
  cbn zeta. unfold setNginxConfig, resetSelf. admin_run.
  destruct (env _ (length (trace s)) _) as [[]|e|]; cbn;
    by rewrite ?app_nil_r.
Qed.

End SettingsFacts.

(** ** A new instance; the steps of the ownership check *)

Module AccessorsFacts.
Import Js Statics Accessors Samples.

(** X23.  An instance [get] has just constructed is not ready for use:
    [isInitialized()] and [getForceSslValue()] are false, and
    [getMyNodeId()] and [getCaptainSalt()] each log and throw their
    "is not set yet!!" error. *)
Theorem new_instance_is_not_ready (w : World) (a : Addr) :
  captainManagerInstance w = None →
  (get w).1 = Returns a →
  let w' := (get w).2 in
  isInitialized a w' = false
  ∧ getForceSslValue a w' = false
  ∧ getMyNodeId a w'
    = (Throws (PlainError "myNodeId is not set yet!!"),
       logError "myNodeId is not set yet!!" w')
  ∧ getCaptainSalt a w'
    = (Throws (PlainError "Captain Salt is not set yet!!"),
       logError "Captain Salt is not set yet!!" w').
Proof.
  intros Hi. unfold get. rewrite Hi. unfold construct.
  destruct (constructorThrows w (constructorRuns w)); [done |].
  cbn. intros [= <-].
  unfold isInitialized, getForceSslValue, getMyNodeId, getCaptainSalt; cbn.
  by rewrite lookup_insert_eq.
Qed.

Lemma new_instance_is_not_ready_witness :
  isInitialized 0%nat (get (boot (fun _ => None) (fun _ => "u"))).2 = false.
Proof.
  refine (proj1 (new_instance_is_not_ready
                   (boot (fun _ => None) (fun _ => "u")) 0%nat _ _));
    reflexivity.
Defined.

End AccessorsFacts.

Module VerifierFacts.
Import Js Chain DomainVerifier Samples.


End VerifierFacts.

(** ** The default-server check on its own *)

Module DefaultServerFacts.
Import Js Chain Ssl Samples.

(** X25.  Once the request of
    [verifyDomainResolvesToDefaultServerOnHost] has called back: the call
    fulfils exactly when there was no error and the body is non-empty and
    equal to the load balancer's public random key; it rejects with
    nothing but VerificationFailed; on an error or an empty body it
    rejects without asking for the key; and it stays pending only when
    reading the key does not return. *)
Theorem default_server_check_outcomes
    (env : Env) (cc : CaptainConstants) (domainName : string)
    (s : Sys) (reply : HttpReply) :
  let url := "http://" ++ domainName ++ captainConfirmationPath cc in
  let k := length (trace s) in
  env _ k (Http_request url) = Fulfilled reply →
  let r := verifyDomainResolvesToDefaultServerOnHost env cc domainName s in
  let key := env _ (S k) LB_getCaptainPublicRandomKey in
  (r.1 = Fulfilled tt
   ↔ error reply = None
     ∧ ∃ b, body reply = Some b ∧ b ≠ "" ∧ key = Fulfilled b)
  ∧ (∀ e, r.1 = Failed e → e = DomainVerifier.verificationFailed)
  ∧ (is_Some (error reply) ∨ falsy_opt_string (body reply) = true →
     r.1 = Failed DomainVerifier.verificationFailed
     ∧ trace r.2 = (trace s ++ [Did (Http_request url)])%list)
  ∧ (r.1 = Never → error reply = None ∧ fulfilled key = false).
Proof.
  cbn zeta. intros Hreply.
  unfold verifyDomainResolvesToDefaultServerOnHost. chain_run.
  rewrite Hreply. destruct reply as [[err|] [b|]]; cbn.
  1,2,4: split; [split; [done | by intros [? (? & ? & ? & ?)]] |];
         split; [by intros e [= <-] |]; split; [done | done].
  unfold falsy_string. destruct (bool_decide (b = "")) eqn:Hb; cbn.
  { apply bool_decide_eq_true in Hb as ->.
    split; [split; [done | by intros [_ (? & [= <-] & ? & _)]] |].
    split; [by intros e [= <-] |]. split; [done | done]. }
  apply bool_decide_eq_false in Hb.
  rewrite length_app; cbn. rewrite Nat.add_1_r.
  destruct (env _ (S (length (trace s))) LB_getCaptainPublicRandomKey)
    as [key|e|] eqn:Hk; cbn.
  - unfold strict_neq, string_eqb.
    destruct (bool_decide (b = key)) eqn:Hbk; cbn.
    + apply bool_decide_eq_true in Hbk as <-.
      split; [split; [intros _; split; [done | by exists b] | done] |].
      split; [done |]. split; [by intros [[? ?]|?] | done].
    + apply bool_decide_eq_false in Hbk.
      split; [split; [done | intros [_ (? & [= <-] & _ & [= <-])]; done] |].
      split; [by intros e [= <-] |]. split; [by intros [[? ?]|?] | done].
  - split; [split; [done | by intros [_ (? & _ & _ & ?)]] |].
    split; [done |]. split; [by intros [[? ?]|?] |].
    done.
  - split; [split; [done | by intros [_ (? & _ & _ & ?)]] |].
    split; [done |]. split; [by intros [[? ?]|?] |].
    done.
Qed.

Lemma default_server_check_outcomes_witness :
  (verifyDomainResolvesToDefaultServerOnHost (servingEnv None)
     sampleConstants "captain.example.com:80" (fresh emptyWorld)).1
  = Failed DomainVerifier.verificationFailed.
Proof.
  destruct (default_server_check_outcomes (servingEnv None) sampleConstants
              "captain.example.com:80" (fresh emptyWorld)
              (mkHttpReply None None) eq_refl) as (_ & _ & H & _).
  apply H. by right.
Defined.

End DefaultServerFacts.
